(** * Women's soccer roster scraper: field normalizers, URL builder,
      extractors, validator and fetch ladder of [wsoccer_roster_scraper.py].

    Conventions of the embedding.

    - A Python [str] is a [list ascii]: the text as its UTF-8 bytes.  String
      literals are written as Rocq strings and coerced.  The classes [\d],
      [\s] and [\w] are given their ASCII members; a byte above 127 counts as
      a word character (it is part of an accented letter in a name).
    - Regular expressions are kept as syntax trees and run by a backtracking
      matcher that lists the possible match lengths in the order in which
      Python's [re] tries them: greedy repetition, ordered alternation.
    - A parsed page is a tree of elements and text; [find], [find_all] and
      [get_text] walk it in document order as BeautifulSoup does.
    - The transport is a function from the log of earlier requests and the
      URL to a result; every request is appended to the log. *)

From Stdlib Require Import Ascii String.
From Stdlib Require Import List Bool Arith ZArith Lia.
From Stdlib Require Import Floats.
Import ListNotations.

Open Scope string_scope.
Open Scope list_scope.
Open Scope nat_scope.

Set Warnings "-register-all".

Abbreviation str := (list ascii).

Coercion list_ascii_of_string : string >-> list.

(** ** Python string primitives *)

Module Py.

Definition chr (n : nat) : ascii := ascii_of_nat n.

Definition code (c : ascii) : nat := nat_of_ascii c.

Definition newline : ascii := chr 10.

Definition dquote : ascii := chr 34.

(** [str.isspace] on ASCII: tab, LF, VT, FF, CR, FS, GS, RS, US and space. *)
Definition is_space (c : ascii) : bool :=
  let n := code c in
  ((9 <=? n) && (n <=? 13)) || ((28 <=? n) && (n <=? 32)).

Definition is_digit (c : ascii) : bool :=
  let n := code c in (48 <=? n) && (n <=? 57).

Definition is_upper (c : ascii) : bool :=
  let n := code c in (65 <=? n) && (n <=? 90).

Definition is_lower (c : ascii) : bool :=
  let n := code c in (97 <=? n) && (n <=? 122).

(** [\w]: letters, digits, underscore; bytes of non-ASCII characters. *)
Definition is_word (c : ascii) : bool :=
  is_upper c || is_lower c || is_digit c || (code c =? 95) || (128 <=? code c).

Definition upper_char (c : ascii) : ascii :=
  if is_lower c then chr (code c - 32) else c.

Definition lower_char (c : ascii) : ascii :=
  if is_upper c then chr (code c + 32) else c.

Definition upper (s : str) : str := map upper_char s.

Definition lower (s : str) : str := map lower_char s.

Fixpoint eqb (a b : str) : bool :=
  match a, b with
  | [], [] => true
  | x :: a', y :: b' => Ascii.eqb x y && eqb a' b'
  | _, _ => false
  end.

(** [s.startswith(p)] *)
Fixpoint startswith (p s : str) : bool :=
  match p, s with
  | [], _ => true
  | x :: p', y :: s' => Ascii.eqb x y && startswith p' s'
  | _ :: _, [] => false
  end.

(** [s.endswith(p)] *)
Definition endswith (p s : str) : bool := startswith (rev p) (rev s).

(** [sub in s] *)
Fixpoint contains (sub s : str) : bool :=
  startswith sub s ||
  match s with
  | [] => false
  | _ :: s' => contains sub s'
  end.

Fixpoint lstrip_by (p : ascii -> bool) (s : str) : str :=
  match s with
  | [] => []
  | c :: s' => if p c then lstrip_by p s' else s
  end.

Definition rstrip_by (p : ascii -> bool) (s : str) : str :=
  rev (lstrip_by p (rev s)).

(** [s.strip()] *)
Definition strip (s : str) : str := rstrip_by is_space (lstrip_by is_space s).

(** [s.rstrip('/')] and friends *)
Definition rstrip_char (c : ascii) (s : str) : str := rstrip_by (Ascii.eqb c) s.

(** [s.replace(old, new)] for a non-empty [old]: occurrences are replaced
    from the left and do not overlap; [skip] counts the characters of the
    occurrence being replaced that are still to be dropped. *)
Fixpoint replace_go (old new : str) (s : str) (skip : nat) : str :=
  match s with
  | [] => []
  | c :: s' =>
      match skip with
      | S k => replace_go old new s' k
      | O =>
          if startswith old s
          then new ++ replace_go old new s' (length old - 1)
          else c :: replace_go old new s' 0
      end
  end.

Definition replace (old new s : str) : str :=
  match old with
  | [] => s
  | _ :: _ => replace_go old new s 0
  end.

(** [s.split(sep)] for a one-character separator. *)
Fixpoint split (sep : ascii) (s : str) : list str :=
  match s with
  | [] => [[]]
  | c :: s' =>
      if Ascii.eqb c sep then [] :: split sep s'
      else match split sep s' with
           | [] => [[c]]
           | p :: ps => (c :: p) :: ps
           end
  end.

(** [sep.join(parts)] *)
Fixpoint join (sep : str) (parts : list str) : str :=
  match parts with
  | [] => []
  | [p] => p
  | p :: ps => p ++ sep ++ join sep ps
  end.

(** [s[-n:]] *)
Definition last_n (n : nat) (s : str) : str := skipn (length s - n) s.

(** [s[:-n]] *)
Definition drop_last (n : nat) (s : str) : str := firstn (length s - n) s.

(** Truth value of a string: non-empty. *)
Definition truthy (s : str) : bool :=
  match s with [] => false | _ :: _ => true end.

End Py.

(** ** Regular expressions as Python's [re] runs them *)

Module Re.

Inductive re : Type :=
| Eps                          (* the empty pattern *)
| Chr (p : ascii -> bool)      (* one character of a class *)
| Seq (r1 r2 : re)             (* r1 r2 *)
| Alt (r1 r2 : re)             (* r1|r2, r1 tried first *)
| Star (r : re)                (* r*, greedy *)
| WordB                        (* \b *)
| Bol                          (* ^ *)
| Eol                          (* $ : at the end, or before a final newline *)
| Ahead (r : re).              (* (?=r) *)

(** The character before the position reached after [n] characters of [s],
    when the one before [s] is [prev]. *)
Definition prev_after (prev : option ascii) (s : str) (n : nat) : option ascii :=
  match n with
  | O => prev
  | S k => nth_error s k
  end.

Definition word_opt (c : option ascii) : bool :=
  match c with
  | Some x => Py.is_word x
  | None => false
  end.

(** [star_ends step fuel prev s]: lengths matched by a greedy repetition
    whose body matches the lengths [step prev s]; an iteration that
    consumes nothing is not repeated. *)
Fixpoint star_ends (step : option ascii -> str -> list nat) (fuel : nat)
    (prev : option ascii) (s : str) : list nat :=
  match fuel with
  | O => [0]
  | S f =>
      flat_map
        (fun n =>
           match n with
           | O => []
           | S _ => map (Nat.add n) (star_ends step f (prev_after prev s n) (skipn n s))
           end)
        (step prev s) ++ [0]
  end.

(** [ends r prev s]: the lengths of the prefixes of [s] that [r] matches when
    the character before [s] is [prev], in the order in which the
    backtracking matcher reaches them.  The first is the match. *)
Fixpoint ends (r : re) (prev : option ascii) (s : str) : list nat :=
  match r with
  | Eps => [0]
  | Chr p =>
      match s with
      | c :: _ => if p c then [1] else []
      | [] => []
      end
  | Seq r1 r2 =>
      flat_map
        (fun n => map (Nat.add n) (ends r2 (prev_after prev s n) (skipn n s)))
        (ends r1 prev s)
  | Alt r1 r2 => ends r1 prev s ++ ends r2 prev s
  | Star r1 => star_ends (ends r1) (length s) prev s
  | WordB => if xorb (word_opt prev) (word_opt (hd_error s)) then [0] else []
  | Bol => match prev with None => [0] | Some _ => [] end
  | Eol =>
      match s with
      | [] => [0]
      | [c] => if Ascii.eqb c Py.newline then [0] else []
      | _ => []
      end
  | Ahead r1 => match ends r1 prev s with [] => [] | _ :: _ => [0] end
  end.

(** Derived forms. *)
Definition Plus (r : re) : re := Seq r (Star r).          (* r+ *)

Definition Opt (r : re) : re := Alt r Eps.                (* r? *)

Definition Rep12 (r : re) : re := Seq r (Opt r).          (* r{1,2} *)

Definition Never : re := Chr (fun _ => false).

Definition chr_is (c : ascii) : re := Chr (Ascii.eqb c).

Definition chr_ci (c : ascii) : re :=
  Chr (fun x => Ascii.eqb (Py.upper_char x) (Py.upper_char c)).

Fixpoint lit (s : str) : re :=
  match s with
  | [] => Eps
  | c :: s' => Seq (chr_is c) (lit s')
  end.

(** A literal under [re.IGNORECASE]. *)
Fixpoint lit_ci (s : str) : re :=
  match s with
  | [] => Eps
  | c :: s' => Seq (chr_ci c) (lit_ci s')
  end.

Fixpoint alts (rs : list re) : re :=
  match rs with
  | [] => Never
  | [r] => r
  | r :: rs' => Alt r (alts rs')
  end.

Definition space : re := Chr Py.is_space.                 (* \s *)

Definition digit : re := Chr Py.is_digit.                 (* \d *)

Definition dot : re := Chr (fun c => negb (Ascii.eqb c Py.newline)).   (* . *)

(** The scan of [re.search] along the text: the leftmost position at which
    [try] succeeds, with its result.  [i] is the position of [s] in the whole
    text and [prev] the character before it. *)
Fixpoint scan {X : Type} (try : option ascii -> str -> option X)
    (prev : option ascii) (s : str) (i : nat) : option (nat * X) :=
  match try prev s with
  | Some x => Some (i, x)
  | None =>
      match s with
      | [] => None
      | c :: s' => scan try (Some c) s' (S i)
      end
  end.

(** [re.search(r, s)]: where the leftmost match starts, and its length. *)
Definition search (r : re) (s : str) : option (nat * nat) :=
  scan (fun prev t => hd_error (ends r prev t)) None s 0.

(** The text of a match found at [i] with length [n]. *)
Definition slice (s : str) (i n : nat) : str := firstn n (skipn i s).

(** [m.group(0)] of [re.search(r, s)]. *)
Definition search_text (r : re) (s : str) : option str :=
  match search r s with
  | Some (i, n) => Some (slice s i n)
  | None => None
  end.

(** A pattern [pre(grp)]: the pairs (start of the group, end of the match),
    in backtracking order. *)
Definition ends_group (pre grp : re) (prev : option ascii) (s : str)
  : list (nat * nat) :=
  flat_map
    (fun n => map (fun m => (n, n + m)) (ends grp (prev_after prev s n) (skipn n s)))
    (ends pre prev s).

(** [m.group(1)] of [re.search] for the pattern [pre(grp)]. *)
Definition search_group (pre grp : re) (s : str) : option str :=
  match scan (fun prev t => hd_error (ends_group pre grp prev t)) None s 0 with
  | Some (i, (a, b)) => Some (slice s (i + a) (b - a))
  | None => None
  end.

(** [re.sub(r, repl, s)] for a pattern that matches no empty string:
    matches are replaced from the left and do not overlap.  [skip] counts
    the characters of the current match still to be dropped. *)
Fixpoint sub_go (r : re) (repl : str) (prev : option ascii) (s : str)
    (skip : nat) : str :=
  match s with
  | [] => []
  | c :: s' =>
      match skip with
      | S k => sub_go r repl (Some c) s' k
      | O =>
          match ends r prev s with
          | S n :: _ => repl ++ sub_go r repl (Some c) s' n
          | _ => c :: sub_go r repl (Some c) s' 0
          end
      end
  end.

Definition sub (r : re) (repl : str) (s : str) : str := sub_go r repl None s 0.

(** The character before position [k] of a text. *)
Definition prev_at (t : str) (k : nat) : option ascii := prev_after None t k.

(** The matches of [r] that start at position [k] of [t]. *)
Definition ends_at (r : re) (t : str) (k : nat) : list nat :=
  ends r (prev_at t k) (skipn k t).

(** Patterns without assertions: their matches depend neither on the
    character before the text nor on what follows the match. *)
Fixpoint plain (r : re) : bool :=
  match r with
  | Eps | Chr _ => true
  | Seq r1 r2 | Alt r1 r2 => plain r1 && plain r2
  | Star r1 => plain r1
  | WordB | Bol | Eol | Ahead _ => false
  end.

Definition all_ascii : list ascii := map ascii_of_nat (seq 0 256).

(** Every character of the class [p] is in the class [q]. *)
Definition subclass (p q : ascii -> bool) : bool :=
  forallb (fun c => implb (p c) (q c)) all_ascii.

(** Every match is non-empty and begins with a character of [q]. *)
Fixpoint first_in (q : ascii -> bool) (r : re) : bool :=
  match r with
  | Chr p => subclass p q
  | Seq r1 _ => first_in q r1
  | Alt r1 r2 => first_in q r1 && first_in q r2
  | _ => false
  end.

(** [last_in]: every match is non-empty and ends with a character of [q];
    [last_in_or_empty]: every match is empty or ends with one. *)
Fixpoint last_in (q : ascii -> bool) (r : re) : bool :=
  match r with
  | Chr p => subclass p q
  | Seq r1 r2 => last_in q r2 || (last_in_or_empty q r2 && last_in q r1)
  | Alt r1 r2 => last_in q r1 && last_in q r2
  | _ => false
  end
with last_in_or_empty (q : ascii -> bool) (r : re) : bool :=
  match r with
  | Eps | WordB | Bol | Eol | Ahead _ => true
  | Chr p => subclass p q
  | Seq r1 r2 => last_in q r2 || (last_in_or_empty q r1 && last_in_or_empty q r2)
  | Alt r1 r2 => last_in_or_empty q r1 && last_in_or_empty q r2
  | Star r1 => last_in_or_empty q r1
  end.

(** [n] is positive and the character before position [n] of [s] is in
    the class [q]. *)
Definition ends_in (q : ascii -> bool) (s : str) (n : nat) : Prop :=
  exists k c, n = S k /\ nth_error s k = Some c /\ q c = true.

Definition nonspace (c : ascii) : bool := negb (Py.is_space c).

End Re.

(** ** Field extractors ([class FieldExtractors]) *)

Module FieldExtractors.

Import Re.

Fixpoint seqs (rs : list re) : re :=
  match rs with
  | [] => Eps
  | [r] => r
  | r :: rs' => Seq r (seqs rs')
  end.

(** The prime and double prime signs, U+2032 and U+2033, in UTF-8. *)
Definition prime : str := [Py.chr 226; Py.chr 128; Py.chr 178].

Definition dprime : str := [Py.chr 226; Py.chr 128; Py.chr 179].

(** The class of an apostrophe or a prime sign. *)
Definition feet_mark : re := Alt (chr_is "'") (lit prime).

(** The class of a double quote, a double prime sign or an apostrophe. *)
Definition inch_mark : re := alts [chr_is Py.dquote; lit dprime; chr_is "'"].

(** \d+ feet_mark \s* \d+ inch_mark{1,2} *)
Definition imperial : re :=
  seqs [Plus digit; feet_mark; Star space; Plus digit; Rep12 inch_mark].

(** \s*/\s*\d+\.\d+m *)
Definition metric_tail : re :=
  seqs [Star space; chr_is "/"; Star space; Plus digit; chr_is "."; Plus digit; chr_is "m"].

Definition height_imperial_metric : re := Seq imperial (Opt metric_tail).

Definition height_imperial : re := imperial.

(** \d+-\d+ *)
Definition height_dash : re := seqs [Plus digit; chr_is "-"; Plus digit].

(** \d+\.\d+m *)
Definition height_metric : re := seqs [Plus digit; chr_is "."; Plus digit; chr_is "m"].

(** Height:\s*   followed by the group   [^\,\n]+ *)
Definition height_label : re := Seq (lit "Height:") (Star space).

Definition height_label_value : re :=
  Plus (Chr (fun c => negb (Ascii.eqb c ",") && negb (Ascii.eqb c Py.newline))).

(** The patterns of [extract_height], each as (what precedes group 1, group 1). *)
Definition height_patterns : list (re * re) :=
  [ (Eps, height_imperial_metric);
    (Eps, height_imperial);
    (Eps, height_dash);
    (Eps, height_metric);
    (height_label, height_label_value) ].

(** The loop over the patterns: the first that matches gives the result. *)
Fixpoint first_group (pats : list (re * re)) (text : str) : option str :=
  match pats with
  | [] => None
  | (pre, grp) :: rest =>
      match search_group pre grp text with
      | Some g => Some g
      | None => first_group rest text
      end
  end.

Definition extract_height (text : str) : str :=
  if negb (Py.truthy text) then []
  else
    match first_group height_patterns text with
    | Some g => Py.strip g
    | None => []
    end.

(** The text holds a height in one of the four shapes: one of the first
    four patterns matches. *)
Definition has_height_shape (text : str) : bool :=
  match first_group (firstn 4 height_patterns) text with
  | Some _ => true
  | None => false
  end.

(** A pattern that is one group, plain, whose matches begin and end with a
    character that is not blank. *)
Definition shape_ok (pg : re * re) : bool :=
  match fst pg with Eps => true | _ => false end
  && plain (snd pg) && first_in nonspace (snd pg) && last_in nonspace (snd pg).

(** The alternation of [extract_position], in the order of the source. *)
Definition position_vocabulary : list string :=
  [ "GK"; "G"; "GOALKEEPER";
    "D"; "DEF"; "DF"; "DEFENDER"; "B"; "BACK"; "CB"; "LB"; "RB"; "LCB"; "RCB";
    "FB"; "LWB"; "RWB";
    "M"; "MF"; "MID"; "MIDFIELDER"; "CM"; "CDM"; "CAM"; "DM"; "AM"; "LM"; "RM";
    "F"; "FW"; "FOR"; "FORWARD"; "ST"; "STRIKER"; "A"; "ATT"; "ATTACKER"; "W";
    "WING"; "WINGER"; "LW"; "RW" ].

Definition position_tokens : re :=
  alts (map (fun w : string => lit_ci w) position_vocabulary).

(** \b(GK|G|...|RW)\b under re.IGNORECASE *)
Definition position_re : re := seqs [WordB; position_tokens; WordB].

(** [pos in (...)] *)
Definition mem (x : str) (l : list string) : bool :=
  existsb (fun w : string => Py.eqb x w) l.

Definition goalkeeper_forms : list string := ["GK"; "G"; "GOALKEEPER"].

Definition defender_forms : list string :=
  ["DEF"; "DF"; "DEFENDER"; "B"; "BACK"; "CB"; "LB"; "RB"; "LCB"; "RCB"; "FB";
   "LWB"; "RWB"].

Definition midfielder_forms : list string :=
  ["MID"; "MF"; "MIDFIELDER"; "CM"; "CDM"; "CAM"; "DM"; "AM"; "LM"; "RM"].

Definition forward_forms : list string :=
  ["FOR"; "FW"; "FORWARD"; "ST"; "STRIKER"; "A"; "ATT"; "ATTACKER"; "W"; "WING";
   "WINGER"; "LW"; "RW"].

(** The normalisation of a matched token, already upper-cased. *)
Definition normalize_position (pos : str) : str :=
  if mem pos goalkeeper_forms then "GK"
  else if mem pos defender_forms then "D"
  else if mem pos midfielder_forms then "M"
  else if mem pos forward_forms then "F"
  else pos.

(** The substring fallback on the upper-cased text. *)
Definition position_fallback (text_upper : str) : str :=
  if Py.contains "GOALKEEPER" text_upper || Py.contains "GOALIE" text_upper
     || Py.contains "KEEPER" text_upper then "GK"
  else if Py.contains "DEFENDER" text_upper || Py.contains "DEFENCE" text_upper
     || Py.contains "DEFENSE" text_upper || Py.contains "BACK" text_upper then "D"
  else if Py.contains "MIDFIELDER" text_upper || Py.contains "MIDFIELD" text_upper
  then "M"
  else if Py.contains "FORWARD" text_upper || Py.contains "STRIKER" text_upper
     || Py.contains "ATTACKER" text_upper || Py.contains "ATTACK" text_upper then "F"
  else [].

Definition extract_position (text : str) : str :=
  if negb (Py.truthy text) then []
  else
    let text := Py.strip text in
    match search_text position_re text with
    | Some m => normalize_position (Py.upper m)
    | None => position_fallback (Py.upper text)
    end.

(** The five values a position may take. *)
Definition position_codes : list str := ["GK" : str; "D" : str; "M" : str; "F" : str; []].

(** The documented many-to-one table from a vocabulary token to its code. *)
Definition position_table : list (string * string) :=
  [ ("GK", "GK"); ("G", "GK"); ("GOALKEEPER", "GK");
    ("D", "D"); ("DEF", "D"); ("DF", "D"); ("DEFENDER", "D"); ("B", "D");
    ("BACK", "D"); ("CB", "D"); ("LB", "D"); ("RB", "D"); ("LCB", "D");
    ("RCB", "D"); ("FB", "D"); ("LWB", "D"); ("RWB", "D");
    ("M", "M"); ("MF", "M"); ("MID", "M"); ("MIDFIELDER", "M"); ("CM", "M");
    ("CDM", "M"); ("CAM", "M"); ("DM", "M"); ("AM", "M"); ("LM", "M"); ("RM", "M");
    ("F", "F"); ("FW", "F"); ("FOR", "F"); ("FORWARD", "F"); ("ST", "F");
    ("STRIKER", "F"); ("A", "F"); ("ATT", "F"); ("ATTACKER", "F"); ("W", "F");
    ("WING", "F"); ("WINGER", "F"); ("LW", "F"); ("RW", "F") ].

(** There is a word boundary at position [k] of [t]. *)
Definition boundary (t : str) (k : nat) : bool :=
  xorb (word_opt (prev_at t k)) (word_opt (nth_error t k)).

(** The vocabulary token [w] stands at position [i] of [t], in any case,
    with a word boundary on both sides. *)
Definition token_at (t : str) (i : nat) (w : string) : Prop :=
  In w position_vocabulary /\
  Py.eqb (Py.upper (slice t i (length w))) w = true /\
  boundary t i = true /\ boundary t (i + length w) = true.

(** One of the words occurs in the text. *)
Definition has_any (ws : list string) (text : str) : bool :=
  existsb (fun w : string => Py.contains w text) ws.

Definition year_map : list (string * string) :=
  [ ("Fr", "Freshman"); ("Fr.", "Freshman"); ("FR", "Freshman");
    ("So", "Sophomore"); ("So.", "Sophomore"); ("SO", "Sophomore");
    ("Jr", "Junior"); ("Jr.", "Junior"); ("JR", "Junior");
    ("Sr", "Senior"); ("Sr.", "Senior"); ("SR", "Senior");
    ("Gr", "Graduate"); ("Gr.", "Graduate"); ("GR", "Graduate");
    ("R-Fr", "Redshirt Freshman"); ("R-Fr.", "Redshirt Freshman");
    ("R-So", "Redshirt Sophomore"); ("R-So.", "Redshirt Sophomore");
    ("R-Jr", "Redshirt Junior"); ("R-Jr.", "Redshirt Junior");
    ("R-Sr", "Redshirt Senior"); ("R-Sr.", "Redshirt Senior");
    ("1st", "Freshman"); ("First", "Freshman");
    ("2nd", "Sophomore"); ("Second", "Sophomore");
    ("3rd", "Junior"); ("Third", "Junior");
    ("4th", "Senior"); ("Fourth", "Senior") ].

(** [year_map.get(key)] *)
Fixpoint lookup (key : str) (m : list (string * string)) : option str :=
  match m with
  | [] => None
  | (k, v) :: m' => if Py.eqb key k then Some (list_ascii_of_string v) else lookup key m'
  end.

Definition normalize_academic_year (year_text : str) : str :=
  if negb (Py.truthy year_text) then []
  else
    let cleaned := Py.strip year_text in
    match lookup cleaned year_map with
    | Some v => v
    | None => year_text
    end.

Record HometownSchool : Type := mkHometownSchool {
  hometown : str;
  high_school : str;
  previous_school : str
}.

(** \s*(Instagram|Twitter|Opens in a new window).*$ *)
Definition social_noise : re :=
  seqs [Star space;
        alts [lit "Instagram"; lit "Twitter"; lit "Opens in a new window"];
        Star dot; Eol].

Definition college_indicators : list string :=
  ["University"; "College"; "State"; "Tech"; "Institute"].

(** [any(indicator in part for indicator in college_indicators)] *)
Definition looks_like_college (part : str) : bool :=
  existsb (fun w : string => Py.contains w part) college_indicators.

(** The text after the two [re.sub] calls and the [strip]. *)
Definition hometown_text (text : str) : str :=
  Py.strip (sub (Plus space) " " (sub social_noise [] text)).

Definition parse_hometown_school (text : str) : HometownSchool :=
  let result := mkHometownSchool [] [] [] in
  if negb (Py.truthy text) then result
  else
    let text := hometown_text text in
    if Py.contains "/" text then
      let parts := map Py.strip (Py.split "/" text) in
      let result :=
        mkHometownSchool (nth 0 parts []) (high_school result) (previous_school result) in
      let result :=
        if 1 <? length parts then
          if looks_like_college (nth 1 parts [])
          then mkHometownSchool (hometown result) (high_school result) (nth 1 parts [])
          else mkHometownSchool (hometown result) (nth 1 parts []) (previous_school result)
        else result in
      if 2 <? length parts
      then mkHometownSchool (hometown result) (high_school result) (nth 2 parts [])
      else result
    else mkHometownSchool text (high_school result) (previous_school result).

(** The label patterns of [clean_field_labels], all under re.IGNORECASE. *)
Definition label_patterns : list re :=
  [ seqs [WordB; lit_ci "Class:"; Star space];
    seqs [WordB; lit_ci "Hometown:"; Star space];
    seqs [WordB; lit_ci "High school:"; Star space];
    seqs [WordB; lit_ci "Previous College:"; Star space];
    seqs [WordB; lit_ci "Previous School:"; Star space];
    seqs [WordB; lit_ci "Ht"; Opt (chr_is "."); chr_is ":"; Star space];
    seqs [WordB; lit_ci "Pos"; Opt (chr_is "."); chr_is ":"; Star space];
    seqs [WordB; lit_ci "Major:"; Star space];
    seqs [Bol; lit_ci "High school:"; Star space];
    seqs [Bol; lit_ci "Hometown:"; Star space];
    seqs [Bol; lit_ci "No"; Opt (chr_is "."); chr_is ":"; Star space] ].

Definition clean_field_labels (text : str) : str :=
  if negb (Py.truthy text) then text
  else fold_left (fun t p => Py.strip (sub p [] t)) label_patterns text.

(** \s*(Full Bio|Instagram|Twitter|Opens in a new window).*$ *)
Definition bio_noise : re :=
  seqs [Star space;
        alts [lit "Full Bio"; lit "Instagram"; lit "Twitter";
              lit "Opens in a new window"];
        Star dot; Eol].

Definition clean_text (text : str) : str :=
  if negb (Py.truthy text) then []
  else
    let cleaned := sub (Plus space) " " (Py.strip text) in
    let cleaned := sub bio_noise [] cleaned in
    clean_field_labels cleaned.

End FieldExtractors.

(** ** Integers as Python reads and prints them *)

Module PyInt.

Definition digit_value (c : ascii) : Z := Z.of_nat (Py.code c - 48).

(** The digits of [int(s)] after the sign: decimal digits, single
    underscores allowed between two digits.  [after_digit] tells whether the
    previous character was a digit. *)
Fixpoint digits (s : str) (acc : Z) (after_digit : bool) : option Z :=
  match s with
  | [] => if after_digit then Some acc else None
  | c :: s' =>
      if Py.is_digit c then digits s' (10 * acc + digit_value c)%Z true
      else if Ascii.eqb c "_" && after_digit then digits s' acc false
      else None
  end.

(** [int(s)]: [None] stands for ValueError. *)
Definition int (s : str) : option Z :=
  match Py.strip s with
  | c :: rest =>
      if Ascii.eqb c "-" then option_map Z.opp (digits rest 0%Z false)
      else if Ascii.eqb c "+" then digits rest 0%Z false
      else digits (c :: rest) 0%Z false
  | [] => None
  end.

Definition digit_char (d : Z) : ascii := Py.chr (48 + Z.to_nat d).

(** The decimal digits of [n >= 0] before [acc], most significant first;
    [fuel] bounds their number. *)
Fixpoint digits_of (fuel : nat) (n : Z) (acc : str) : str :=
  match fuel with
  | O => acc
  | S f =>
      let acc' := digit_char (n mod 10) :: acc in
      if (n <? 10)%Z then acc' else digits_of f (n / 10) acc'
  end.

(** [str(z)]; a number has no more decimal than binary digits. *)
Definition to_str (z : Z) : str :=
  let n := Z.abs z in
  let ds := digits_of (S (Z.to_nat (Z.log2 n))) n [] in
  if (z <? 0)%Z then "-"%char :: ds else ds.

(** The two decimal digits of a number below 100. *)
Definition two_digits (n : Z) : str := [digit_char (n / 10); digit_char (n mod 10)].

End PyInt.

(** ** URL builder ([class URLBuilder]) *)

Module URLBuilder.

(** The two-year range of the season-range formats:
    [f"{year}-{str(year + 1)[-2:]}"]. *)
Definition season_range (year : Z) : str :=
  PyInt.to_str year ++ "-" ++ Py.last_n 2 (PyInt.to_str (year + 1)).

(** The year of the clemson_roster and kentucky_season formats. *)
Definition end_year (season : str) : str :=
  if Py.contains "-" season then
    let year := nth 1 (Py.split "-" season) [] in
    if length year =? 2 then "20" ++ year else year
  else season.

Definition build_roster_url (base_url season url_format : str) : str :=
  let base_url := Py.rstrip_char "/" base_url in
  if Py.contains "/roster/" base_url then base_url
  else if Py.eqb url_format "default" then
    base_url ++ "/roster/" ++ season
  else if Py.eqb url_format "wsoc_index" then
    if Py.contains "/index" base_url
    then Py.replace "/index" ("/roster/" ++ season) base_url
    else base_url ++ "/roster/" ++ season
  else if Py.eqb url_format "wsoc_plain" then
    base_url ++ "/roster/" ++ season
  else if Py.eqb url_format "ucf_table" then
    base_url ++ "/roster/season/" ++ season ++ "?view=table"
  else if Py.eqb url_format "virginia_season" then
    match PyInt.int season with
    | Some year => base_url ++ "/roster/season/" ++ season_range year ++ "/"
    | None => base_url ++ "/roster/season/" ++ season ++ "/"
    end
  else if Py.eqb url_format "clemson_roster" then
    base_url ++ "/roster/season/" ++ end_year season ++ "/?view=table"
  else if Py.eqb url_format "kentucky_season" then
    base_url ++ "/roster/season/" ++ end_year season ++ "/"
  else if Py.eqb url_format "wsoc_season_range" then
    let clean_url := Py.replace "/index" [] base_url in
    match PyInt.int season with
    | Some year => clean_url ++ "/" ++ season_range year ++ "/roster"
    | None => clean_url ++ "/" ++ season ++ "/roster"
    end
  else base_url ++ "/roster/" ++ season.

End URLBuilder.

(** ** Team configuration ([class TeamConfig]) *)

Module TeamConfig.

Record config : Type := mkConfig {
  url_format : string;
  requires_js : bool
}.

Definition TEAM_CONFIGS : list (Z * config) :=
  [ (14, mkConfig "default" false);
    (72, mkConfig "default" true);
    (74, mkConfig "wsoc_season_range" false);
    (128, mkConfig "ucf_table" true);
    (147, mkConfig "clemson_roster" false);
    (216, mkConfig "wsoc_season_range" false);
    (248, mkConfig "default" true);
    (334, mkConfig "kentucky_season" true);
    (513, mkConfig "virginia_season" true);
    (648, mkConfig "kentucky_season" true);
    (1023, mkConfig "wsoc_season_range" false);
    (457, mkConfig "default" false);
    (523, mkConfig "ucf_table" true);
    (539, mkConfig "ucf_table" true);
    (630, mkConfig "ucf_table" true);
    (674, mkConfig "ucf_table" true);
    (742, mkConfig "ucf_table" true);
    (746, mkConfig "virginia_season" false);
    (813, mkConfig "default" false);
    (1000, mkConfig "wsoc_season_range" false);
    (1356, mkConfig "ucf_table" true);
    (186, mkConfig "wsoc_season_range" true);
    (8956, mkConfig "wsoc_season_range" false);
    (28, mkConfig "default" true);
    (37, mkConfig "kentucky_season" true);
    (52, mkConfig "default" true);
    (136, mkConfig "default" true);
    (140, mkConfig "default" true);
    (178, mkConfig "default" true);
    (312, mkConfig "default" true);
    (314, mkConfig "default" true);
    (415, mkConfig "virginia_season" true);
    (432, mkConfig "default" true);
    (473, mkConfig "virginia_season" true);
    (559, mkConfig "kentucky_season" true);
    (603, mkConfig "default" true);
    (620, mkConfig "default" true);
    (626, mkConfig "kentucky_season" true);
    (699, mkConfig "default" true);
    (731, mkConfig "default" true);
    (794, mkConfig "default" true);
    (811, mkConfig "default" true);
    (1104, mkConfig "default" true);
    (1395, mkConfig "default" true);
    (2707, mkConfig "default" true);
    (11504, mkConfig "default" true);
    (30135, mkConfig "default" true) ]%Z.

Fixpoint find_config (team_id : Z) (table : list (Z * config)) : option config :=
  match table with
  | [] => None
  | (k, c) :: rest => if (k =? team_id)%Z then Some c else find_config team_id rest
  end.

Definition get_url_format (team_id : Z) (team_url : str) : str :=
  match find_config team_id TEAM_CONFIGS with
  | Some c => url_format c
  | None =>
      if Py.truthy team_url then
        if Py.contains "/sports/wsoc/index" team_url || Py.contains "/Sports/wsoc" team_url
        then "wsoc_index"
        else if Py.contains "/sports/wsoc" team_url then "wsoc_plain"
        else if Py.contains "/sports/womens-soccer" team_url
                || Py.contains "/sports/w-soccer" team_url then "default"
        else "default"
      else "default"
  end.

End TeamConfig.

(** ** Parsed pages: the part of BeautifulSoup the scraper uses *)

Module Soup.

Inductive node : Type :=
| Text (s : str)
| Elem (tag : str) (attrs : list (str * str)) (kids : list node).

(** [node.get_text()]: the text of the subtree, in document order. *)
Fixpoint get_text (n : node) : str :=
  match n with
  | Text s => s
  | Elem _ _ kids => flat_map get_text kids
  end.

(** The elements and texts below a node, in document order. *)
Fixpoint descendants (n : node) : list node :=
  match n with
  | Text _ => []
  | Elem _ _ kids => flat_map (fun k => k :: descendants k) kids
  end.

(** [node.get(key)] *)
Fixpoint assoc (key : str) (attrs : list (str * str)) : option str :=
  match attrs with
  | [] => None
  | (k, v) :: rest => if Py.eqb k key then Some v else assoc key rest
  end.

Definition attr (key : str) (n : node) : option str :=
  match n with
  | Text _ => None
  | Elem _ a _ => assoc key a
  end.

(** The whitespace-separated words of an attribute value. *)
Fixpoint words_go (s : str) (cur : str) : list str :=
  match s with
  | [] => match cur with [] => [] | _ :: _ => [rev cur] end
  | c :: s' =>
      if Py.is_space c
      then match cur with [] => words_go s' [] | _ :: _ => rev cur :: words_go s' [] end
      else words_go s' (c :: cur)
  end.

Definition words (s : str) : list str := words_go s [].

(** [node.get('class', [])] *)
Definition classes (n : node) : list str :=
  match attr "class" n with
  | Some v => words v
  | None => []
  end.

Definition has_class (c : str) (n : node) : bool :=
  existsb (Py.eqb c) (classes n).

Definition is_tag (t : str) (n : node) : bool :=
  match n with
  | Text _ => false
  | Elem tag _ _ => Py.eqb tag t
  end.

Definition has_attr (key : str) (n : node) : bool :=
  match attr key n with Some _ => true | None => false end.

(** [node.find_all(tag)] *)
Definition find_all_tag (t : str) (n : node) : list node :=
  filter (is_tag t) (descendants n).

(** [node.find_all([t1, t2])] *)
Definition find_all_tags (ts : list string) (n : node) : list node :=
  filter (fun d => existsb (fun t : string => is_tag t d) ts) (descendants n).

(** [node.find_all(tag, class_=c)] *)
Definition find_all (t c : str) (n : node) : list node :=
  filter (fun d => is_tag t d && has_class c d) (descendants n).

(** [node.find(tag, class_=c)] *)
Definition find (t c : str) (n : node) : option node := hd_error (find_all t c n).

(** [node.find(tag)] *)
Definition find_tag (t : str) (n : node) : option node := hd_error (find_all_tag t n).

(** [node.find(tag, key=True)] *)
Definition find_with_attr (t key : str) (n : node) : option node :=
  hd_error (filter (fun d => is_tag t d && has_attr key d) (descendants n)).

(** The elements below a node, each with its nearest enclosing [div]
    ([el.find_parent('div')]); [up] is the nearest [div] at or above [n]. *)
Fixpoint with_parent_div (up : option node) (n : node) : list (node * option node) :=
  match n with
  | Text _ => []
  | Elem tag _ kids =>
      let here := if Py.eqb tag "div" then Some n else up in
      flat_map (fun k => (k, here) :: with_parent_div here k) kids
  end.

End Soup.

(** ** Records *)

Record Player : Type := mkPlayer {
  team_id : Z;
  team : str;
  season : str;
  division : str;
  player_id : option str;
  name : str;
  jersey : str;
  position : str;
  height : str;
  year : str;
  major : str;
  hometown : str;
  high_school : str;
  previous_school : str;
  url : str
}.

Definition set_position (p : Player) (pos : str) : Player :=
  mkPlayer (team_id p) (team p) (season p) (division p) (player_id p) (name p)
    (jersey p) pos (height p) (year p) (major p) (hometown p) (high_school p)
    (previous_school p) (url p).

(** ** Layout extractors of [class StandardScraper] *)

Module Extractors.

Import Soup FieldExtractors.

Section WithDomain.

(** The host name that [tldextract] derives from the team's base URL
    (subdomain, registered domain and public suffix): it reads the public
    suffix list, which is data outside the program. *)
Variable domain_of : str -> str.

(** The extractors of the other layout families, which
    [_extract_players] calls when the page has no
    [li.sidearm-roster-player] item. *)
Variable other_layouts : node -> Z -> str -> str -> str -> str -> list Player.

(** The absolute profile URL built from a link's [href]. *)
Definition profile_url_of (base_url href : str) : str :=
  if Py.startswith "http" href then href
  else if Py.startswith "/" href then "https://" ++ domain_of base_url ++ href
  else "https://" ++ domain_of base_url ++ "/" ++ href.

(** [f(elem.get_text()) if elem else ''] *)
Definition text_via (f : str -> str) (elem : option node) : str :=
  match elem with
  | Some e => f (get_text e)
  | None => []
  end.

(** [a or b] on two lookups. *)
Definition or_else (a b : option node) : option node :=
  match a with
  | Some _ => a
  | None => b
  end.

(** [' '.join(el.get('class', [])).lower()] names a position field. *)
Definition position_like_class (n : node) : bool :=
  let cls := Py.lower (Py.join " " (classes n)) in
  Py.contains "position" cls || Py.contains "pos" cls.

(** The loops over all spans, then all divs, of an item: the first
    position-like element whose text gives a position decides. *)
Fixpoint first_position (elems : list node) : str :=
  match elems with
  | [] => []
  | e :: rest =>
      if position_like_class e then
        let position := extract_position (get_text e) in
        if Py.truthy position then position else first_position rest
      else first_position rest
  end.

(** One [li.sidearm-roster-player] item of the main loop of
    [_extract_players]; [None] is the [continue] of an item with no
    heading. *)
Definition sidearm_player (team_id : Z) (team_name season division base_url : str)
    (item : node) : option Player :=
  let jersey := text_via clean_text (find "span" "sidearm-roster-player-jersey-number" item) in
  match or_else (find_tag "h3" item) (find_tag "h2" item) with
  | None => None
  | Some name_elem =>
      let '(name, profile_url) :=
        match find_with_attr "a" "href" name_elem with
        | Some name_link =>
            (clean_text (get_text name_link),
             profile_url_of base_url
               (match attr "href" name_link with Some h => h | None => [] end))
        | None => (clean_text (get_text name_elem), [])
        end in
      let pos_elem :=
        match find "span" "sidearm-roster-player-position-long-short" item with
        | Some e => Some e
        | None =>
            match find "div" "sidearm-roster-player-position" item with
            | Some pos_div => find "span" "text-bold" pos_div
            | None => None
            end
        end in
      let position :=
        match pos_elem with
        | Some e => extract_position (get_text e)
        | None =>
            let position := first_position (find_all_tag "span" item) in
            if Py.truthy position then position
            else first_position (find_all_tag "div" item)
        end in
      let height := text_via extract_height (find "span" "sidearm-roster-player-height" item) in
      let year :=
        text_via normalize_academic_year (find "span" "sidearm-roster-player-academic-year" item) in
      let major := text_via clean_text (find "span" "sidearm-roster-player-major" item) in
      let hometown :=
        text_via clean_text
          (or_else (find "span" "sidearm-roster-player-hometown" item)
                   (find "span" "sidearm-roster-player-custom2" item)) in
      let high_school :=
        text_via clean_text
          (or_else (find "span" "sidearm-roster-player-highschool" item)
                   (find "span" "sidearm-roster-player-custom3" item)) in
      let previous_school :=
        text_via clean_text
          (or_else (find "span" "sidearm-roster-player-previous-school" item)
                   (find "span" "sidearm-roster-player-custom1" item)) in
      Some (mkPlayer team_id team_name season division None name jersey position
              height year major hometown high_school previous_school profile_url)
  end.

(** Appending the players of the items that were not skipped. *)
Fixpoint collect {A : Type} (f : A -> option Player) (items : list A) : list Player :=
  match items with
  | [] => []
  | x :: rest =>
      match f x with
      | Some p => p :: collect f rest
      | None => collect f rest
      end
  end.

Definition _extract_players (html : node) (team_id : Z)
    (team_name season division base_url : str) : list Player :=
  match find_all "li" "sidearm-roster-player" html with
  | [] => other_layouts html team_id team_name season division base_url
  | roster_items =>
      collect (sidearm_player team_id team_name season division base_url) roster_items
  end.

(** *** The table with id [players-table...] *)

(** The field a header cell names, by the chain of tests on its text. *)
Definition header_field (htext : str) : option string :=
  if Py.contains "number" htext || Py.contains "no" htext || Py.contains "#" htext
  then Some "jersey"
  else if Py.contains "name" htext then Some "name"
  else if Py.contains "position" htext || Py.contains "pos" htext then Some "position"
  else if Py.contains "height" htext || Py.contains "ht" htext then Some "height"
  else if Py.contains "class" htext || Py.contains "yr" htext || Py.contains "year" htext
  then Some "year"
  else if Py.contains "hometown" htext || Py.contains "home" htext then Some "hometown"
  else if Py.contains "high" htext && Py.contains "school" htext then Some "high_school"
  else if Py.contains "previous" htext then Some "previous_school"
  else None.

(** [header_map[key] = i] *)
Fixpoint set_key (key : string) (i : nat) (m : list (string * nat)) : list (string * nat) :=
  match m with
  | [] => [(key, i)]
  | (k, v) :: rest =>
      if String.eqb k key then (k, i) :: rest else (k, v) :: set_key key i rest
  end.

Fixpoint get_key (key : string) (m : list (string * nat)) : option nat :=
  match m with
  | [] => None
  | (k, v) :: rest => if String.eqb k key then Some v else get_key key rest
  end.

(** The loop [for i, th in enumerate(headers)]. *)
Fixpoint header_map_from (headers : list node) (i : nat) (m : list (string * nat))
  : list (string * nat) :=
  match headers with
  | [] => m
  | th :: rest =>
      let htext := Py.lower (Py.strip (get_text th)) in
      match header_field htext with
      | Some key => header_map_from rest (S i) (set_key key i m)
      | None => header_map_from rest (S i) m
      end
  end.

(** [cells[header_map[key]]] when the key is mapped and in range. *)
Definition cell_of (key : string) (header_map : list (string * nat)) (cells : list node)
  : option node :=
  match get_key key header_map with
  | Some i => nth_error cells i
  | None => None
  end.

Definition kentucky_row (header_map : list (string * nat)) (team_id : Z)
    (team_name season division base_url : str) (row : node) : option Player :=
  let cells := find_all_tags ["td"; "th"] row in
  if length cells <? 2 then None
  else
    let '(name, profile_url) :=
      match cell_of "name" header_map cells with
      | Some name_cell =>
          match find_with_attr "a" "href" name_cell with
          | Some link =>
              (clean_text (get_text link),
               profile_url_of base_url
                 (match attr "href" link with Some h => h | None => [] end))
          | None => (clean_text (get_text name_cell), [])
          end
      | None => ([], [])
      end in
    if negb (Py.truthy name) then None
    else
      let jersey := text_via clean_text (cell_of "jersey" header_map cells) in
      let position := text_via extract_position (cell_of "position" header_map cells) in
      let height := text_via extract_height (cell_of "height" header_map cells) in
      let year :=
        text_via (fun t => normalize_academic_year (Py.strip t))
          (cell_of "year" header_map cells) in
      let hometown := text_via clean_text (cell_of "hometown" header_map cells) in
      let high_school := text_via clean_text (cell_of "high_school" header_map cells) in
      let previous_school :=
        text_via clean_text (cell_of "previous_school" header_map cells) in
      Some (mkPlayer team_id team_name season division None name jersey position
              height year [] hometown high_school previous_school profile_url).

Definition _extract_players_from_kentucky_table (html : node) (team_id : Z)
    (team_name season division base_url : str) : list Player :=
  let tables :=
    filter
      (fun d => is_tag "table" d &&
                match attr "id" d with
                | Some v => Py.startswith "players-table" v
                | None => false
                end)
      (descendants html) in
  match tables with
  | [] => []
  | table :: _ =>
      let headers :=
        match find_tag "thead" table with
        | Some thead => find_all_tag "th" thead
        | None => find_all_tag "th" table
        end in
      let header_map := header_map_from headers 0 [] in
      let rows :=
        match find_tag "tbody" table with
        | Some tbody => find_all_tag "tr" tbody
        | None => tl (find_all_tag "tr" table)
        end in
      collect (kentucky_row header_map team_id team_name season division base_url) rows
  end.

(** *** The card grid of [div.s-person-card] *)

(** The loop over the bio statistics of a card: position, year, height. *)
Definition bio_stat (acc : str * str * str) (stat : node) : str * str * str :=
  let '(position, year, height) := acc in
  let stat_text := Py.strip (get_text stat) in
  if Py.startswith "Position" stat_text then
    (extract_position (Py.strip (Py.replace "Position" [] stat_text)), year, height)
  else if Py.startswith "Academic Year" stat_text then
    (position,
     normalize_academic_year (Py.strip (Py.replace "Academic Year" [] stat_text)),
     height)
  else if Py.startswith "Height" stat_text then
    (position, year, extract_height (Py.strip (Py.replace "Height" [] stat_text)))
  else acc.

(** The loop over the location items of a card: hometown, high school. *)
Definition location_item (acc : str * str) (item : node) : str * str :=
  let '(hometown, high_school) := acc in
  let item_text := Py.strip (get_text item) in
  if Py.startswith "Hometown" item_text then
    (Py.strip (Py.replace "Hometown" [] item_text), high_school)
  else if Py.startswith "Last School" item_text then
    (hometown, Py.strip (Py.replace "Last School" [] item_text))
  else acc.

Definition person_card (team_id : Z) (team_name season division base_url : str)
    (card : node) : option Player :=
  let name := text_via clean_text (find "div" "s-person-details__personal-single-line" card) in
  let jersey :=
    match find "div" "s-person-details__thumbnail" card with
    | Some thumbnail =>
        let thumbnail_text := get_text thumbnail in
        if Py.contains "Jersey Number" thumbnail_text
        then Py.strip (Py.replace "Jersey Number" [] thumbnail_text)
        else []
    | None => []
    end in
  let '(position, year, height) :=
    fold_left bio_stat (find_all "span" "s-person-details__bio-stats-item" card)
      ([], [], []) in
  let '(hometown, high_school) :=
    fold_left location_item
      (find_all "span" "s-person-card__content__person__location-item" card) ([], []) in
  let profile_url :=
    match find_with_attr "a" "href" card with
    | Some cta_link =>
        profile_url_of base_url
          (match attr "href" cta_link with Some h => h | None => [] end)
    | None => []
    end in
  if negb (Py.truthy name) || negb (Py.truthy jersey) then None
  else
    Some (mkPlayer team_id team_name season division None name jersey position
            height year [] hometown high_school [] profile_url).

Definition _extract_players_from_cards (html : node) (team_id : Z)
    (team_name season division base_url : str) : list Player :=
  collect (person_card team_id team_name season division base_url)
    (find_all "div" "s-person-card" html).

End WithDomain.

End Extractors.

(** ** Two pages used as examples *)

Module Pages.

Import Soup.

(** A staff card: a name and a profile link, no jersey badge. *)
Definition staff_card : node :=
  Elem "div" [("class" : str, "s-person-card" : str)]
    [ Elem "div" [("class" : str, "s-person-details__personal-single-line" : str)]
        [Text "Jane Doe"];
      Elem "a" [("href" : str, "/staff/jane-doe" : str)] [Text "Full Bio"] ].

(** A roster item whose heading link wraps no text (a picture only). *)
Definition item_with_blank_name : node :=
  Elem "li" [("class" : str, "sidearm-roster-player" : str)]
    [ Elem "span" [("class" : str, "sidearm-roster-player-jersey-number" : str)]
        [Text "7"];
      Elem "h3" [] [Elem "a" [("href" : str, "/roster/jane-doe" : str)] []] ].

End Pages.

(** ** Result validator ([JSScraper._validate_players]) *)

Module Validator.

(** [sum(1 for p in players if field(p))] *)
Definition count_with (field : Player -> str) (players : list Player) : nat :=
  length (filter (fun p => Py.truthy (field p)) players).

(** [count / total * 100 < pct], read over the rationals. *)
Definition coverage_below (count total pct : nat) : bool :=
  count * 100 <? pct * total.

(** [count / total * 100 >= pct], read over the rationals. *)
Definition coverage_at_least (count total pct : nat) : bool :=
  pct * total <=? count * 100.

Definition _validate_players (players : list Player) : bool :=
  match players with
  | [] => false
  | _ :: _ =>
      let total := length players in
      let name_count := count_with name players in
      let jersey_count := count_with jersey players in
      let position_count := count_with position players in
      let year_count := count_with year players in
      if coverage_below name_count total 80 then false
      else if coverage_below jersey_count total 80
              && negb ((15 <=? total) && coverage_at_least jersey_count total 50)
      then false
      else if coverage_below position_count total 70
              || coverage_below year_count total 70
      then
        if (15 <=? total)
           && (coverage_at_least position_count total 50
               || coverage_at_least year_count total 50)
        then true
        else if (15 <=? total) && coverage_at_least name_count total 80
                && coverage_at_least jersey_count total 50
        then true
        else false
      else true
  end.

(** The same computation on binary64 floats, as Python evaluates
    [count / total * 100]. *)
Definition coverage_float (count total : nat) : float :=
  (PrimFloat.of_uint63 (Uint63.of_nat count)
   / PrimFloat.of_uint63 (Uint63.of_nat total) * 100)%float.

Definition float_below (count total : nat) (pct : float) : bool :=
  PrimFloat.ltb (coverage_float count total) pct.

Definition float_at_least (count total : nat) (pct : float) : bool :=
  PrimFloat.leb pct (coverage_float count total).

(** [_validate_players] with every comparison made on floats. *)
Definition _validate_players_float (players : list Player) : bool :=
  match players with
  | [] => false
  | _ :: _ =>
      let total := length players in
      let name_count := count_with name players in
      let jersey_count := count_with jersey players in
      let position_count := count_with position players in
      let year_count := count_with year players in
      if float_below name_count total 80 then false
      else if float_below jersey_count total 80
              && negb ((15 <=? total) && float_at_least jersey_count total 50)
      then false
      else if float_below position_count total 70
              || float_below year_count total 70
      then
        if (15 <=? total)
           && (float_at_least position_count total 50
               || float_at_least year_count total 50)
        then true
        else if (15 <=? total) && float_at_least name_count total 80
                && float_at_least jersey_count total 50
        then true
        else false
      else true
  end.

(** The float and the rational comparisons agree for [count] of [total]. *)
Definition thresholds_agree (count total : nat) : bool :=
  Bool.eqb (float_below count total 80) (coverage_below count total 80)
  && Bool.eqb (float_below count total 70) (coverage_below count total 70)
  && Bool.eqb (float_at_least count total 80) (coverage_at_least count total 80)
  && Bool.eqb (float_at_least count total 50) (coverage_at_least count total 50).

Definition agree_up_to (n : nat) : bool :=
  forallb (fun total => forallb (fun count => thresholds_agree count total)
                          (seq 0 (S total)))
          (seq 1 n).

(** The acceptance rule as section 4.4 of the specification words it. *)
Definition spec_accepts (players : list Player) : Prop :=
  let total := length players in
  let pct (field : Player -> str) (p : nat) := p * total <= count_with field players * 100 in
  players <> [] /\
  pct name 80 /\
  (pct jersey 80 \/ (15 <= total /\ pct jersey 50)) /\
  ((pct position 70 /\ pct year 70)
   \/ (15 <= total /\ pct position 50 /\ pct year 50)
   \/ (15 <= total /\ pct name 80 /\ pct jersey 50)).

End Validator.

(** ** The fetch ladder and the bio-page enrichment of
       [StandardScraper.scrape_team] *)

Module StandardScraper.

Import Soup.

Record response : Type := mkResponse {
  status_code : Z;
  page : node
}.

Section WithTransport.

(** [session.get]: the answer to a request may depend on the requests made
    before it; [None] is a raised [requests.RequestException]. *)
Variable http_get : list str -> str -> option response.

(** [_extract_players], and the enrichment that is run for team 334 only. *)
Variable _extract_players : node -> Z -> str -> str -> str -> str -> list Player.

Variable _enhance_kentucky_player_data : list Player -> list str -> list Player * list str.

(** A computation that makes requests: it takes the log of the requests
    made so far and returns the new log, with [None] for an exception that
    reaches the handler of [scrape_team]. *)
Definition M (A : Type) : Type := list str -> option A * list str.

Definition ret {A : Type} (a : A) : M A := fun log => (Some a, log).

Definition bind {A B : Type} (m : M A) (k : A -> M B) : M B :=
  fun log =>
    match m log with
    | (Some a, log') => k a log'
    | (None, log') => (None, log')
    end.

Definition get (u : str) : M response :=
  fun log => (http_get log u, log ++ [u]).

Notation "x <- m ;; k" := (bind m (fun x => k))
  (at level 61, m at next level, right associativity).

Notation "' p <- m ;; k" := (bind m (fun x => let p := x in k))
  (at level 61, p pattern, m at next level, right associativity).

Definition _build_season_range_url (base_url season : str) : str :=
  let base_url := Py.rstrip_char "/" base_url in
  let base_url :=
    if Py.endswith "/index" base_url then Py.drop_last 6 base_url else base_url in
  match PyInt.int season with
  | Some year => base_url ++ "/" ++ URLBuilder.season_range year ++ "/roster"
  | None => base_url ++ "/" ++ season ++ "/roster"
  end.

Definition no_season_url (base_url : str) : str :=
  Py.rstrip_char "/" base_url ++ "/roster/".

(** The requests for the roster page, on the three URLs that
    [scrape_team] computes and the extractor it runs on a page: the primary
    request, the season-range alternate after a 404, the URL without
    season after any status but 200, and the URL without season once more
    when a page gave no player.  [None] is the early [return []] after a
    last status other than 200; otherwise the players found so far. *)
Definition ladder (roster_url alternative_url no_season_url : str)
    (extract : node -> list Player) : M (option (list Player)) :=
  response <- get roster_url ;;
  ' (response, roster_url) <-
    (if (status_code response =? 404)%Z then
       if negb (Py.eqb alternative_url roster_url)
       then (r <- get alternative_url ;; ret (r, alternative_url))
       else ret (response, roster_url)
     else ret (response, roster_url)) ;;
  ' (response, roster_url) <-
    (if negb (status_code response =? 200)%Z then
       if negb (Py.eqb no_season_url roster_url)
       then (r <- get no_season_url ;; ret (r, no_season_url))
       else ret (response, roster_url)
     else ret (response, roster_url)) ;;
  if negb (status_code response =? 200)%Z then ret None
  else
    let players := extract (page response) in
    if (length players =? 0) && negb (Py.endswith "/roster/" roster_url) then
      if negb (Py.eqb no_season_url roster_url) then
        r <- get no_season_url ;;
        if (status_code r =? 200)%Z
        then ret (Some (extract (page r)))
        else ret (Some players)
      else ret (Some players)
    else ret (Some players).

(** The primary URL of a team. *)
Definition primary_url (team_id : Z) (base_url season : str) : str :=
  URLBuilder.build_roster_url base_url season (TeamConfig.get_url_format team_id base_url).

(** The roster-page part of [scrape_team]. *)
Definition fetch_roster (team_id : Z) (team_name base_url season division : str)
  : M (option (list Player)) :=
  ladder (primary_url team_id base_url season)
    (_build_season_range_url base_url season)
    (no_season_url base_url)
    (fun html => _extract_players html team_id team_name season division base_url).

(** [sum(1 for p in players if not p.position and p.url)] *)
Definition missing_positions (players : list Player) : nat :=
  length (filter (fun p => negb (Py.truthy (position p)) && Py.truthy (url p)) players).

(** [missing_positions > 0 and len(players) > 0] and
    [missing_positions / len(players) > 0.2], the ratio read over the
    rationals. *)
Definition needs_bio_positions (players : list Player) : bool :=
  (0 <? missing_positions players) && (0 <? length players)
  && (length players <? 5 * missing_positions players).

(** The value span paired with a label: the first span of the enclosing
    [div] that does not carry the label class. *)
Definition value_span (parent : node) : option node :=
  hd_error
    (filter (fun span => negb (has_class "sidearm-roster-player-field-label" span))
       (find_all_tag "span" parent)).

(** The loop over the labels of a bio page, from the current position. *)
Fixpoint position_from_labels (labels : list (node * option node)) (position : str) : str :=
  match labels with
  | [] => position
  | (label, parent) :: rest =>
      let label_text := Py.lower (Py.strip (get_text label)) in
      if Py.contains "position" label_text then
        let position :=
          match parent with
          | Some div =>
              match value_span div with
              | Some span => FieldExtractors.extract_position (Py.strip (get_text span))
              | None => position
              end
          | None => position
          end in
        if Py.truthy position then position else position_from_labels rest position
      else position_from_labels rest position
  end.

Definition bio_labels (bio_html : node) : list (node * option node) :=
  filter
    (fun lp => is_tag "span" (fst lp) && has_class "sidearm-roster-player-field-label" (fst lp))
    (with_parent_div None bio_html).

(** One turn of the loop of [_enhance_sidearm_positions_from_bios]. *)
Definition enhance_player (player : Player) (log : list str) : Player * list str :=
  if Py.truthy (position player) || negb (Py.truthy (url player)) then (player, log)
  else
    match get (url player) log with
    | (None, log') => (player, log')
    | (Some response, log') =>
        if negb (status_code response =? 200)%Z then (player, log')
        else
          (set_position player
             (position_from_labels (bio_labels (page response)) (position player)),
           log')
    end.

Fixpoint enhance_loop (players : list Player) (log : list str) : list Player * list str :=
  match players with
  | [] => ([], log)
  | player :: rest =>
      let '(player', log') := enhance_player player log in
      let '(rest', log'') := enhance_loop rest log' in
      (player' :: rest', log'')
  end.

Definition _enhance_sidearm_positions_from_bios (players : list Player) (log : list str)
  : list Player * list str :=
  match players with
  | [] => (players, log)
  | _ :: _ =>
      if length (filter (fun p => negb (Py.truthy (position p))) players) =? 0
      then (players, log)
      else enhance_loop players log
  end.

(** [q] is the record [p] with, at most, its empty position filled in. *)
Definition enriched (p q : Player) : Prop :=
  q = set_position p (position q) /\
  (Py.truthy (position p) = true \/ Py.truthy (url p) = false -> q = p).

(** The request for the bio page of a player fails: it raises, or the
    status is not 200. *)
Definition bio_fetch_fails (log : list str) (p : Player) : Prop :=
  http_get log (url p) = None \/
  exists r, http_get log (url p) = Some r /\ status_code r <> 200%Z.

(** [scrape_team]: the roster ladder, then the two enrichments; an
    exception gives the empty list. *)
Definition scrape_team (team_id : Z) (team_name base_url season division : str)
    (log : list str) : list Player * list str :=
  match fetch_roster team_id team_name base_url season division log with
  | (None, log') => ([], log')
  | (Some None, log') => ([], log')
  | (Some (Some players), log') =>
      let '(players, log') :=
        if (team_id =? 334)%Z then _enhance_kentucky_player_data players log'
        else (players, log') in
      if needs_bio_positions players
      then _enhance_sidearm_positions_from_bios players log'
      else (players, log')
  end.

End WithTransport.

End StandardScraper.

(** ** Two transports used as examples *)

Module Transports.

Import Soup StandardScraper.

(** A site that answers every request with the given status and an empty
    page. *)
Definition always (status : Z) : list str -> str -> option response :=
  fun _ _ => Some (mkResponse status (Text [])).

(** An extractor that finds no player. *)
Definition no_players : node -> Z -> str -> str -> str -> str -> list Player :=
  fun _ _ _ _ _ _ => [].

End Transports.

(** ** Notions used to state properties of texts *)

(** [m] is a part of [s]: some text, then [m], then some text. *)
Definition infix (m s : str) : Prop := exists a b, s = a ++ m ++ b.

(** The first character, if any, is not in the class [p]. *)
Definition head_kept (p : ascii -> bool) (s : str) : bool :=
  match s with
  | [] => true
  | c :: _ => negb (p c)
  end.

(** A text with no blank at either end. *)
Definition trimmed (s : str) : Prop := Py.strip s = s.

(** ** Patterns with one group between a prefix and a suffix *)

Module ReGroup.

Import Re.

(** A pattern [pre(grp)post]: the pairs (start of the group, end of the
    group) of the ways to match the whole pattern, in backtracking order. *)
Definition ends_group_post (pre grp post : re) (prev : option ascii) (s : str)
  : list (nat * nat) :=
  flat_map
    (fun a =>
       flat_map
         (fun m =>
            match ends post (prev_after prev s (a + m)) (skipn (a + m) s) with
            | [] => []
            | _ :: _ => [(a, a + m)]
            end)
         (ends grp (prev_after prev s a) (skipn a s)))
    (ends pre prev s).

(** [m.group(1)] of [re.search] for the pattern [pre(grp)post]. *)
Definition search_group_post (pre grp post : re) (s : str) : option str :=
  match scan (fun prev t => hd_error (ends_group_post pre grp post prev t)) None s 0 with
  | Some (i, (a, b)) => Some (slice s (i + a) (b - a))
  | None => None
  end.

(** Every character that a match consumes is in the class [q]. *)
Fixpoint all_in (q : ascii -> bool) (r : re) : bool :=
  match r with
  | Eps | WordB | Bol | Eol | Ahead _ => true
  | Chr p => subclass p q
  | Seq r1 r2 | Alt r1 r2 => all_in q r1 && all_in q r2
  | Star r1 => all_in q r1
  end.

End ReGroup.

(** ** [FieldExtractors.extract_jersey_number] *)

Module Jersey.

Import Re ReGroup FieldExtractors.

(** [:\s] *)
Definition colon_or_space : re :=
  Chr (fun c => Ascii.eqb c ":" || Py.is_space c).

(** [A-Z] *)
Definition capital : re := Chr Py.is_upper.

(** The patterns of [extract_jersey_number], each as (what precedes
    group 1, group 1, what follows it):
    Jersey Number[:\s]+(\d+),  #(\d{1,2})\b,  No\.?[:\s]*(\d{1,2})\b,
    \b(\d{1,2})\s+(?=[A-Z]),  ^\s*(\d{1,2})\s*$. *)
Definition jersey_patterns : list (re * re * re) :=
  [ (Seq (lit "Jersey Number") (Plus colon_or_space), Plus digit, Eps);
    (chr_is "#", Rep12 digit, WordB);
    (seqs [lit "No"; Opt (chr_is "."); Star colon_or_space], Rep12 digit, WordB);
    (WordB, Rep12 digit, Seq (Plus space) (Ahead capital));
    (Seq Bol (Star space), Rep12 digit, Seq (Star space) Eol) ].

(** The label of the first pattern. *)
Definition label : str := "Jersey Number".

(** The loop over the patterns: the first that matches gives group 1. *)
Fixpoint first_group_post (pats : list (re * re * re)) (text : str) : option str :=
  match pats with
  | [] => None
  | (pre, grp, post) :: rest =>
      match search_group_post pre grp post text with
      | Some g => Some g
      | None => first_group_post rest text
      end
  end.

Definition extract_jersey_number (text : str) : str :=
  if negb (Py.truthy text) then []
  else
    match first_group_post jersey_patterns text with
    | Some g => g
    | None => []
    end.

End Jersey.

(** A field with no blank at either end and no slash. *)
Definition clean_field (f : str) : Prop := trimmed f /\ ~ In "/"%char f.

(** A class that does not tell a letter from its upper-case form. *)
Definition class_case_blind (p : ascii -> bool) : bool :=
  forallb (fun c => Bool.eqb (p (Py.upper_char c)) (p c)) Re.all_ascii.

(** A pattern made of such classes and of word boundaries: it matches a
    text as it matches the upper-cased text. *)
Fixpoint case_blind (r : Re.re) : bool :=
  match r with
  | Re.Eps | Re.WordB => true
  | Re.Chr p => class_case_blind p
  | Re.Seq r1 r2 | Re.Alt r1 r2 => case_blind r1 && case_blind r2
  | Re.Star r1 => case_blind r1
  | Re.Bol | Re.Eol | Re.Ahead _ => false
  end.

(** The character before a position, upper-cased. *)
Definition up (p : option ascii) : option ascii := option_map Py.upper_char p.

(** The formats that [build_roster_url] tells apart. *)
Definition known_formats : list str :=
  [ "default" : str; "wsoc_index" : str; "wsoc_plain" : str; "ucf_table" : str;
    "virginia_season" : str; "clemson_roster" : str; "kentucky_season" : str;
    "wsoc_season_range" : str ].

(** ** Example records *)

Module Rosters.

(** A record with the four fields that the validator reads. *)
Definition record_with (name jersey position year : str) : Player :=
  mkPlayer 1 [] [] [] None name jersey position [] year [] [] [] [] [].

(** A record with no position and the given profile URL. *)
Definition unplaced (url : str) : Player :=
  mkPlayer 1 [] [] [] None "Jane Doe" "7" [] [] [] [] [] [] [] url.

(** The Kentucky enrichment left out: the records as they are. *)
Definition no_enrichment : list Player -> list str -> list Player * list str :=
  fun players log => (players, log).

End Rosters.

(** The four codes of a known position. *)
Definition field_codes : list str := ["GK" : str; "D" : str; "M" : str; "F" : str].

(** The records that the bio enrichment requests a page for. *)
Definition wants_bio (p : Player) : bool :=
  negb (Py.truthy (position p)) && Py.truthy (url p).

(** ** The scraper for rendered pages *)

Module JSScraper.

Import Soup StandardScraper.

(** A page asked of the renderer, or of the HTTP session. *)
Inductive request : Type :=
  | Rendered (u : str)
  | Fetched (u : str).

Section WithRenderer.

(** [_fetch_html_with_javascript]: the page that the renderer prints, or
    [None] when it fails, times out or is missing; it raises nothing. *)
Variable _fetch_html_with_javascript : list request -> str -> option node.

(** [session.get], with [None] for a raised exception. *)
Variable http_get : list request -> str -> option response.

Variable _extract_players : node -> Z -> str -> str -> str -> str -> list Player.

(** The page of the primary URL: the rendered page, or after a failed
    rendering the page fetched by the session.  [None] is an exception,
    [Some None] the early [return []] after a status other than 200. *)
Definition primary_page (roster_url : str) (log : list request)
  : option (option node) * list request :=
  let log1 := log ++ [Rendered roster_url] in
  match _fetch_html_with_javascript log roster_url with
  | Some html => (Some (Some html), log1)
  | None =>
      let log2 := log1 ++ [Fetched roster_url] in
      match http_get log1 roster_url with
      | None => (None, log2)
      | Some response =>
          if (status_code response =? 200)%Z
          then (Some (Some (page response)), log2)
          else (Some None, log2)
      end
  end.

(** [scrape_team] of the JS scraper.  The season check between the fetch
    and the extraction only writes to the log of the program and is left
    out; the validator and the season-range URL are the ones of the
    standard scraper, whose text the class repeats. *)
Definition scrape_team (team_id : Z) (team_name base_url season division : str)
    (log : list request) : list Player * list request :=
  let url_format := TeamConfig.get_url_format team_id base_url in
  let roster_url := URLBuilder.build_roster_url base_url season url_format in
  match primary_page roster_url log with
  | (None, log') => ([], log')
  | (Some None, log') => ([], log')
  | (Some (Some html), log') =>
      let players := _extract_players html team_id team_name season division base_url in
      if negb (length players =? 0) then (players, log')
      else if negb (Validator._validate_players players) then
        let alternative_url := _build_season_range_url base_url season in
        if negb (Py.eqb alternative_url roster_url) then
          let log'' := log' ++ [Rendered alternative_url] in
          match _fetch_html_with_javascript log' alternative_url with
          | Some html_alt =>
              let players_alt :=
                _extract_players html_alt team_id team_name season division base_url in
              if Validator._validate_players players_alt
              then (players_alt, log'')
              else ([], log'')
          | None => ([], log'')
          end
        else ([], log')
      else (players, log')
  end.

End WithRenderer.

End JSScraper.

(** ** A renderer and an extractor used as examples *)

Module Renderers.

Import Soup JSScraper.

(** A renderer that prints the same page for every URL. *)
Definition prints (html : node) : list request -> str -> option node :=
  fun _ _ => Some html.

(** A session that raises on every request. *)
Definition unreachable : list request -> str -> option StandardScraper.response :=
  fun _ _ => None.

(** The main extractor with a fixed host name and no other layout. *)
Definition sidearm_only : node -> Z -> str -> str -> str -> str -> list Player :=
  Extractors._extract_players (fun _ => "example.edu" : str) Transports.no_players.

End Renderers.

(** ** What a record of an extractor looks like *)

(** A profile URL is empty or absolute. *)
Definition absolute_or_empty (u : str) : Prop :=
  u = [] \/ Py.startswith "http" u = true.

(** The column of a field after the loop over the header cells from index
    [i]: the index of the last cell that names the field, if any. *)
Fixpoint last_header (key : string) (headers : list Soup.node) (i : nat) : option nat :=
  match headers with
  | [] => None
  | th :: rest =>
      match last_header key rest (S i) with
      | Some j => Some j
      | None =>
          match Extractors.header_field (Py.lower (Py.strip (Soup.get_text th))) with
          | Some k => if String.eqb k key then Some i else None
          | None => None
          end
      end
  end.

(** ** The choice of a scraper by team *)

Module ScraperType.

(** [requires_javascript] *)
Definition requires_javascript (team_id : Z) : bool :=
  match TeamConfig.find_config team_id TeamConfig.TEAM_CONFIGS with
  | Some c => TeamConfig.requires_js c
  | None => false
  end.

End ScraperType.

(** ** The batch of teams *)

Module RosterManager.

(** A row of the teams file, as [csv.DictReader] gives it: the columns
    [team] and [url], and the columns that may be missing. *)
Record team_row : Type := mkRow {
  row_team_id : option str;
  row_ncaa_id : option str;
  row_team : str;
  row_url : str;
  row_division : option str
}.

(** The three reports and the players gathered. *)
Record tallies : Type := mkTallies {
  all_players : list Player;
  zero_player_teams : list (str * Z);
  successful_teams : list (str * Z * nat);
  failed_teams : list (str * Z)
}.

Definition no_tallies : tallies := mkTallies [] [] [] [].

(** [teams[:k]] *)
Definition slice_to (k : Z) (teams : list team_row) : list team_row :=
  if (0 <=? k)%Z then firstn (Z.to_nat k) teams
  else firstn (length teams - Z.to_nat (- k)) teams.

(** [teams[:max_teams] if max_teams else teams] *)
Definition teams_to_scrape (teams : list team_row) (max_teams : option Z)
  : list team_row :=
  match max_teams with
  | None => teams
  | Some k => if (k =? 0)%Z then teams else slice_to k teams
  end.

(** [int(team.get('team_id') or team.get('ncaa_id'))]; [None] is the
    TypeError of [int(None)] or the ValueError of a text that is no
    number. *)
Definition team_id_of (row : team_row) : option Z :=
  let text :=
    match row_team_id row with
    | Some (c :: s) => Some (c :: s)
    | _ => row_ncaa_id row
    end in
  match text with
  | Some t => PyInt.int t
  | None => None
  end.

(** [team.get('division', '')] *)
Definition division_of (row : team_row) : str :=
  match row_division row with
  | Some d => d
  | None => []
  end.

Section WithScrapers.

Variable season : str.

(** [scrape_team] of the standard scraper and of a new JS scraper, from
    the team id, the team name, the URL, the season and the division;
    [None] is an exception that reaches the handler of the loop. *)
Variable standard_scrape : Z -> str -> str -> str -> str -> option (list Player).
Variable js_scrape : Z -> str -> str -> str -> str -> option (list Player).

Definition scrape_one (team_id : Z) (row : team_row) : option (list Player) :=
  if ScraperType.requires_javascript team_id
  then js_scrape team_id (row_team row) (row_url row) season (division_of row)
  else standard_scrape team_id (row_team row) (row_url row) season (division_of row).

(** One turn of the loop of [scrape_teams]; [None] is the exception of a
    team id that cannot be read, which is raised outside the handler. *)
Definition scrape_row (st : tallies) (row : team_row) : option tallies :=
  match team_id_of row with
  | None => None
  | Some team_id =>
      match scrape_one team_id row with
      | Some players =>
          if length players =? 0 then
            Some (mkTallies (all_players st)
                    (zero_player_teams st ++ [(row_team row, team_id)])
                    (successful_teams st) (failed_teams st))
          else
            Some (mkTallies (all_players st ++ players) (zero_player_teams st)
                    (successful_teams st ++ [(row_team row, team_id, length players)])
                    (failed_teams st))
      | None =>
          Some (mkTallies (all_players st) (zero_player_teams st) (successful_teams st)
                  (failed_teams st ++ [(row_team row, team_id)]))
      end
  end.

Fixpoint scrape_loop (teams : list team_row) (st : tallies) : option tallies :=
  match teams with
  | [] => Some st
  | row :: rest =>
      match scrape_row st row with
      | Some st' => scrape_loop rest st'
      | None => None
      end
  end.

(** [scrape_teams] on a new manager. *)
Definition scrape_teams (teams : list team_row) (max_teams : option Z) : option tallies :=
  scrape_loop (teams_to_scrape teams max_teams) no_tallies.

End WithScrapers.

(** The number of teams that [main] prints as attempted:
    [len(teams) if not args.limit else min(len(teams), args.limit)]. *)
Definition teams_attempted (teams : list team_row) (limit : option Z) : Z :=
  match limit with
  | None => Z.of_nat (length teams)
  | Some k => if (k =? 0)%Z then Z.of_nat (length teams)
              else Z.min (Z.of_nat (length teams)) k
  end.

(** The sum of the player counts of the teams reported as successful. *)
Definition players_reported (st : tallies) : nat :=
  list_sum (map snd (successful_teams st)).

(** The number of teams in the three reports. *)
Definition teams_reported (st : tallies) : nat :=
  length (zero_player_teams st) + length (successful_teams st)
  + length (failed_teams st).

(** Example rows and scrapers. *)
Definition row_of (id name : str) : team_row :=
  mkRow (Some id) None name "https://example.edu/sports/womens-soccer" None.

Definition finds_nothing : Z -> str -> str -> str -> str -> option (list Player) :=
  fun _ _ _ _ _ => Some [].

End RosterManager.

(** * Theorems *)

Module PyFacts.

Lemma eqb_eq (a b : str) : Py.eqb a b = true <-> a = b.
Proof.
  revert b. induction a as [|x a IH]; intros [|y b]; cbn; split; intros H;
    try discriminate; try reflexivity.
  - apply andb_prop in H. destruct H as [Hxy Hab].
    apply Ascii.eqb_eq in Hxy. apply IH in Hab. congruence.
  - inversion H; subst. rewrite Ascii.eqb_refl. cbn. apply IH. reflexivity.
Qed.

Lemma eqb_refl (a : str) : Py.eqb a a = true.
Proof. apply eqb_eq. reflexivity. Qed.

Lemma eqb_neq (a b : str) : Py.eqb a b = false <-> a <> b.
Proof.
  split; intros H.
  - intros ->. rewrite eqb_refl in H. discriminate.
  - destruct (Py.eqb a b) eqn:E; [|reflexivity]. apply eqb_eq in E. contradiction.
Qed.

Lemma startswith_app (p s : str) : Py.startswith p (p ++ s) = true.
Proof.
  induction p as [|x p IH]; [reflexivity|]. cbn. rewrite Ascii.eqb_refl. exact IH.
Qed.

Lemma endswith_app (s p : str) : Py.endswith p (s ++ p) = true.
Proof. unfold Py.endswith. rewrite rev_app_distr. apply startswith_app. Qed.

Lemma last_char_split {A : Type} (s : list A) (k : nat) (d : A) :
  nth_error s k = Some d -> S k = length s -> s = firstn k s ++ [d].
Proof.
  revert k. induction s as [|x s IH]; intros [|k] Hd Hk; cbn in *; try discriminate.
  - inversion Hd; subst. destruct s; [reflexivity|discriminate].
  - f_equal. apply IH; [assumption|lia].
Qed.

(** A text whose first and last characters are not blank is its own
    [strip()]. *)
Lemma strip_fixed (s : str) (c d : ascii) (s' : str) (k : nat) :
  s = c :: s' -> Py.is_space c = false ->
  nth_error s k = Some d -> S k = length s -> Py.is_space d = false ->
  Py.strip s = s.
Proof.
  intros Hs Hc Hd Hk Hsp. unfold Py.strip.
  assert (Hl : Py.lstrip_by Py.is_space s = s) by (subst s; cbn; rewrite Hc; reflexivity).
  rewrite Hl. unfold Py.rstrip_by.
  rewrite (last_char_split s k d Hd Hk) at 1.
  rewrite rev_app_distr. cbn. rewrite Hsp.
  change (d :: rev (firstn k s)) with (rev [d] ++ rev (firstn k s)).
  rewrite <- rev_app_distr, rev_involutive. symmetry. apply last_char_split; assumption.
Qed.

End PyFacts.

Module ReFacts.
Import Re.

Lemma in_flat_map_add (f : nat -> list nat) (l : list nat) (n : nat) :
  In n (flat_map (fun a => map (Nat.add a) (f a)) l) <->
  exists a b, In a l /\ In b (f a) /\ n = a + b.
Proof.
  rewrite in_flat_map. split.
  - intros (a & Ha & Hn). apply in_map_iff in Hn. destruct Hn as (b & Hb & Hin).
    exists a, b. auto.
  - intros (a & b & Ha & Hb & ->). exists a. split; [assumption|].
    apply in_map. assumption.
Qed.

(** Membership in the matches of a sequence. *)
Lemma in_ends_seq (r1 r2 : re) (p : option ascii) (s : str) (n : nat) :
  In n (ends (Seq r1 r2) p s) <->
  exists a b, In a (ends r1 p s) /\ In b (ends r2 (prev_after p s a) (skipn a s)) /\ n = a + b.
Proof. cbn [ends]. apply in_flat_map_add. Qed.

Lemma in_star_ends (step : option ascii -> str -> list nat) (f : nat)
    (p : option ascii) (s : str) (n : nat) :
  In n (star_ends step (S f) p s) <->
  n = 0 \/ exists a b, In (S a) (step p s) /\
                       In b (star_ends step f (prev_after p s (S a)) (skipn (S a) s)) /\
                       n = S a + b.
Proof.
  cbn [star_ends]. rewrite in_app_iff, in_flat_map. split.
  - intros [(a & Ha & Hn) | [<- | []]]; [|now left].
    destruct a as [|a]; [contradiction|].
    apply in_map_iff in Hn. destruct Hn as (b & <- & Hb).
    right. exists a, b. auto.
  - intros [-> | (a & b & Ha & Hb & ->)]; [right; now left|].
    left. exists (S a). split; [assumption|]. apply in_map. assumption.
Qed.

Lemma star_ends_bound (step : option ascii -> str -> list nat) :
  (forall p s n, In n (step p s) -> n <= length s) ->
  forall f p s n, In n (star_ends step f p s) -> n <= length s.
Proof.
  intros Hstep f. induction f as [|f IH]; intros p s n Hn.
  - destruct Hn as [<- | []]. lia.
  - apply in_star_ends in Hn. destruct Hn as [-> | (a & b & Ha & Hb & ->)]; [lia|].
    apply Hstep in Ha. apply IH in Hb. rewrite length_skipn in Hb. lia.
Qed.

(** A match never runs past the end of the text. *)
Lemma ends_bound (r : re) : forall p s n, In n (ends r p s) -> n <= length s.
Proof.
  induction r as [|c|r1 IH1 r2 IH2|r1 IH1 r2 IH2|r IH| | | |r IH]; intros p s n Hn.
  - destruct Hn as [<- | []]. lia.
  - destruct s as [|x s]; cbn in Hn; [contradiction|].
    destruct (c x); cbn in Hn; [|contradiction]. destruct Hn as [<- | []]. cbn. lia.
  - apply in_ends_seq in Hn. destruct Hn as (a & b & Ha & Hb & ->).
    apply IH1 in Ha. apply IH2 in Hb. rewrite length_skipn in Hb. lia.
  - cbn in Hn. apply in_app_iff in Hn. destruct Hn; eauto.
  - cbn in Hn. eapply star_ends_bound; eauto.
  - cbn [ends] in Hn. destruct (xorb _ _); cbn in Hn; [|contradiction].
    destruct Hn as [<- | []]. lia.
  - destruct p; cbn in Hn; [contradiction|]. destruct Hn as [<- | []]. lia.
  - destruct s as [|x [|y s]]; cbn [ends] in Hn; try contradiction.
    + destruct Hn as [<- | []]. lia.
    + destruct (Ascii.eqb x Py.newline); cbn in Hn; [|contradiction].
      destruct Hn as [<- | []]. lia.
  - cbn [ends] in Hn. destruct (ends r p s); cbn in Hn; [contradiction|].
    destruct Hn as [<- | []]. lia.
Qed.

Lemma filter_flat_map_cond {A B : Type} (P : B -> bool) (Q : A -> bool)
    (F F' : A -> list B) (l : list A) :
  (forall a, In a l -> filter P (F a) = if Q a then F' a else []) ->
  filter P (flat_map F l) = flat_map F' (filter Q l).
Proof.
  induction l as [|a l IH]; intros H; [reflexivity|].
  cbn [flat_map filter]. rewrite filter_app, H by now left.
  rewrite IH by (intros; apply H; now right).
  destruct (Q a); reflexivity.
Qed.

Lemma filter_map_add (k n : nat) (l : list nat) :
  n <= k ->
  filter (fun m => m <=? k) (map (Nat.add n) l) =
  map (Nat.add n) (filter (fun m => m <=? k - n) l).
Proof.
  intros Hn. induction l as [|x l IH]; [reflexivity|].
  cbn [map filter]. rewrite IH.
  destruct (Nat.leb_spec (n + x) k), (Nat.leb_spec x (k - n)); try lia; reflexivity.
Qed.

Lemma filter_map_add_none (k n : nat) (l : list nat) :
  k < n -> filter (fun m => m <=? k) (map (Nat.add n) l) = [].
Proof.
  intros Hn. induction l as [|x l IH]; [reflexivity|].
  cbn [map filter]. rewrite IH. destruct (Nat.leb_spec (n + x) k); [lia|reflexivity].
Qed.

Definition ext_ok (E : option ascii -> str -> list nat) : Prop :=
  forall p p' s u, filter (fun m => m <=? length s) (E p (s ++ u)) = E p' s.

Lemma skipn_app_le {A : Type} (n : nat) (s u : list A) :
  n <= length s -> skipn n (s ++ u) = skipn n s ++ u.
Proof.
  intros H. rewrite skipn_app. replace (n - length s) with 0 by lia. reflexivity.
Qed.

Lemma flat_map_all_nil {A B : Type} (F : A -> list B) (l : list A) :
  (forall a, In a l -> F a = []) -> flat_map F l = [].
Proof.
  induction l as [|a l IH]; intros H; [reflexivity|].
  cbn [flat_map]. rewrite H by now left. apply IH. intros; apply H; now right.
Qed.

Lemma star_ends_nil (E : option ascii -> str -> list nat) :
  (forall p s n, In n (E p s) -> n <= length s) ->
  forall f p, star_ends E f p [] = [0].
Proof.
  intros Hb [|f] p; [reflexivity|]. cbn [star_ends].
  rewrite flat_map_all_nil; [reflexivity|].
  intros a Ha. apply Hb in Ha. cbn in Ha. destruct a; [reflexivity|lia].
Qed.

Lemma star_ends_filter_zero (E : option ascii -> str -> list nat) (f : nat)
    (p : option ascii) (u : str) :
  filter (fun m => m <=? 0) (star_ends E f p u) = [0].
Proof.
  destruct f as [|f]; [reflexivity|]. cbn [star_ends].
  rewrite filter_app. cbn [filter Nat.leb].
  rewrite (filter_flat_map_cond _ (fun _ => false) _ (fun _ => [])).
  - rewrite flat_map_all_nil; [reflexivity|]. reflexivity.
  - intros [|a] _; [reflexivity|]. apply filter_map_add_none. lia.
Qed.

Lemma star_ends_ext (E : option ascii -> str -> list nat) :
  ext_ok E ->
  (forall p s n, In n (E p s) -> n <= length s) ->
  forall f' f p p' s u,
    length s <= f' -> length s <= f ->
    filter (fun m => m <=? length s) (star_ends E f p (s ++ u)) = star_ends E f' p' s.
Proof.
  intros Hext Hb f'. induction f' as [|f' IH]; intros f p p' s u Hf' Hf.
  - assert (s = []) as -> by (destruct s; [reflexivity|cbn in Hf'; lia]).
    cbn [app length]. rewrite star_ends_filter_zero. reflexivity.
  - destruct f as [|f].
    + assert (s = []) as -> by (destruct s; [reflexivity|cbn in Hf; lia]).
      cbn [app length]. rewrite star_ends_filter_zero, star_ends_nil by assumption.
      reflexivity.
    + cbn [star_ends]. rewrite filter_app. cbn [filter Nat.leb].
      rewrite <- (Hext p p' s u). f_equal.
      apply filter_flat_map_cond. intros a Ha.
      destruct (Nat.leb_spec a (length s)) as [Hle|Hgt].
      * destruct a as [|a]; [reflexivity|].
        rewrite filter_map_add by assumption. f_equal.
        rewrite skipn_app_le by assumption.
        rewrite <- length_skipn.
        apply IH; rewrite length_skipn; lia.
      * destruct a as [|a]; [reflexivity|]. apply filter_map_add_none. assumption.
Qed.

(** Extension lemma: on a longer text a plain pattern has the same matches
    within the shorter one, in the same order. *)
Lemma ends_ext (r : re) : plain r = true -> ext_ok (ends r).
Proof.
  induction r as [|c|r1 IH1 r2 IH2|r1 IH1 r2 IH2|r IH| | | |r IH];
    cbn [plain]; intros Hp; try discriminate; intros p p' s u.
  - reflexivity.
  - destruct s as [|x s]; cbn.
    + destruct u as [|y u]; [reflexivity|]. destruct (c y); reflexivity.
    + destruct (c x); reflexivity.
  - apply andb_prop in Hp. destruct Hp as [Hp1 Hp2].
    cbn [ends]. rewrite <- (IH1 Hp1 p p' s u).
    apply filter_flat_map_cond. intros a Ha.
    destruct (Nat.leb_spec a (length s)) as [Hle|Hgt].
    + rewrite filter_map_add by assumption. f_equal.
      rewrite skipn_app_le by assumption.
      rewrite <- length_skipn. apply (IH2 Hp2).
    + apply filter_map_add_none. assumption.
  - apply andb_prop in Hp. destruct Hp as [Hp1 Hp2].
    cbn [ends]. rewrite filter_app, (IH1 Hp1 p p' s u), (IH2 Hp2 p p' s u). reflexivity.
  - cbn [ends]. apply star_ends_ext.
    + apply IH, Hp.
    + apply ends_bound.
    + lia.
    + rewrite length_app. lia.
Qed.


(** *** The leftmost match *)

Lemma skipn_cons_nth {A : Type} (t : list A) (k : nat) (c : A) (s : list A) :
  skipn k t = c :: s -> nth_error t k = Some c /\ skipn (S k) t = s.
Proof.
  revert t. induction k as [|k IH]; intros [|x t] H; cbn in *; try discriminate.
  - inversion H; subst. auto.
  - apply IH in H. assumption.
Qed.

Lemma skipn_nil_length {A : Type} (t : list A) (k : nat) :
  k <= length t -> skipn k t = [] -> k = length t.
Proof.
  intros Hk H. apply (f_equal (@length A)) in H. rewrite length_skipn in H. cbn in H. lia.
Qed.

Lemma scan_here {X : Type} (try : option ascii -> str -> option X)
    (prev : option ascii) (s : str) (i : nat) (x : X) :
  try prev s = Some x -> scan try prev s i = Some (i, x).
Proof. intros H. destruct s; cbn [scan]; rewrite H; reflexivity. Qed.

Section Scan.

Context {X : Type} (try : option ascii -> str -> option X) (t : str).

Local Abbreviation try_at k := (try (prev_at t k) (skipn k t)).

Lemma scan_some (d : nat) : forall k i x,
  length t - k = d -> k <= length t ->
  scan try (prev_at t k) (skipn k t) k = Some (i, x) ->
  k <= i <= length t /\ try_at i = Some x /\ forall j, k <= j < i -> try_at j = None.
Proof.
  induction d as [|d IH]; intros k i x Hd Hk H.
  - destruct (skipn k t) as [|c s] eqn:Hs.
    + cbn in H. destruct (try (prev_at t k) []) eqn:Ht; [|discriminate].
      inversion H; subst. rewrite Hs. repeat split; try lia. assumption.
    + apply (f_equal (@length ascii)) in Hs. rewrite length_skipn in Hs. cbn in Hs. lia.
  - destruct (skipn k t) as [|c s] eqn:Hs.
    + apply (f_equal (@length ascii)) in Hs. rewrite length_skipn in Hs. cbn in Hs. lia.
    + cbn [scan] in H. destruct (try (prev_at t k) (c :: s)) eqn:Ht.
      * inversion H; subst. rewrite Hs. repeat split; try lia. assumption.
      * apply skipn_cons_nth in Hs as Hc. destruct Hc as [Hc Hs'].
        replace (Some c) with (prev_at t (S k)) in H by exact Hc.
        rewrite <- Hs' in H. apply IH in H; [|lia|lia].
        destruct H as (Hi & Hx & Hnone). repeat split; try lia; [assumption|].
        intros j Hj. destruct (Nat.eq_dec j k) as [->|Hne].
        -- rewrite Hs. assumption.
        -- apply Hnone. lia.
Qed.

Lemma scan_none (d : nat) : forall k,
  length t - k = d -> k <= length t ->
  scan try (prev_at t k) (skipn k t) k = None ->
  forall j, k <= j <= length t -> try_at j = None.
Proof.
  induction d as [|d IH]; intros k Hd Hk H j Hj.
  - assert (j = k) as -> by lia.
    destruct (skipn k t) as [|c s]; cbn [scan] in H;
      destruct (try (prev_at t k) _); [discriminate|reflexivity|discriminate|reflexivity].
  - destruct (skipn k t) as [|c s] eqn:Hs.
    + apply (f_equal (@length ascii)) in Hs. rewrite length_skipn in Hs. cbn in Hs. lia.
    + cbn [scan] in H. destruct (try (prev_at t k) (c :: s)) eqn:Ht; [discriminate|].
      apply skipn_cons_nth in Hs as Hc. destruct Hc as [Hc Hs'].
      replace (Some c) with (prev_at t (S k)) in H by exact Hc.
      rewrite <- Hs' in H.
      destruct (Nat.eq_dec j k) as [->|Hne].
      * rewrite Hs. assumption.
      * apply (IH (S k)); [lia|lia|assumption|lia].
Qed.

Lemma scan_found (d : nat) : forall k j x,
  length t - k = d -> k <= j <= length t -> try_at j = Some x ->
  scan try (prev_at t k) (skipn k t) k <> None.
Proof.
  intros k j x Hd Hj Hx Hnone.
  pose proof (scan_none d k Hd ltac:(lia) Hnone j Hj) as H. congruence.
Qed.

End Scan.

Lemma hd_error_none_nil {A : Type} (l : list A) : hd_error l = None -> l = [].
Proof. destruct l; [reflexivity|discriminate]. Qed.

Lemma search_some (r : re) (t : str) (i n : nat) :
  search r t = Some (i, n) ->
  i <= length t /\ hd_error (ends_at r t i) = Some n /\
  forall j, j < i -> ends_at r t j = [].
Proof.
  unfold search. intros H.
  apply (scan_some _ t (length t) 0) in H; [|cbn; lia|lia].
  destruct H as (Hi & Hx & Hnone). repeat split; [lia|exact Hx|].
  intros j Hj. specialize (Hnone j ltac:(lia)).
  apply hd_error_none_nil. assumption.
Qed.

Lemma search_none (r : re) (t : str) :
  search r t = None -> forall j, j <= length t -> ends_at r t j = [].
Proof.
  unfold search. intros H j Hj.
  pose proof (scan_none _ t (length t) 0 ltac:(cbn; lia) ltac:(lia) H j ltac:(lia)) as Hn.
  apply hd_error_none_nil. assumption.
Qed.

Lemma search_found (r : re) (t : str) (j : nat) :
  j <= length t -> ends_at r t j <> [] -> search r t <> None.
Proof.
  intros Hj Hne. unfold search.
  destruct (ends_at r t j) as [|n l] eqn:He; [congruence|].
  apply (scan_found _ t (length t) 0 j n); [cbn; lia|lia|].
  fold (ends_at r t j). rewrite He. reflexivity.
Qed.


(** *** A plain pattern on its own match *)

Lemma slice_length (t : str) (i n : nat) :
  i + n <= length t -> length (slice t i n) = n.
Proof. intros H. unfold slice. rewrite length_firstn, length_skipn. lia. Qed.

Lemma skipn_slice (t : str) (i n j : nat) :
  j <= n -> i + n <= length t ->
  skipn j (slice t i n) ++ skipn (i + n) t = skipn (i + j) t.
Proof.
  intros Hj Hn. unfold slice.
  rewrite (Nat.add_comm i n), (Nat.add_comm i j), <- !skipn_skipn.
  rewrite <- skipn_app_le by (rewrite length_firstn, length_skipn; lia).
  rewrite firstn_skipn. reflexivity.
Qed.

Lemma ends_at_slice (r : re) (t : str) (i n j : nat) :
  plain r = true -> j <= n -> i + n <= length t ->
  ends_at r (slice t i n) j =
  filter (fun m => m <=? n - j) (ends_at r t (i + j)).
Proof.
  intros Hp Hj Hn. unfold ends_at.
  rewrite <- (skipn_slice t i n j Hj Hn).
  replace (n - j) with (length (skipn j (slice t i n)))
    by (rewrite length_skipn, slice_length; lia).
  symmetry. apply (ends_ext r Hp).
Qed.

(** The match found in a text is found again, whole, in the text of the
    match itself. *)
Lemma search_on_match (r : re) (t : str) (i n : nat) :
  plain r = true -> search r t = Some (i, n) ->
  i + n <= length t /\ search_text r (slice t i n) = Some (slice t i n).
Proof.
  intros Hp H. apply search_some in H. destruct H as (Hi & Hhd & _).
  destruct (ends_at r t i) as [|n' l] eqn:He; [discriminate|].
  cbn in Hhd. inversion Hhd; subst n'.
  assert (Hn : n <= length (skipn i t)).
  { apply (ends_bound r (prev_at t i)). unfold ends_at in He. rewrite He. now left. }
  rewrite length_skipn in Hn.
  assert (Hin : i + n <= length t) by lia. split; [exact Hin|].
  pose proof (ends_at_slice r t i n 0 Hp ltac:(lia) Hin) as H0.
  rewrite Nat.add_0_r, Nat.sub_0_r, He in H0. cbn [filter] in H0.
  rewrite Nat.leb_refl in H0.
  unfold search_text, search, ends_at in *. cbn [prev_at prev_after skipn] in H0.
  rewrite (scan_here _ None (slice t i n) 0 n) by (rewrite H0; reflexivity).
  unfold slice at 1. cbn [skipn Nat.add].
  rewrite firstn_all2; [reflexivity|]. rewrite slice_length by assumption. lia.
Qed.

(** A pattern with no match in a text has none in a part of it. *)
Lemma search_none_slice (r : re) (t : str) (i n : nat) :
  plain r = true -> search r t = None -> i + n <= length t ->
  search r (slice t i n) = None.
Proof.
  intros Hp H Hin.
  destruct (search r (slice t i n)) as [[j m]|] eqn:Hs; [|reflexivity].
  apply search_some in Hs. destruct Hs as (Hj & Hhd & _).
  rewrite slice_length in Hj by assumption.
  rewrite (ends_at_slice r t i n j Hp Hj Hin) in Hhd.
  rewrite (search_none r t H (i + j)) in Hhd by lia. discriminate.
Qed.


Lemma scan_map {X Y : Type} (f : X -> Y) (try : option ascii -> str -> option X)
    (try' : option ascii -> str -> option Y) :
  (forall p t, try' p t = option_map f (try p t)) ->
  forall s prev i,
    scan try' prev s i = option_map (fun ix => (fst ix, f (snd ix))) (scan try prev s i).
Proof.
  intros H s. induction s as [|c s IH]; intros prev i; cbn [scan]; rewrite H.
  - destruct (try prev []); reflexivity.
  - destruct (try prev (c :: s)); [reflexivity|]. apply IH.
Qed.

(** A pattern that is one group: group 1 is the whole match. *)
Lemma search_group_whole (grp : re) (s : str) :
  search_group Eps grp s = search_text grp s.
Proof.
  unfold search_group, search_text, search.
  rewrite (scan_map (fun m => (0, m)) (fun prev t => hd_error (ends grp prev t))).
  - destruct (scan _ None s 0) as [[i n]|]; [|reflexivity].
    cbn. rewrite Nat.add_0_r, Nat.sub_0_r. reflexivity.
  - intros p t. unfold ends_group. cbn. rewrite app_nil_r.
    destruct (ends grp p t); reflexivity.
Qed.

(** *** First and last characters of a match *)

Lemma subclass_sound (p q : ascii -> bool) :
  subclass p q = true -> forall c, p c = true -> q c = true.
Proof.
  unfold subclass. rewrite forallb_forall. intros H c Hc.
  assert (Hin : In c all_ascii).
  { unfold all_ascii. rewrite <- (ascii_nat_embedding c). apply in_map.
    apply in_seq. pose proof (nat_ascii_bounded c). lia. }
  specialize (H c Hin). rewrite Hc in H. exact H.
Qed.

Lemma first_in_sound (q : ascii -> bool) (r : re) :
  first_in q r = true ->
  forall p s n, In n (ends r p s) ->
  1 <= n /\ exists c s', s = c :: s' /\ q c = true.
Proof.
  induction r as [|c|r1 IH1 r2 IH2|r1 IH1 r2 IH2|r IH| | | |r IH];
    cbn [first_in]; intros Hq; try discriminate; intros p s n Hn.
  - destruct s as [|x s]; cbn in Hn; [contradiction|].
    destruct (c x) eqn:Hc; cbn in Hn; [|contradiction].
    destruct Hn as [<- | []]. split; [lia|].
    exists x, s. split; [reflexivity|]. eapply subclass_sound; eassumption.
  - apply in_ends_seq in Hn. destruct Hn as (a & b & Ha & _ & ->).
    destruct (IH1 Hq p s a Ha) as (Ha1 & Hc). split; [lia|assumption].
  - apply andb_prop in Hq. destruct Hq as [Hq1 Hq2].
    cbn in Hn. apply in_app_iff in Hn. destruct Hn; eauto.
Qed.

Lemma nth_error_skipn_add {A : Type} (a k : nat) (s : list A) :
  nth_error (skipn a s) k = nth_error s (a + k).
Proof.
  revert s. induction a as [|a IH]; intros [|x s]; cbn; try reflexivity.
  - destruct k; reflexivity.
  - apply IH.
Qed.

Lemma ends_in_shift (q : ascii -> bool) (s : str) (a b : nat) :
  ends_in q (skipn a s) b -> ends_in q s (a + b).
Proof.
  intros (k & c & -> & Hk & Hc). exists (a + k), c.
  rewrite nth_error_skipn_add in Hk. repeat split; [lia|assumption|assumption].
Qed.

Lemma star_last_in_or_empty (q : ascii -> bool) (E : option ascii -> str -> list nat) :
  (forall p s n, In n (E p s) -> n = 0 \/ ends_in q s n) ->
  forall f p s n, In n (star_ends E f p s) -> n = 0 \/ ends_in q s n.
Proof.
  intros HE f. induction f as [|f IH]; intros p s n Hn.
  - destruct Hn as [<- | []]. now left.
  - apply in_star_ends in Hn. destruct Hn as [-> | (a & b & Ha & Hb & ->)]; [now left|].
    right. apply IH in Hb. destruct Hb as [-> | Hb].
    + rewrite Nat.add_0_r. apply HE in Ha. destruct Ha as [Ha | Ha]; [discriminate|assumption].
    + apply ends_in_shift. assumption.
Qed.

Lemma last_sound (q : ascii -> bool) (r : re) :
  (last_in q r = true ->
   forall p s n, In n (ends r p s) -> ends_in q s n) /\
  (last_in_or_empty q r = true ->
   forall p s n, In n (ends r p s) -> n = 0 \/ ends_in q s n).
Proof.
  induction r as [|c|r1 [IH1 IH1'] r2 [IH2 IH2']|r1 [IH1 IH1'] r2 [IH2 IH2']
                  |r [IH IH']| | | |r IH];
    cbn [last_in last_in_or_empty]; split; intros Hq; try discriminate;
    intros p s n Hn.
  - destruct Hn as [<- | []]. now left.
  - destruct s as [|x s]; cbn in Hn; [contradiction|].
    destruct (c x) eqn:Hc; cbn in Hn; [|contradiction].
    destruct Hn as [<- | []]. exists 0, x.
    repeat split. eapply subclass_sound; eassumption.
  - destruct s as [|x s]; cbn in Hn; [contradiction|].
    destruct (c x) eqn:Hc; cbn in Hn; [|contradiction].
    destruct Hn as [<- | []]. right. exists 0, x.
    repeat split. eapply subclass_sound; eassumption.
  - apply in_ends_seq in Hn. destruct Hn as (a & b & Ha & Hb & ->).
    apply orb_prop in Hq. destruct Hq as [Hq | Hq].
    + apply ends_in_shift. eapply IH2; eassumption.
    + apply andb_prop in Hq. destruct Hq as [Hq2 Hq1].
      apply (IH2' Hq2) in Hb. destruct Hb as [-> | Hb].
      * rewrite Nat.add_0_r. eapply IH1; eassumption.
      * apply ends_in_shift. assumption.
  - apply in_ends_seq in Hn. destruct Hn as (a & b & Ha & Hb & ->).
    apply orb_prop in Hq. destruct Hq as [Hq | Hq].
    + right. apply ends_in_shift. eapply IH2; eassumption.
    + apply andb_prop in Hq. destruct Hq as [Hq1 Hq2].
      apply (IH2' Hq2) in Hb. destruct Hb as [-> | Hb].
      * rewrite Nat.add_0_r. eauto.
      * right. apply ends_in_shift. assumption.
  - apply andb_prop in Hq. destruct Hq as [Hq1 Hq2].
    cbn in Hn. apply in_app_iff in Hn. destruct Hn; eauto.
  - apply andb_prop in Hq. destruct Hq as [Hq1 Hq2].
    cbn in Hn. apply in_app_iff in Hn. destruct Hn; eauto.
  - cbn [ends] in Hn. eapply star_last_in_or_empty; eauto.
  - left. cbn [ends] in Hn.
    destruct (xorb _ _); cbn in Hn; [|contradiction]. destruct Hn as [<- | []]. reflexivity.
  - left. destruct p; cbn in Hn; [contradiction|]. destruct Hn as [<- | []]. reflexivity.
  - left. destruct s as [|x [|y s]]; cbn [ends] in Hn; try contradiction.
    + destruct Hn as [<- | []]. reflexivity.
    + destruct (Ascii.eqb x Py.newline); cbn in Hn; [|contradiction].
      destruct Hn as [<- | []]. reflexivity.
  - left. cbn [ends] in Hn. destruct (ends r p s); cbn in Hn; [contradiction|].
    destruct Hn as [<- | []]. reflexivity.
Qed.

Lemma last_in_sound (q : ascii -> bool) (r : re) :
  last_in q r = true ->
  forall p s n, In n (ends r p s) -> ends_in q s n.
Proof. apply last_sound. Qed.

End ReFacts.

(** ** Height normalization *)

Module HeightFacts.

Import Re ReFacts FieldExtractors.

Lemma first_group_app (l1 l2 : list (re * re)) (s : str) :
  first_group (l1 ++ l2) s =
  match first_group l1 s with
  | Some g => Some g
  | None => first_group l2 s
  end.
Proof.
  induction l1 as [|[pre grp] l1 IH]; [reflexivity|].
  cbn [first_group app]. destruct (search_group pre grp s); [reflexivity|exact IH].
Qed.

(** The match of a whole-group pattern has no blank at either end. *)
Lemma match_strip_fixed (g : re) (s : str) (i n : nat) :
  first_in nonspace g = true -> last_in nonspace g = true ->
  search g s = Some (i, n) ->
  slice s i n <> [] /\ Py.strip (slice s i n) = slice s i n.
Proof.
  intros Hf Hl H. apply search_some in H. destruct H as (Hi & Hhd & _).
  assert (Hin : In n (ends g (prev_at s i) (skipn i s))).
  { unfold ends_at in Hhd. destruct (ends g _ _); [discriminate|].
    cbn in Hhd. inversion Hhd. now left. }
  pose proof (ends_bound _ _ _ _ Hin) as Hb.
  destruct (first_in_sound _ _ Hf _ _ _ Hin) as (Hn & c & s' & Hs & Hc).
  destruct (last_in_sound _ _ Hl _ _ _ Hin) as (k & d & -> & Hk & Hd).
  unfold slice. rewrite Hs. cbn [firstn]. split; [discriminate|].
  unfold nonspace in *. apply negb_true_iff in Hc, Hd.
  apply (PyFacts.strip_fixed _ c d (firstn k s') k); try assumption; try reflexivity.
  - change (c :: firstn k s') with (firstn (S k) (c :: s')).
    rewrite nth_error_firstn. rewrite <- Hs.
    destruct (Nat.ltb_spec k (S k)); [assumption|lia].
  - cbn [length]. rewrite length_firstn. rewrite Hs in Hb. cbn in Hb. lia.
Qed.

(** The result of the loop over height-shaped patterns is a fixed point of
    the loop and of [strip()]. *)
Lemma first_group_stable (pats : list (re * re)) :
  forallb shape_ok pats = true ->
  forall s m, first_group pats s = Some m ->
  (exists i n, m = slice s i n /\ i + n <= length s) /\
  m <> [] /\ Py.strip m = m /\ first_group pats m = Some m.
Proof.
  induction pats as [|[pre g] pats IH]; intros Hok s m H; [discriminate|].
  cbn [forallb] in Hok. apply andb_prop in Hok. destruct Hok as [Hpg Hok].
  unfold shape_ok in Hpg. cbn [fst snd] in Hpg.
  destruct pre; try discriminate. cbn [andb] in Hpg.
  apply andb_prop in Hpg. destruct Hpg as [Hpg Hl].
  apply andb_prop in Hpg. destruct Hpg as [Hp Hf].
  cbn [first_group] in *. rewrite search_group_whole in *.
  unfold search_text in H at 1.
  destruct (search g s) as [[i n]|] eqn:Hs.
  - inversion H; subst m. clear H.
    destruct (search_on_match g s i n Hp Hs) as (Hin & Hm).
    destruct (match_strip_fixed g s i n Hf Hl Hs) as (Hne & Hst).
    rewrite Hm. repeat split; try assumption. exists i, n. auto.
  - destruct (IH Hok s m H) as ((i & n & -> & Hin) & Hne & Hst & Hfix).
    repeat split; try assumption; [exists i, n; auto|].
    unfold search_text. rewrite (search_none_slice g s i n Hp Hs Hin). exact Hfix.
Qed.


Lemma height_patterns_split :
  height_patterns = firstn 4 height_patterns ++ [(height_label, height_label_value)].
Proof. reflexivity. Qed.

Lemma shaped_patterns_ok : forallb shape_ok (firstn 4 height_patterns) = true.
Proof. vm_compute. reflexivity. Qed.

(** C8, as the code has it: normalizing a height twice gives the same
    result as normalizing it once whenever the text holds a height in one
    of the four shapes (feet and inches, with or without metres; the dash
    form; metres), and whenever no pattern matches at all.  Only a result
    taken from the [Height:] label can change when it is normalized again. *)
Theorem extract_height_idempotent_on_shapes (s : str) :
  has_height_shape s = true \/
  search_group height_label height_label_value s = None ->
  extract_height (extract_height s) = extract_height s.
Proof.
  intros H. unfold extract_height at 2 3.
  destruct s as [|c s]; [reflexivity|]. cbn [Py.truthy negb].
  rewrite height_patterns_split, first_group_app. cbn [first_group].
  unfold has_height_shape in H.
  destruct (first_group (firstn 4 height_patterns) (c :: s)) as [m|] eqn:Hm.
  - destruct (first_group_stable _ shaped_patterns_ok _ _ Hm) as (_ & Hne & Hst & Hfix).
    rewrite Hst. unfold extract_height.
    destruct m as [|x m]; [congruence|]. cbn [Py.truthy negb].
    rewrite height_patterns_split, first_group_app, Hfix. exact Hst.
  - destruct H as [H | H]; [discriminate|]. rewrite H. reflexivity.
Qed.

Lemma extract_height_idempotent_on_shapes_witness :
  extract_height (extract_height "Height: 6-2, 150 lbs") =
  extract_height "Height: 6-2, 150 lbs".
Proof.
  apply extract_height_idempotent_on_shapes. left. vm_compute. reflexivity.
Defined.

(** C8 as stated fails: a value taken from the [Height:] label that has
    none of the height shapes is normalized to the empty string the second
    time. *)
Lemma extract_height_not_idempotent :
  extract_height "Height: 5 ft 6" = "5 ft 6" /\
  extract_height (extract_height "Height: 5 ft 6") <> extract_height "Height: 5 ft 6".
Proof. split; [vm_compute; reflexivity | vm_compute; discriminate]. Qed.

End HeightFacts.

Module PositionFacts.

Import Re ReFacts FieldExtractors.

Lemma ends_lit_ci (w : str) : forall p s,
  ends (lit_ci w) p s =
  if Py.eqb (Py.upper (firstn (length w) s)) (Py.upper w) then [length w] else [].
Proof.
  induction w as [|c w IH]; intros p s; [reflexivity|].
  cbn [lit_ci ends length firstn]. destruct s as [|x s]; [reflexivity|].
  cbn [ends chr_ci Py.upper map Py.eqb].
  destruct (Ascii.eqb (Py.upper_char x) (Py.upper_char c)); [|reflexivity].
  cbn [flat_map andb prev_after skipn]. rewrite app_nil_r, IH.
  fold (Py.upper (firstn (length w) s)). fold (Py.upper w).
  destruct (Py.eqb _ _); reflexivity.
Qed.

Lemma in_ends_alts (rs : list re) (p : option ascii) (s : str) (n : nat) :
  In n (ends (alts rs) p s) <-> exists r, In r rs /\ In n (ends r p s).
Proof.
  induction rs as [|r rs IH].
  - cbn. destruct s; cbn; split; try contradiction; intros (r & [] & _).
  - destruct rs as [|r' rs].
    + cbn [alts]. split.
      * intros H. exists r. split; [now left|assumption].
      * intros (r0 & [<- | []] & H). assumption.
    + change (alts (r :: r' :: rs)) with (Alt r (alts (r' :: rs))).
      cbn [ends]. rewrite in_app_iff, IH. split.
      * intros [H | (r0 & Hr0 & H)].
        -- exists r. split; [now left|assumption].
        -- exists r0. split; [now right|assumption].
      * intros (r0 & [<- | Hr0] & H); [now left|].
        right. exists r0. split; assumption.
Qed.

Lemma hd_error_skipn {A : Type} (k : nat) (t : list A) :
  hd_error (skipn k t) = nth_error t k.
Proof.
  revert t. induction k as [|k IH]; intros [|x t]; cbn; try reflexivity. apply IH.
Qed.

Lemma prev_after_at (t : str) (i n : nat) :
  prev_after (prev_at t i) (skipn i t) n = prev_at t (i + n).
Proof.
  destruct n as [|n].
  - rewrite Nat.add_0_r. reflexivity.
  - cbn [prev_after]. rewrite nth_error_skipn_add.
    replace (i + S n) with (S (i + n)) by lia. reflexivity.
Qed.

Lemma vocabulary_upper :
  forallb (fun w : string => Py.eqb (Py.upper w) w) position_vocabulary = true.
Proof. vm_compute. reflexivity. Qed.

(** The matches of the position pattern at a position are the vocabulary
    tokens that stand there between word boundaries. *)
Lemma in_ends_position (t : str) (i n : nat) :
  In n (ends_at position_re t i) <->
  exists w : string, token_at t i w /\ n = length w.
Proof.
  unfold ends_at, position_re. cbn [seqs]. rewrite in_ends_seq. split.
  - intros (a & b & Ha & Hb & ->).
    cbn [ends] in Ha. rewrite hd_error_skipn in Ha.
    destruct (xorb _ _) eqn:Hb1; cbn in Ha; [|contradiction].
    destruct Ha as [<- | []]. cbn [prev_after skipn Nat.add] in *.
    apply in_ends_seq in Hb. destruct Hb as (c & d & Hc & Hd & ->).
    unfold position_tokens in Hc. apply in_ends_alts in Hc.
    destruct Hc as (r & Hr & Hc). apply in_map_iff in Hr.
    destruct Hr as (w & <- & Hw). rewrite ends_lit_ci in Hc.
    match type of Hc with
    | context [if ?b then _ else _] => destruct b eqn:He
    end; [|destruct Hc].
    destruct Hc as [<- | []].
    rewrite prev_after_at in Hd. rewrite skipn_skipn in Hd.
    cbn [ends] in Hd. rewrite hd_error_skipn in Hd.
    match type of Hd with
    | context [if ?b then _ else _] => destruct b eqn:Hb2
    end; [|destruct Hd].
    destruct Hd as [<- | []].
    exists w. split; [|lia].
    pose proof vocabulary_upper as Hu. rewrite forallb_forall in Hu.
    specialize (Hu w Hw). apply PyFacts.eqb_eq in Hu. rewrite Hu in He.
    unfold token_at, boundary, slice. repeat split; try assumption.
    rewrite (Nat.add_comm (length w) i) in Hb2. exact Hb2.
  - intros (w & (Hw & He & Hb1 & Hb2) & ->).
    exists 0, (length w). split; [|split; [|reflexivity]].
    + cbn [ends]. rewrite hd_error_skipn. unfold boundary in Hb1. rewrite Hb1. now left.
    + cbn [prev_after skipn]. apply in_ends_seq.
      exists (length w), 0. split; [|split; [|lia]].
      * unfold position_tokens. apply in_ends_alts.
        exists (lit_ci w). split; [apply in_map_iff; exists w; auto|].
        rewrite ends_lit_ci.
        pose proof vocabulary_upper as Hu. rewrite forallb_forall in Hu.
        specialize (Hu w Hw). apply PyFacts.eqb_eq in Hu. rewrite Hu.
        unfold slice in He. rewrite He. now left.
      * rewrite prev_after_at, skipn_skipn. cbn [ends]. rewrite hd_error_skipn.
        unfold boundary in Hb2. rewrite (Nat.add_comm (length w) i), Hb2. now left.
Qed.


Lemma table_normalized :
  forallb (fun wc : string * string =>
             Py.eqb (normalize_position (fst wc)) (snd wc)
             && existsb (Py.eqb (snd wc)) position_codes)
          position_table = true.
Proof. vm_compute. reflexivity. Qed.

Lemma table_vocabulary : map fst position_table = position_vocabulary.
Proof. reflexivity. Qed.

Lemma vocabulary_code (w : string) :
  In w position_vocabulary ->
  exists code : string,
    In (w, code) position_table /\ normalize_position w = code /\
    In (code : str) position_codes.
Proof.
  intros Hw. rewrite <- table_vocabulary in Hw. apply in_map_iff in Hw.
  destruct Hw as ([w' code] & Hfst & Hin). cbn in Hfst. subst w'.
  exists code. split; [assumption|].
  pose proof table_normalized as H. rewrite forallb_forall in H.
  specialize (H _ Hin). cbn [fst snd] in H. apply andb_prop in H.
  destruct H as [H1 H2]. apply PyFacts.eqb_eq in H1. split; [assumption|].
  apply existsb_exists in H2. destruct H2 as (c & Hc & He).
  apply PyFacts.eqb_eq in He. rewrite He. assumption.
Qed.

Lemma token_fits (t : str) (i : nat) (w : string) :
  token_at t i w -> 1 <= length w /\ i + length w <= length t.
Proof.
  intros (Hw & He & _). apply PyFacts.eqb_eq in He.
  apply (f_equal (@length ascii)) in He. unfold Py.upper, slice in He.
  rewrite length_map, length_firstn, length_skipn in He.
  assert (1 <= length w).
  { pose proof vocabulary_upper as Hu.
    assert (Hne : forallb (fun w : string => 1 <=? length w) position_vocabulary = true)
      by (vm_compute; reflexivity).
    rewrite forallb_forall in Hne. apply Nat.leb_le. apply Hne. assumption. }
  lia.
Qed.

(** What [extract_position] returns when the pattern matches. *)
Lemma extract_position_match (text : str) (j n : nat) :
  search position_re (Py.strip text) = Some (j, n) ->
  exists (w code : string),
    token_at (Py.strip text) j w /\ n = length w /\
    In (w, code) position_table /\ In (code : str) position_codes /\
    extract_position text = code.
Proof.
  intros Hs. pose proof (search_some _ _ _ _ Hs) as (Hj & Hhd & _).
  assert (Hin : In n (ends_at position_re (Py.strip text) j)).
  { destruct (ends_at position_re (Py.strip text) j); [discriminate|].
    cbn in Hhd. inversion Hhd. now left. }
  apply in_ends_position in Hin. destruct Hin as (w & Htok & ->).
  destruct (vocabulary_code w (proj1 Htok)) as (code & Htab & Hnorm & Hcode).
  exists w, code. repeat split; try assumption; try apply Htok.
  unfold extract_position. destruct text as [|c text].
  - cbn in Hs. discriminate.
  - cbn [Py.truthy negb]. unfold search_text. rewrite Hs.
    destruct Htok as (_ & He & _). apply PyFacts.eqb_eq in He. rewrite He. exact Hnorm.
Qed.

(** What it returns when the pattern does not match. *)
Lemma extract_position_nomatch (text : str) :
  search position_re (Py.strip text) = None ->
  extract_position text = position_fallback (Py.upper (Py.strip text)).
Proof.
  intros Hs. unfold extract_position. destruct text as [|c text]; [reflexivity|].
  cbn [Py.truthy negb]. unfold search_text. rewrite Hs. reflexivity.
Qed.

Lemma no_token_no_match (t : str) :
  (forall i w, ~ token_at t i w) -> search position_re t = None.
Proof.
  intros H. destruct (search position_re t) as [[j n]|] eqn:Hs; [|reflexivity].
  apply search_some in Hs. destruct Hs as (_ & Hhd & _).
  assert (Hin : In n (ends_at position_re t j)).
  { destruct (ends_at position_re t j); [discriminate|].
    cbn in Hhd. inversion Hhd. now left. }
  apply in_ends_position in Hin. destruct Hin as (w & Htok & _).
  exfalso. exact (H j w Htok).
Qed.

Lemma position_fallback_cases (u : str) :
  position_fallback u =
  if has_any ["GOALKEEPER"; "GOALIE"; "KEEPER"] u then "GK" : str
  else if has_any ["DEFENDER"; "DEFENCE"; "DEFENSE"; "BACK"] u then "D" : str
  else if has_any ["MIDFIELDER"; "MIDFIELD"] u then "M" : str
  else if has_any ["FORWARD"; "STRIKER"; "ATTACKER"; "ATTACK"] u then "F" : str
  else [].
Proof.
  unfold position_fallback, has_any. cbn [existsb].
  rewrite !orb_false_r, !orb_assoc. reflexivity.
Qed.


End PositionFacts.

(** ** The validator *)

Module ValidatorFacts.

Import Validator.

Ltac decide_thresholds :=
  unfold coverage_below, coverage_at_least;
  repeat match goal with
         | |- context [?a <? ?b] => destruct (Nat.ltb_spec a b)
         | |- context [?a <=? ?b] => destruct (Nat.leb_spec a b)
         end;
  cbn [andb orb negb].

Lemma validate_cons_iff (p : Player) (ps : list Player) :
  _validate_players (p :: ps) = true <-> spec_accepts (p :: ps).
Proof.
  unfold _validate_players, spec_accepts.
  generalize (count_with name (p :: ps)) (count_with jersey (p :: ps))
             (count_with position (p :: ps)) (count_with year (p :: ps)).
  generalize (length (p :: ps)).
  intros total cn cj cp cy.
  assert (Hne : p :: ps <> []) by discriminate.
  decide_thresholds; split; intros Hacc; try discriminate; try reflexivity;
    try (exfalso; lia); try (repeat split; try assumption; lia).
Qed.

Lemma count_with_le (field : Player -> str) (players : list Player) :
  count_with field players <= length players.
Proof. unfold count_with. apply filter_length_le. Qed.

Lemma agree_up_to_sound (n : nat) :
  agree_up_to n = true ->
  forall count total, 1 <= total <= n -> count <= total ->
  thresholds_agree count total = true.
Proof.
  unfold agree_up_to. intros H count total Ht Hc.
  rewrite forallb_forall in H.
  specialize (H total ltac:(apply in_seq; lia)).
  rewrite forallb_forall in H. apply H. apply in_seq. lia.
Qed.

Lemma agree_100 : agree_up_to 100 = true.
Proof. vm_compute. reflexivity. Qed.

Lemma thresholds_agree_100 (count total : nat) :
  1 <= total <= 100 -> count <= total -> thresholds_agree count total = true.
Proof. apply (agree_up_to_sound 100 agree_100). Qed.

(** On rosters of at most 100 records the validator computed on floats, as
    Python runs it, is the validator computed on rationals. *)
Lemma validate_float_exact (players : list Player) :
  length players <= 100 ->
  _validate_players_float players = _validate_players players.
Proof.
  intros Hlen. destruct players as [|p ps]; [reflexivity|].
  unfold _validate_players_float, _validate_players.
  assert (Ht : 1 <= length (p :: ps) <= 100) by (cbn [length] in *; lia).
  pose proof (thresholds_agree_100 _ _ Ht (count_with_le name (p :: ps))) as Hn.
  pose proof (thresholds_agree_100 _ _ Ht (count_with_le jersey (p :: ps))) as Hj.
  pose proof (thresholds_agree_100 _ _ Ht (count_with_le position (p :: ps))) as Hp.
  pose proof (thresholds_agree_100 _ _ Ht (count_with_le year (p :: ps))) as Hy.
  unfold thresholds_agree in *.
  repeat match goal with
         | H : _ && _ = true |- _ => apply andb_prop in H; destruct H
         | H : Bool.eqb _ _ = true |- _ => apply eqb_prop in H; rewrite H; clear H
         end.
  reflexivity.
Qed.

(** C1: the validator accepts exactly the rosters that the acceptance rule
    of the specification describes; a roster of 20 records with 18 names,
    18 jerseys, 10 positions and 10 classes is accepted, the same roster
    with 12 names is rejected, and the empty list is rejected. *)
Theorem validate_players_acceptance_rule :
  (forall players, _validate_players players = true <-> spec_accepts players) /\
  (forall players,
     length players = 20 -> count_with name players = 18 ->
     count_with jersey players = 18 -> count_with position players = 10 ->
     count_with year players = 10 -> _validate_players players = true) /\
  (forall players,
     length players = 20 -> count_with name players = 12 ->
     count_with jersey players = 18 -> count_with position players = 10 ->
     count_with year players = 10 -> _validate_players players = false) /\
  _validate_players [] = false.
Proof.
  split; [|split; [|split]].
  - intros [|p ps].
    + split; [discriminate|]. intros (H & _). congruence.
    + apply validate_cons_iff.
  - intros [|p ps] Hl Hn Hj Hp Hy; [discriminate|].
    unfold _validate_players. rewrite Hl, Hn, Hj, Hp, Hy. reflexivity.
  - intros [|p ps] Hl Hn Hj Hp Hy; [discriminate|].
    unfold _validate_players. rewrite Hl, Hn, Hj, Hp, Hy. reflexivity.
  - reflexivity.
Qed.

End ValidatorFacts.

(** ** Academic year *)

Module YearFacts.

Import FieldExtractors.

Lemma lookup_in (key : str) (m : list (string * string)) (v : str) :
  lookup key m = Some v ->
  exists k v' : string, In (k, v') m /\ key = k /\ v = v'.
Proof.
  induction m as [|[k v'] m IH]; [discriminate|]. cbn [lookup].
  destruct (Py.eqb key k) eqn:E.
  - intros H. inversion H; subst. apply PyFacts.eqb_eq in E.
    exists k, v'. repeat split; [now left|assumption].
  - intros H. destruct (IH H) as (k0 & v0 & Hin & Hk & Hv).
    exists k0, v0. repeat split; [now right|assumption|assumption].
Qed.

Lemma year_map_functional :
  forallb (fun kv : string * string =>
             match lookup (fst kv) year_map with
             | Some v => Py.eqb v (snd kv)
             | None => false
             end)
          year_map = true.
Proof. vm_compute. reflexivity. Qed.

Lemma year_values_fixed :
  forallb (fun kv : string * string =>
             Py.eqb (normalize_academic_year (snd kv)) (snd kv))
          year_map = true.
Proof. vm_compute. reflexivity. Qed.

Lemma normalize_key (t : str) (v : str) :
  lookup (Py.strip t) year_map = Some v -> normalize_academic_year t = v.
Proof.
  intros H. unfold normalize_academic_year. destruct t as [|c t]; [discriminate|].
  cbn [Py.truthy negb]. rewrite H. reflexivity.
Qed.

Lemma normalize_other (t : str) :
  lookup (Py.strip t) year_map = None -> normalize_academic_year t = t.
Proof.
  intros H. unfold normalize_academic_year. destruct t as [|c t]; [reflexivity|].
  cbn [Py.truthy negb]. rewrite H. reflexivity.
Qed.


End YearFacts.

(** ** The URL builder *)

Module URLFacts.

Import URLBuilder.

Lemma digits_of_acc (fuel : nat) : forall n acc,
  exists pre, PyInt.digits_of fuel n acc = pre ++ acc.
Proof.
  induction fuel as [|f IH]; intros n acc; [exists []; reflexivity|].
  cbn [PyInt.digits_of]. destruct (n <? 10)%Z.
  - exists [PyInt.digit_char (n mod 10)]. reflexivity.
  - destruct (IH (n / 10)%Z (PyInt.digit_char (n mod 10) :: acc)) as (pre & ->).
    exists (pre ++ [PyInt.digit_char (n mod 10)]). rewrite <- app_assoc. reflexivity.
Qed.

Lemma last_n_app (pre s : str) : Py.last_n (length s) (pre ++ s) = s.
Proof.
  unfold Py.last_n. rewrite length_app.
  replace (length pre + length s - length s) with (length pre) by lia.
  rewrite skipn_app, skipn_all, Nat.sub_diag. reflexivity.
Qed.

(** The last two characters of [str(m)] are the two digits of [m mod 100]. *)
Lemma last_two_digits (m : Z) :
  (10 <= m)%Z -> Py.last_n 2 (PyInt.to_str m) = PyInt.two_digits (m mod 100).
Proof.
  intros Hm. unfold PyInt.to_str. rewrite Z.abs_eq by lia.
  destruct (Z.ltb_spec m 0) as [Hneg|_]; [lia|].
  assert (Hlog : (3 <= Z.log2 m)%Z) by (apply (Z.log2_le_mono 10 m) in Hm; exact Hm).
  destruct (Z.to_nat (Z.log2 m)) as [|f] eqn:Hf; [lia|].
  cbn [PyInt.digits_of].
  destruct (Z.ltb_spec m 10) as [Hlt|_]; [lia|].
  assert (Hd : PyInt.two_digits (m mod 100) =
               [PyInt.digit_char ((m / 10) mod 10); PyInt.digit_char (m mod 10)]).
  { unfold PyInt.two_digits. f_equal; [|f_equal]; f_equal.
    - Z.div_mod_to_equations. lia.
    - Z.div_mod_to_equations. lia. }
  rewrite Hd. destruct (m / 10 <? 10)%Z.
  - reflexivity.
  - destruct (digits_of_acc f (m / 10 / 10)%Z
                [PyInt.digit_char ((m / 10) mod 10); PyInt.digit_char (m mod 10)])
      as (pre & ->).
    apply (last_n_app pre [_; _]).
Qed.

(** The season range is the year, a dash, and the last two digits of the
    next year. *)
Lemma season_range_two_years (year : Z) :
  (9 <= year)%Z ->
  season_range year = PyInt.to_str year ++ "-" ++ PyInt.two_digits ((year + 1) mod 100).
Proof.
  intros Hy. unfold season_range. rewrite last_two_digits by lia. reflexivity.
Qed.

Ltac pick_format :=
  unfold build_roster_url; cbv zeta;
  match goal with H : Py.contains _ _ = _ |- _ => rewrite H end;
  repeat match goal with
         | |- context [Py.eqb (list_ascii_of_string ?a) (list_ascii_of_string ?b)] =>
             let v := eval vm_compute in (Py.eqb (list_ascii_of_string a) (list_ascii_of_string b)) in
             change (Py.eqb (list_ascii_of_string a) (list_ascii_of_string b)) with v
         end;
  cbv iota.



End URLFacts.

(** ** Hometown and schools *)

Module HometownFacts.

Import FieldExtractors.

Lemma split_no_separator (c : ascii) (t : str) :
  Py.contains [c] t = false -> Py.split c t = [t].
Proof.
  induction t as [|x t IH]; intros H; [reflexivity|].
  cbn [Py.contains Py.startswith] in H. apply orb_false_elim in H.
  destruct H as [Hx Ht]. rewrite andb_true_r in Hx.
  cbn [Py.split]. rewrite Ascii.eqb_sym, Hx, (IH Ht). reflexivity.
Qed.

Lemma split_two_has_separator (c : ascii) (t : str) (p0 p1 : str) (rest : list str) :
  map Py.strip (Py.split c t) = p0 :: p1 :: rest -> Py.contains [c] t = true.
Proof.
  intros H. destruct (Py.contains [c] t) eqn:E; [reflexivity|].
  rewrite (split_no_separator c t E) in H. discriminate.
Qed.

Lemma hometown_text_nil : hometown_text [] = [].
Proof. reflexivity. Qed.

Ltac open_parse text :=
  unfold parse_hometown_school;
  destruct text as [|c0 text];
  [ match goal with H : map Py.strip _ = _ |- _ => cbn in H; discriminate end
  | cbn [Py.truthy negb] ].


End HometownFacts.

(** ** The extractors *)

Module ExtractorFacts.

Import Soup FieldExtractors Extractors Pages.

Lemma truthy_nonempty (s : str) : Py.truthy s = true <-> s <> [].
Proof. destruct s; cbn; split; intros H; congruence. Qed.

Lemma collect_forall {A : Type} (P : Player -> Prop) (f : A -> option Player)
    (items : list A) :
  (forall x p, f x = Some p -> P p) -> Forall P (collect f items).
Proof.
  intros H. induction items as [|x items IH]; cbn [collect]; [constructor|].
  destruct (f x) as [p|] eqn:E; [|exact IH].
  constructor; [exact (H x p E)|exact IH].
Qed.

Section WithDomain.

Variable domain_of : str -> str.

Lemma person_card_fields (team_id : Z) (team_name season division base_url : str)
    (card : node) (p : Player) :
  person_card domain_of team_id team_name season division base_url card = Some p ->
  name p <> [] /\ jersey p <> [].
Proof.
  unfold person_card.
  destruct (fold_left bio_stat _ _) as [[position year] height].
  destruct (fold_left location_item _ _) as [hometown high_school].
  match goal with
  | |- context [negb (Py.truthy ?a) || negb (Py.truthy ?b)] =>
      destruct (Py.truthy a) eqn:Hn; [|discriminate];
      destruct (Py.truthy b) eqn:Hj; [|discriminate]
  end.
  cbn [negb orb]. intros H. inversion H; subst p. cbn [name jersey].
  split; apply truthy_nonempty; assumption.
Qed.

(** A card with no jersey badge gives no record, whatever else it holds. *)
Lemma person_card_without_jersey (team_id : Z)
    (team_name season division base_url : str) (card : node) :
  find "div" "s-person-details__thumbnail" card = None ->
  person_card domain_of team_id team_name season division base_url card = None.
Proof.
  intros H. unfold person_card. rewrite H.
  destruct (fold_left bio_stat _ _) as [[position year] height].
  destruct (fold_left location_item _ _) as [hometown high_school].
  cbn [Py.truthy negb]. rewrite orb_true_r. reflexivity.
Qed.

End WithDomain.

(** C10: every record that the card-grid extractor returns has a name and
    a jersey; a card without a jersey badge is dropped, for instance a staff
    card that has a name and a profile link. *)
Theorem cards_have_name_and_jersey :
  (forall (domain_of : str -> str) (html : node) (team_id : Z)
          (team_name season division base_url : str),
     Forall (fun p => name p <> [] /\ jersey p <> [])
       (_extract_players_from_cards domain_of html team_id team_name season
          division base_url)) /\
  (forall (domain_of : str -> str) (card : node) (team_id : Z)
          (team_name season division base_url : str),
     find "div" "s-person-details__thumbnail" card = None ->
     person_card domain_of team_id team_name season division base_url card = None) /\
  (forall domain_of : str -> str,
     _extract_players_from_cards domain_of (Elem "main" [] [staff_card]) 1 "Team"
       "2025" "I" "https://example.edu/sports/womens-soccer" = []).
Proof.
  split; [|split].
  - intros. unfold _extract_players_from_cards. apply collect_forall.
    intros x p. apply person_card_fields.
  - intros. apply person_card_without_jersey. assumption.
  - intros. vm_compute. reflexivity.
Qed.

(** The Kentucky table extractor skips a row with no name. *)
Lemma kentucky_names (domain_of : str -> str) (html : node) (team_id : Z)
    (team_name season division base_url : str) :
  Forall (fun p => name p <> [])
    (_extract_players_from_kentucky_table domain_of html team_id team_name season
       division base_url).
Proof.
  unfold _extract_players_from_kentucky_table.
  destruct (filter _ (descendants html)) as [|table _]; [constructor|].
  apply collect_forall. intros row p. unfold kentucky_row.
  destruct (_ <? 2); [discriminate|].
  match goal with
  | |- context [let '(name, profile_url) := ?e in _] => destruct e as [nm pu]
  end.
  destruct (Py.truthy nm) eqn:Hn; [|discriminate].
  cbn [negb]. intros H. inversion H; subst p. cbn [name].
  apply truthy_nonempty. assumption.
Qed.

(** C2 fails on the main list layout: the loop of [_extract_players] has no
    test of the name, so an item whose heading gives an empty name is
    returned as a record with an empty name. *)
Theorem extract_players_emits_blank_name :
  forall (domain_of : str -> str)
         (other_layouts : node -> Z -> str -> str -> str -> str -> list Player),
    map (fun p => (name p, jersey p))
      (_extract_players domain_of other_layouts
         (Elem "ul" [] [item_with_blank_name]) 1 "Team" "2025" "I"
         "https://example.edu/sports/womens-soccer")
    = [([], "7" : str)].
Proof. intros. vm_compute. reflexivity. Qed.

End ExtractorFacts.

(** ** The fetch ladder and the enrichment *)

Module ScraperFacts.

Import Soup StandardScraper.

Lemma set_position_same (p : Player) : set_position p (position p) = p.
Proof. destruct p; reflexivity. Qed.

Lemma set_position_position (p : Player) (pos : str) :
  position (set_position p pos) = pos.
Proof. reflexivity. Qed.

Lemma set_position_twice (p : Player) (a b : str) :
  set_position (set_position p a) b = set_position p b.
Proof. reflexivity. Qed.

Lemma season_range_url_ends (base season : str) :
  exists x, _build_season_range_url base season = x ++ "/roster".
Proof.
  unfold _build_season_range_url. cbv zeta.
  set (b := if Py.endswith "/index" (Py.rstrip_char "/" base) then _ else _).
  destruct (PyInt.int season) as [year|].
  - exists (b ++ "/" ++ URLBuilder.season_range year).
    rewrite <- (app_assoc b), <- (app_assoc (list_ascii_of_string "/")). reflexivity.
  - exists (b ++ "/" ++ season).
    rewrite <- (app_assoc b), <- (app_assoc (list_ascii_of_string "/")). reflexivity.
Qed.

(** The season-range alternate is never the URL without season. *)
Lemma alternate_not_no_season (base season : str) :
  _build_season_range_url base season <> no_season_url base.
Proof.
  destruct (season_range_url_ends base season) as (x & ->).
  unfold no_season_url. intros H. apply (f_equal (@rev ascii)) in H.
  rewrite !rev_app_distr in H. cbn in H. discriminate.
Qed.

Lemma no_season_url_ends (base : str) :
  Py.endswith "/roster/" (no_season_url base) = true.
Proof. unfold no_season_url. apply PyFacts.endswith_app. Qed.

(** Under the default format a season that is not empty makes the primary
    URL differ from the URL without season. *)
Lemma default_primary_not_no_season (base season : str) :
  season <> [] ->
  URLBuilder.build_roster_url base season "default" <> no_season_url base.
Proof.
  intros Hs. unfold URLBuilder.build_roster_url, no_season_url. cbv zeta.
  destruct (Py.contains "/roster/" (Py.rstrip_char "/" base)).
  - intros H. apply (f_equal (@length ascii)) in H. rewrite length_app in H. cbn in H. lia.
  - change (Py.eqb "default" "default") with true. cbv iota.
    intros H. apply app_inv_head in H.
    change (list_ascii_of_string "/roster/") with ("/roster/" ++ @nil ascii : str) in H at 2.
    apply app_inv_head in H. contradiction.
Qed.

Section WithTransport.

Variable http_get : list str -> str -> option response.

Section Ladder.

Variables (P A N : str) (extract : node -> list Player).

Hypothesis A_not_N : A <> N.

Hypothesis N_ends : Py.endswith "/roster/" N = true.

Let log : list str := snd (ladder http_get P A N extract []).

Ltac norm :=
  cbv beta iota zeta; cbn [snd fst app negb andb orb Z.eqb Pos.eqb].

Ltac run := unfold log, ladder, bind, get, ret; norm.

Ltac case_eqb a b :=
  let E := fresh "E" in
  destruct (Py.eqb a b) eqn:E;
  [apply PyFacts.eqb_eq in E | apply PyFacts.eqb_neq in E].

Ltac split_one :=
  match goal with
  | |- context [match http_get ?l ?u with _ => _ end] => destruct (http_get l u)
  | |- context [(status_code ?r =? ?k)%Z] =>
      let E := fresh "E" in destruct (Z.eqb_spec (status_code r) k) as [E|E]
  | |- context [Py.eqb ?a ?b] => case_eqb a b
  | |- context [Py.endswith _ N] => rewrite N_ends
  | |- context [Py.endswith ?x ?y] => destruct (Py.endswith x y)
  | |- context [length ?l =? 0] => destruct (length l =? 0)
  end; norm.

Ltac absurd_case :=
  exfalso;
  match goal with
  | H : ?a = ?b, H' : ?a <> ?b |- _ => exact (H' H)
  | H : ?a = ?b, H' : ?b <> ?a |- _ => exact (H' (eq_sym H))
  | H : status_code ?r = ?k, H' : status_code ?r = ?k' |- _ =>
      rewrite H in H'; discriminate
  end.

(** The log is the primary URL, then the alternate if it was requested,
    then the URL without season if it was requested. *)
Lemma ladder_shape :
  log = [P] \/ log = [P; A] /\ A <> P \/ log = [P; N] /\ N <> P
  \/ log = [P; A; N] /\ A <> P.
Proof.
  run. repeat split_one;
    first [ now left
          | right; left; split; [reflexivity|assumption]
          | right; right; left; split; [reflexivity|assumption]
          | right; right; right; split; [reflexivity|assumption]
          | absurd_case ].
Qed.

(** After a 404 on the primary URL the alternate is requested, once and
    next; the URL without season follows when the alternate does not
    answer 200. *)
Lemma ladder_after_404 (r : response) :
  http_get [] P = Some r -> status_code r = 404%Z -> A <> P ->
  (log = [P; A] \/ log = [P; A; N]) /\
  (forall r1, http_get [P] A = Some r1 -> status_code r1 <> 200%Z -> log = [P; A; N]).
Proof.
  intros Hr H404 HAP. run. rewrite Hr. norm. rewrite H404. norm.
  rewrite (proj2 (PyFacts.eqb_neq A P)) by assumption. norm.
  destruct (http_get [P] A) as [r1|]; norm.
  - split.
    + repeat split_one; first [now left | now right | absurd_case].
    + intros r1' Hr1 H200. inversion Hr1; subst r1'.
      repeat split_one; first [reflexivity | absurd_case].
  - split; [now left|]. intros r1 Hr1. discriminate.
Qed.

(** After any other status the alternate is not requested: what follows
    the primary URL, if anything, is the URL without season. *)
Lemma ladder_after_other (r : response) :
  http_get [] P = Some r -> status_code r <> 404%Z ->
  (log = [P] \/ log = [P; N]) /\
  (status_code r <> 200%Z -> N <> P -> log = [P; N]).
Proof.
  intros Hr H404. run. rewrite Hr. norm.
  rewrite (proj2 (Z.eqb_neq _ _) H404). norm.
  split.
  - repeat split_one; first [now left | now right | absurd_case].
  - intros H200 HNP.
    repeat split_one; first [reflexivity | absurd_case].
Qed.

(** No URL is requested twice when the primary URL is not the URL without
    season. *)
Lemma ladder_no_repeat : P <> N -> NoDup log.
Proof.
  intros HPN.
  destruct ladder_shape as [-> | [[-> H] | [[-> H] | [-> H]]]];
    repeat constructor; cbn; intuition congruence.
Qed.

End Ladder.

(** *** Enrichment from bio pages *)

Lemma enhance_player_enriched (p : Player) (log : list str) :
  enriched p (fst (enhance_player http_get p log)).
Proof.
  unfold enhance_player, enriched, get.
  destruct (Py.truthy (position p)) eqn:Hp; cbn [orb fst].
  - rewrite set_position_same. auto.
  - destruct (Py.truthy (url p)) eqn:Hu; cbn [negb fst].
    + destruct (http_get log (url p)) as [r|]; cbn [fst].
      * destruct (status_code r =? 200)%Z; cbn [negb fst].
        -- split; [reflexivity|]. intros [H | H]; discriminate.
        -- rewrite set_position_same. auto.
      * rewrite set_position_same. auto.
    + rewrite set_position_same. auto.
Qed.

(** A failed request leaves the record as it was and logs the request. *)
Lemma enhance_player_failure (p : Player) (log : list str) :
  position p = [] -> url p <> [] -> bio_fetch_fails http_get log p ->
  enhance_player http_get p log = (p, log ++ [url p]).
Proof.
  intros Hp Hu Hf. unfold enhance_player, get. rewrite Hp. cbn [Py.truthy orb].
  assert (Ht : Py.truthy (url p) = true) by (destruct (url p); [congruence|reflexivity]).
  rewrite Ht. cbn [negb].
  destruct Hf as [Hf | (r & Hf & Hr)]; rewrite Hf; [reflexivity|].
  rewrite (proj2 (Z.eqb_neq _ _) Hr). reflexivity.
Qed.

Lemma enhance_loop_app (l1 l2 : list Player) (log : list str) :
  enhance_loop http_get (l1 ++ l2) log =
  (fst (enhance_loop http_get l1 log)
   ++ fst (enhance_loop http_get l2 (snd (enhance_loop http_get l1 log))),
   snd (enhance_loop http_get l2 (snd (enhance_loop http_get l1 log)))).
Proof.
  revert log. induction l1 as [|p l1 IH]; intros log.
  - cbn. destruct (enhance_loop http_get l2 log); reflexivity.
  - cbn [app enhance_loop]. destruct (enhance_player http_get p log) as [p' log'].
    rewrite IH. destruct (enhance_loop http_get l1 log') as [o1 g1].
    cbn [fst snd]. reflexivity.
Qed.

Lemma enhance_loop_enriched (players : list Player) : forall log,
  Forall2 enriched players (fst (enhance_loop http_get players log)).
Proof.
  induction players as [|p players IH]; intros log; [constructor|].
  cbn [enhance_loop]. pose proof (enhance_player_enriched p log) as Hp.
  destruct (enhance_player http_get p log) as [p' log'].
  specialize (IH log'). destruct (enhance_loop http_get players log') as [o g].
  cbn [fst] in *. constructor; assumption.
Qed.

Lemma enriched_refl (players : list Player) : Forall2 enriched players players.
Proof.
  induction players as [|p players IH]; constructor; [|exact IH].
  split; [symmetry; apply set_position_same|reflexivity].
Qed.

Lemma enhance_all_enriched (players : list Player) (log : list str) :
  Forall2 enriched players
    (fst (_enhance_sidearm_positions_from_bios http_get players log)).
Proof.
  unfold _enhance_sidearm_positions_from_bios.
  destruct players as [|p players]; [constructor|].
  destruct (_ =? 0); [apply enriched_refl|apply enhance_loop_enriched].
Qed.

Lemma enhance_runs_loop (l1 l2 : list Player) (p : Player) (log : list str) :
  position p = [] ->
  _enhance_sidearm_positions_from_bios http_get (l1 ++ p :: l2) log
  = enhance_loop http_get (l1 ++ p :: l2) log.
Proof.
  intros Hp. unfold _enhance_sidearm_positions_from_bios.
  destruct (l1 ++ p :: l2) as [|q rest] eqn:E; [reflexivity|].
  rewrite <- E. rewrite filter_app. cbn [filter]. rewrite Hp. cbn [Py.truthy negb].
  rewrite length_app. cbn [length]. rewrite Nat.add_succ_r. reflexivity.
Qed.

Lemma needs_bio_positions_iff (players : list Player) :
  needs_bio_positions players = true <->
  players <> [] /\ length players < 5 * missing_positions players.
Proof.
  unfold needs_bio_positions. rewrite !andb_true_iff, !Nat.ltb_lt. split.
  - intros [[_ Hl] Hm]. split; [|assumption]. destruct players; [cbn in Hl; lia|discriminate].
  - intros [Hne Hm]. repeat split; try assumption; try lia.
    destruct players; [congruence|cbn; lia].
Qed.

End WithTransport.


Import Transports.

(** C9: in [scrape_team] the positions are enriched from bio pages exactly
    when the list is not empty and more than a fifth of its records have
    an empty position and a profile URL.  The enrichment returns the same
    records in the same order, each with at most its empty position filled
    in; a record already positioned or without URL is returned as it is.
    A request that raises or answers another status than 200 leaves its
    record as it is, and the records after it are enriched as usual. *)
Theorem bio_enrichment_trigger_and_isolation :
  (forall players,
     needs_bio_positions players = true <->
     players <> [] /\ length players < 5 * missing_positions players) /\
  (forall http_get extract kentucky (team_id : Z)
          (team_name base_url season division : str) (log log' : list str)
          (players : list Player),
     team_id <> 334%Z ->
     fetch_roster http_get extract team_id team_name base_url season division log
     = (Some (Some players), log') ->
     scrape_team http_get extract kentucky team_id team_name base_url season division log
     = if needs_bio_positions players
       then _enhance_sidearm_positions_from_bios http_get players log'
       else (players, log')) /\
  (forall http_get players log,
     Forall2 (enriched) players
       (fst (_enhance_sidearm_positions_from_bios http_get players log))) /\
  (forall http_get (l1 l2 : list Player) (p : Player) (log : list str),
     position p = [] -> url p <> [] ->
     bio_fetch_fails http_get (snd (enhance_loop http_get l1 log)) p ->
     let log1 := snd (enhance_loop http_get l1 log) ++ [url p] in
     _enhance_sidearm_positions_from_bios http_get (l1 ++ p :: l2) log
     = (fst (enhance_loop http_get l1 log) ++ p :: fst (enhance_loop http_get l2 log1),
        snd (enhance_loop http_get l2 log1))).
Proof.
  split; [|split; [|split]].
  - apply needs_bio_positions_iff.
  - intros http_get extract kentucky team_id team_name base_url season division
      log log' players Hid Hf.
    unfold scrape_team. rewrite Hf. rewrite (proj2 (Z.eqb_neq _ _) Hid). reflexivity.
  - intros. apply enhance_all_enriched.
  - intros http_get l1 l2 p log Hp Hu Hf log1.
    rewrite (enhance_runs_loop http_get l1 l2 p log Hp), enhance_loop_app.
    cbn [enhance_loop]. rewrite (enhance_player_failure http_get p _ Hp Hu Hf).
    fold log1. destruct (enhance_loop http_get l2 log1) as [o2 g2]. reflexivity.
Qed.

(** C6, as the code has it.  [P], [A] and [N] are the primary URL, the
    season-range alternate and the URL without season.  After a 404 on [P]
    the alternate is requested next, once, when it differs from [P], and
    [N] follows when the alternate does not answer 200.  After any other
    status the alternate is not requested; [N] follows a status other than
    200 unless it is [P] itself.  The alternate is never [N], and no URL is
    requested twice when [P] is not [N], as is the case under the default
    format for a season that is not empty. *)
Theorem roster_ladder_order :
  forall (http_get : list str -> str -> option response)
         (extract : node -> Z -> str -> str -> str -> str -> list Player)
         (team_id : Z) (team_name base_url season division : str),
    let P := primary_url team_id base_url season in
    let A := _build_season_range_url base_url season in
    let N := no_season_url base_url in
    let log :=
      snd (fetch_roster http_get extract team_id team_name base_url season division [])
    in
    (forall r, http_get [] P = Some r -> status_code r = 404%Z -> A <> P ->
       (log = [P; A] \/ log = [P; A; N]) /\
       (forall r1, http_get [P] A = Some r1 -> status_code r1 <> 200%Z ->
          log = [P; A; N])) /\
    (forall r, http_get [] P = Some r -> status_code r <> 404%Z ->
       (log = [P] \/ log = [P; N]) /\
       (status_code r <> 200%Z -> N <> P -> log = [P; N])) /\
    A <> N /\
    (P <> N -> NoDup log) /\
    (season <> [] ->
     URLBuilder.build_roster_url base_url season "default" <> N).
Proof.
  intros http_get extract team_id team_name base_url season division P A N log.
  pose proof (alternate_not_no_season base_url season) as HAN.
  pose proof (no_season_url_ends base_url) as HN.
  split; [|split; [|split; [|split]]].
  - intros r. apply (ladder_after_404 http_get P A N _ HAN HN).
  - intros r. apply (ladder_after_other http_get P A N _ HN).
  - exact HAN.
  - apply (ladder_no_repeat http_get P A N _ HAN HN).
  - apply default_primary_not_no_season.
Qed.

(** C6 as stated fails.  After a status 500 on the primary URL the
    season-range alternate is not requested at all; and with an empty
    season the primary URL is the URL without season, which is requested
    again after the alternate. *)
Lemma ladder_skips_alternate_and_repeats :
  (snd (fetch_roster (always 500) no_players 1 "Team"
          "https://example.edu/sports/womens-soccer" "2025" "I" [])
   = [ "https://example.edu/sports/womens-soccer/roster/2025" : str;
       "https://example.edu/sports/womens-soccer/roster/" : str ]
   /\ _build_season_range_url "https://example.edu/sports/womens-soccer" "2025"
      = "https://example.edu/sports/womens-soccer/2025-26/roster") /\
  snd (fetch_roster (always 404) no_players 1 "Team"
         "https://example.edu/sports/womens-soccer" [] "I" [])
  = [ "https://example.edu/sports/womens-soccer/roster/" : str;
      "https://example.edu/sports/womens-soccer//roster" : str;
      "https://example.edu/sports/womens-soccer/roster/" : str ].
Proof. repeat split; vm_compute; reflexivity. Qed.

End ScraperFacts.

(** ** Trimming and parts of a text *)

Module TrimFacts.

Lemma infix_refl (s : str) : infix s s.
Proof. exists [], []. rewrite app_nil_r. reflexivity. Qed.

Lemma infix_trans (a b c : str) : infix a b -> infix b c -> infix a c.
Proof.
  intros (x & y & ->) (u & v & ->). exists (u ++ x), (y ++ v).
  rewrite <- !app_assoc. reflexivity.
Qed.

Lemma infix_in (m s : str) (c : ascii) : infix m s -> In c m -> In c s.
Proof. intros (a & b & ->) H. apply in_or_app. right. apply in_or_app. now left. Qed.

Lemma slice_infix (s : str) (i n : nat) : infix (Re.slice s i n) s.
Proof.
  unfold Re.slice. exists (firstn i s), (skipn n (skipn i s)).
  rewrite firstn_skipn, firstn_skipn. reflexivity.
Qed.

Lemma lstrip_by_suffix (p : ascii -> bool) (s : str) :
  exists a, s = a ++ Py.lstrip_by p s.
Proof.
  induction s as [|c s (a & IH)]; [exists []; reflexivity|].
  cbn [Py.lstrip_by]. destruct (p c).
  - exists (c :: a). cbn. f_equal. exact IH.
  - exists []. reflexivity.
Qed.

Lemma lstrip_by_head (p : ascii -> bool) (s : str) :
  head_kept p (Py.lstrip_by p s) = true.
Proof.
  induction s as [|c s IH]; [reflexivity|].
  cbn [Py.lstrip_by]. destruct (p c) eqn:E; [exact IH|]. cbn. rewrite E. reflexivity.
Qed.

Lemma lstrip_by_fixed (p : ascii -> bool) (s : str) :
  head_kept p s = true -> Py.lstrip_by p s = s.
Proof.
  destruct s as [|c s]; [reflexivity|]. cbn. destruct (p c); [discriminate|reflexivity].
Qed.

Lemma lstrip_by_snoc (p : ascii -> bool) (l : str) (c : ascii) :
  p c = false -> exists l', Py.lstrip_by p (l ++ [c]) = l' ++ [c].
Proof.
  intros Hc. induction l as [|x l (l' & IH)].
  - exists []. cbn. rewrite Hc. reflexivity.
  - cbn [app Py.lstrip_by]. destruct (p x).
    + exists l'. exact IH.
    + exists (x :: l). reflexivity.
Qed.

Lemma rstrip_by_prefix (p : ascii -> bool) (s : str) :
  exists b, s = Py.rstrip_by p s ++ b.
Proof.
  unfold Py.rstrip_by. destruct (lstrip_by_suffix p (rev s)) as (a & H).
  exists (rev a). rewrite <- rev_app_distr, <- H, rev_involutive. reflexivity.
Qed.

Lemma rstrip_by_head (p : ascii -> bool) (s : str) :
  head_kept p s = true -> head_kept p (Py.rstrip_by p s) = true.
Proof.
  destruct s as [|c s]; [reflexivity|]. cbn [head_kept]. intros Hc.
  apply negb_true_iff in Hc. unfold Py.rstrip_by. cbn [rev].
  destruct (lstrip_by_snoc p (rev s) c Hc) as (l' & ->).
  rewrite rev_app_distr. cbn. rewrite Hc. reflexivity.
Qed.

Lemma rstrip_by_idem (p : ascii -> bool) (s : str) :
  Py.rstrip_by p (Py.rstrip_by p s) = Py.rstrip_by p s.
Proof.
  unfold Py.rstrip_by. rewrite rev_involutive.
  rewrite (lstrip_by_fixed p (Py.lstrip_by p (rev s))) by apply lstrip_by_head.
  reflexivity.
Qed.

(** [strip()] is idempotent. *)
Lemma strip_idem (s : str) : Py.strip (Py.strip s) = Py.strip s.
Proof.
  unfold Py.strip.
  rewrite (lstrip_by_fixed Py.is_space (Py.rstrip_by _ _))
    by (apply rstrip_by_head, lstrip_by_head).
  apply rstrip_by_idem.
Qed.

Lemma strip_infix (s : str) : infix (Py.strip s) s.
Proof.
  unfold Py.strip. destruct (lstrip_by_suffix Py.is_space s) as (a & Ha).
  destruct (rstrip_by_prefix Py.is_space (Py.lstrip_by Py.is_space s)) as (b & Hb).
  exists a, b. rewrite <- Hb. exact Ha.
Qed.

Lemma strip_nil : Py.strip [] = [].
Proof. reflexivity. Qed.

End TrimFacts.

(** ** Jersey numbers *)

Module JerseyFacts.

Import Re ReFacts ReGroup Jersey TrimFacts.

Lemma firstn_add {A : Type} (a b : nat) (s : list A) :
  firstn (a + b) s = firstn a s ++ firstn b (skipn a s).
Proof.
  revert s. induction a as [|a IH]; intros s; [reflexivity|].
  destruct s as [|x s]; cbn [Nat.add firstn skipn app].
  - rewrite firstn_nil. reflexivity.
  - f_equal. apply IH.
Qed.

Lemma star_all_in (q : ascii -> bool) (E : option ascii -> str -> list nat) :
  (forall p s n, In n (E p s) -> forallb q (firstn n s) = true) ->
  forall f p s n, In n (star_ends E f p s) -> forallb q (firstn n s) = true.
Proof.
  intros HE f. induction f as [|f IH]; intros p s n Hn.
  - destruct Hn as [<- | []]. reflexivity.
  - apply in_star_ends in Hn. destruct Hn as [-> | (a & b & Ha & Hb & ->)]; [reflexivity|].
    rewrite firstn_add, forallb_app. apply andb_true_intro. split.
    + exact (HE _ _ _ Ha).
    + exact (IH _ _ _ Hb).
Qed.

(** A match of a pattern whose classes are all within [q] holds characters
    of [q] only. *)
Lemma all_in_sound (q : ascii -> bool) (r : re) :
  all_in q r = true ->
  forall p s n, In n (ends r p s) -> forallb q (firstn n s) = true.
Proof.
  induction r as [|c|r1 IH1 r2 IH2|r1 IH1 r2 IH2|r IH| | | |r IH];
    cbn [all_in]; intros Hq p s n Hn.
  - destruct Hn as [<- | []]. reflexivity.
  - destruct s as [|x s]; cbn in Hn; [contradiction|].
    destruct (c x) eqn:Hc; cbn in Hn; [|contradiction].
    destruct Hn as [<- | []]. cbn. rewrite (subclass_sound _ _ Hq x Hc). reflexivity.
  - apply andb_prop in Hq. destruct Hq as [Hq1 Hq2].
    apply in_ends_seq in Hn. destruct Hn as (a & b & Ha & Hb & ->).
    rewrite firstn_add, forallb_app. apply andb_true_intro. split; eauto.
  - apply andb_prop in Hq. destruct Hq as [Hq1 Hq2].
    cbn in Hn. apply in_app_iff in Hn. destruct Hn; eauto.
  - cbn [ends] in Hn. eapply star_all_in; eauto.
  - cbn [ends] in Hn. destruct (xorb _ _); cbn in Hn; [|contradiction].
    destruct Hn as [<- | []]. reflexivity.
  - destruct p; cbn in Hn; [contradiction|]. destruct Hn as [<- | []]. reflexivity.
  - destruct s as [|x [|y s]]; cbn [ends] in Hn; try contradiction.
    + destruct Hn as [<- | []]. reflexivity.
    + destruct (Ascii.eqb x Py.newline); cbn in Hn; [|contradiction].
      destruct Hn as [<- | []]. reflexivity.
  - cbn [ends] in Hn. destruct (ends r p s); cbn in Hn; [contradiction|].
    destruct Hn as [<- | []]. reflexivity.
Qed.

Lemma in_ends_group_post (pre grp post : re) (p : option ascii) (s : str) (a b : nat) :
  In (a, b) (ends_group_post pre grp post p s) ->
  exists m, b = a + m /\ In m (ends grp (prev_after p s a) (skipn a s)).
Proof.
  unfold ends_group_post. rewrite in_flat_map. intros (a' & _ & H).
  apply in_flat_map in H. destruct H as (m & Hm & H).
  destruct (ends post _ _); [contradiction|].
  destruct H as [H | []]. inversion H; subst. exists m. auto.
Qed.

(** Group 1 of a match is a part of the text made of characters that the
    group's classes allow. *)
Lemma search_group_post_chars (q : ascii -> bool) (pre grp post : re) (t g : str) :
  all_in q grp = true ->
  search_group_post pre grp post t = Some g ->
  forallb q g = true /\ infix g t.
Proof.
  intros Hq. unfold search_group_post.
  destruct (scan _ None t 0) as [[i [a b]]|] eqn:Hs; [|discriminate].
  intros H. inversion H; subst g. clear H. split; [|apply slice_infix].
  apply (scan_some _ t (length t) 0) in Hs; [|cbn; lia|lia].
  destruct Hs as (_ & Hhd & _).
  destruct (ends_group_post pre grp post (prev_at t i) (skipn i t)) as [|ab l] eqn:He;
    [discriminate|].
  cbn in Hhd. inversion Hhd; subst ab.
  assert (Hin : In (a, b) (ends_group_post pre grp post (prev_at t i) (skipn i t)))
    by (rewrite He; now left).
  apply in_ends_group_post in Hin. destruct Hin as (m & -> & Hm).
  apply (all_in_sound q grp Hq) in Hm.
  unfold slice. replace (a + m - a) with m by lia.
  rewrite skipn_skipn in Hm. rewrite (Nat.add_comm i a). exact Hm.
Qed.

Lemma jersey_groups_digits :
  forallb (fun pgp : re * re * re => all_in Py.is_digit (snd (fst pgp))) jersey_patterns
  = true.
Proof. vm_compute. reflexivity. Qed.

Lemma first_group_post_chars (q : ascii -> bool) (pats : list (re * re * re)) (t g : str) :
  forallb (fun pgp : re * re * re => all_in q (snd (fst pgp))) pats = true ->
  first_group_post pats t = Some g ->
  forallb q g = true /\ infix g t.
Proof.
  induction pats as [|[[pre grp] post] pats IH]; intros Hok H; [discriminate|].
  cbn [forallb fst snd] in Hok. apply andb_prop in Hok. destruct Hok as [Hg Hok].
  cbn [first_group_post] in H.
  destruct (search_group_post pre grp post t) as [g'|] eqn:Hs.
  - inversion H; subst g'. eapply search_group_post_chars; eassumption.
  - apply IH; assumption.
Qed.



(** *** The labelled form *)

Lemma ends_lit_prefix (w : str) : forall p z, ends (lit w) p (w ++ z) = [length w].
Proof.
  induction w as [|c w IH]; intros p z; [reflexivity|].
  cbn [lit ends app chr_is]. rewrite Ascii.eqb_refl. cbn [flat_map prev_after skipn].
  rewrite app_nil_r, IH. reflexivity.
Qed.

Lemma hd_error_map {A B : Type} (f : A -> B) (l : list A) :
  hd_error (map f l) = option_map f (hd_error l).
Proof. destruct l; reflexivity. Qed.

Lemma star_ends_S (E : option ascii -> str -> list nat) (f : nat)
    (p : option ascii) (s : str) :
  star_ends E (S f) p s =
  flat_map
    (fun n =>
       match n with
       | O => []
       | S _ => map (Nat.add n) (star_ends E f (prev_after p s n) (skipn n s))
       end)
    (E p s) ++ [0].
Proof. reflexivity. Qed.

Lemma star_ends_class_head (c : ascii -> bool) (y : str) :
  head_kept c y = true ->
  forall run f p,
    forallb c run = true -> length (run ++ y) <= f ->
    hd_error (star_ends (ends (Chr c)) f p (run ++ y)) = Some (length run).
Proof.
  intros Hy. induction run as [|x run IH]; intros f p Hrun Hf.
  - cbn [app length]. destruct f as [|f]; [reflexivity|].
    rewrite star_ends_S.
    replace (ends (Chr c) p y) with (@nil nat); [reflexivity|].
    destruct y as [|b y]; [reflexivity|].
    cbn in Hy. apply negb_true_iff in Hy. cbn. rewrite Hy. reflexivity.
  - cbn [forallb] in Hrun. apply andb_prop in Hrun. destruct Hrun as [Hx Hrun].
    destruct f as [|f]; [cbn in Hf; lia|].
    rewrite star_ends_S.
    replace (ends (Chr c) p ((x :: run) ++ y)) with [1]
      by (cbn; rewrite Hx; reflexivity).
    cbn [flat_map prev_after skipn nth_error app]. rewrite app_nil_r.
    assert (Hf' : length (run ++ y) <= f) by (cbn in Hf; lia).
    pose proof (IH f (Some x) Hrun Hf') as H.
    destruct (star_ends (ends (Chr c)) f (Some x) (run ++ y)) as [|n l];
      [discriminate|].
    cbn in H. inversion H; subst n. reflexivity.
Qed.

(** A greedy repetition of a class takes the whole run of the class. *)
Lemma star_class_head (c : ascii -> bool) (run y : str) (p : option ascii) :
  forallb c run = true -> head_kept c y = true ->
  hd_error (ends (Star (Chr c)) p (run ++ y)) = Some (length run).
Proof.
  intros Hrun Hy. cbn [ends]. apply star_ends_class_head; auto.
Qed.

Lemma plus_class_head (c : ascii -> bool) (run y : str) (p : option ascii) :
  run <> [] -> forallb c run = true -> head_kept c y = true ->
  hd_error (ends (Plus (Chr c)) p (run ++ y)) = Some (length run).
Proof.
  intros Hne Hrun Hy. destruct run as [|x run]; [congruence|].
  cbn [forallb] in Hrun. apply andb_prop in Hrun. destruct Hrun as [Hx Hrun].
  unfold Plus. cbn [ends app]. rewrite Hx. cbn [flat_map prev_after skipn nth_error].
  rewrite app_nil_r, hd_error_map.
  pose proof (star_class_head c run y (Some x) Hrun Hy) as H. cbn [ends] in H.
  rewrite H. reflexivity.
Qed.

Lemma hd_error_flat_map {A B : Type} (f : A -> list B) (l : list A) (x : A) (y : B) :
  hd_error l = Some x -> hd_error (f x) = Some y -> hd_error (flat_map f l) = Some y.
Proof.
  destruct l as [|x' l]; [discriminate|]. cbn. intros H. inversion H; subst x'.
  destruct (f x); [discriminate|]. cbn. auto.
Qed.

Lemma digit_not_separator :
  subclass Py.is_digit (fun c => negb (Ascii.eqb c ":" || Py.is_space c)) = true.
Proof. vm_compute. reflexivity. Qed.

Lemma space_not_J :
  subclass Py.is_space (fun c => negb (Ascii.eqb "J" c)) = true.
Proof. vm_compute. reflexivity. Qed.

(** The first pattern at the start of [label sep d rest]. *)
Lemma labelled_group_here (p : option ascii) (sep d rest : str) :
  sep <> [] -> forallb (fun c => Ascii.eqb c ":" || Py.is_space c) sep = true ->
  d <> [] -> forallb Py.is_digit d = true -> head_kept Py.is_digit rest = true ->
  hd_error
    (ends_group_post (Seq (lit label) (Plus colon_or_space)) (Plus digit) Eps p
       (label ++ sep ++ d ++ rest))
  = Some (length label + length sep, length label + length sep + length d).
Proof.
  intros Hsep1 Hsep Hd1 Hd Hrest. unfold ends_group_post.
  assert (Hdigit_head : head_kept (fun c => Ascii.eqb c ":" || Py.is_space c) (d ++ rest) = true).
  { destruct d as [|x d]; [congruence|]. cbn [app head_kept].
    cbn [forallb] in Hd. apply andb_prop in Hd. destruct Hd as [Hx _].
    exact (subclass_sound _ _ digit_not_separator x Hx). }
  assert (Hpre : hd_error (ends (Seq (lit label) (Plus colon_or_space)) p
                             (label ++ sep ++ d ++ rest))
                 = Some (length label + length sep)).
  { cbn [ends]. rewrite ends_lit_prefix. cbn [flat_map]. rewrite app_nil_r, hd_error_map.
    rewrite skipn_app, skipn_all, Nat.sub_diag. cbn [app skipn].
    unfold colon_or_space. rewrite (plus_class_head _ sep (d ++ rest)) by assumption.
    reflexivity. }
  apply (hd_error_flat_map _ _ _ _ Hpre).
  assert (Hskip : skipn (length label + length sep) (label ++ sep ++ d ++ rest) = d ++ rest).
  { rewrite (Nat.add_comm (length label)), <- skipn_skipn.
    rewrite skipn_app, skipn_all, Nat.sub_diag. cbn [app skipn].
    rewrite skipn_app, skipn_all, Nat.sub_diag. reflexivity. }
  rewrite Hskip.
  apply (hd_error_flat_map _ _ (length d)).
  - unfold digit. apply plus_class_head; assumption.
  - cbn [ends]. reflexivity.
Qed.


Lemma ends_lit_mismatch (c0 : ascii) (w : str) (p : option ascii) (x : ascii) (z : str) :
  Ascii.eqb c0 x = false -> ends (lit (c0 :: w)) p (x :: z) = [].
Proof. intros H. cbn [lit ends chr_is]. rewrite H. reflexivity. Qed.

Lemma no_label_at_space (grp post : re) (p : option ascii) (x : ascii) (z : str) :
  Py.is_space x = true ->
  ends_group_post (Seq (lit label) (Plus colon_or_space)) grp post p (x :: z) = [].
Proof.
  intros Hx. unfold ends_group_post.
  replace (ends (Seq (lit label) (Plus colon_or_space)) p (x :: z)) with (@nil nat);
    [reflexivity|].
  pose proof (subclass_sound _ _ space_not_J x Hx) as HJ. apply negb_true_iff in HJ.
  change label with ("J"%char :: list_ascii_of_string "ersey Number").
  cbn [ends]. rewrite ends_lit_mismatch by exact HJ. reflexivity.
Qed.

Lemma scan_past_spaces {X : Type} (try : option ascii -> str -> option X)
    (ws s : str) (v : X) :
  forallb Py.is_space ws = true ->
  (forall p x z, Py.is_space x = true -> try p (x :: z) = None) ->
  (forall p, try p s = Some v) ->
  forall p i, scan try p (ws ++ s) i = Some (i + length ws, v).
Proof.
  intros Hws Hno Hv. induction ws as [|x ws IH]; intros p i.
  - cbn [app length]. rewrite Nat.add_0_r. apply scan_here, Hv.
  - cbn [forallb] in Hws. apply andb_prop in Hws. destruct Hws as [Hx Hws].
    cbn [app scan]. rewrite (Hno p x (ws ++ s) Hx), (IH Hws).
    cbn [length]. f_equal. f_equal. lia.
Qed.



End JerseyFacts.

(** ** More on the field extractors *)

Module FieldFacts.

Import Re ReFacts FieldExtractors TrimFacts.

Lemma search_group_infix (pre grp : re) (t g : str) :
  search_group pre grp t = Some g -> infix g t.
Proof.
  unfold search_group. destruct (scan _ None t 0) as [[i [a b]]|]; [|discriminate].
  intros H. inversion H. apply slice_infix.
Qed.

Lemma first_group_infix (pats : list (re * re)) (t g : str) :
  first_group pats t = Some g -> infix g t.
Proof.
  induction pats as [|[pre grp] pats IH]; [discriminate|]. cbn [first_group].
  destruct (search_group pre grp t) as [g'|] eqn:E; [|exact IH].
  intros H. inversion H; subst g'. eapply search_group_infix; eassumption.
Qed.

(** The height read from a text is a part of that text, with no blank at
    either end. *)
Theorem extract_height_part_of_text (text : str) :
  infix (extract_height text) text /\ trimmed (extract_height text).
Proof.
  unfold extract_height, trimmed. destruct text as [|c text].
  - split; [apply infix_refl|reflexivity].
  - cbn [Py.truthy negb].
    destruct (first_group height_patterns (c :: text)) as [g|] eqn:Hg.
    + split; [|apply strip_idem].
      eapply infix_trans; [apply strip_infix|]. eapply first_group_infix; eassumption.
    + split; [|reflexivity]. exists [], (c :: text). reflexivity.
Qed.

Lemma lstrip_by_all (p : ascii -> bool) (s : str) :
  forallb p s = true -> Py.lstrip_by p s = [].
Proof.
  induction s as [|c s IH]; [reflexivity|]. cbn. intros H.
  apply andb_prop in H. destruct H as [Hc Hs]. rewrite Hc. auto.
Qed.

Lemma strip_blank (s : str) : forallb Py.is_space s = true -> Py.strip s = [].
Proof. intros H. unfold Py.strip. rewrite lstrip_by_all by assumption. reflexivity. Qed.

(** The cleaned text has no blank at either end, and a text of blanks only
    is cleaned to the empty text. *)
Theorem clean_text_trimmed :
  (forall text, trimmed (clean_text text)) /\
  (forall text, forallb Py.is_space text = true -> clean_text text = []).
Proof.
  split.
  - intros text. unfold clean_text, trimmed. destruct (Py.truthy text); [|reflexivity].
    cbn [negb]. unfold clean_field_labels.
    destruct (Py.truthy (sub bio_noise [] _)) eqn:E; cbn [negb].
    + unfold label_patterns. cbn [fold_left]. apply strip_idem.
    + destruct (sub bio_noise [] _); [reflexivity|discriminate].
  - intros text H. unfold clean_text. destruct (Py.truthy text); [|reflexivity].
    cbn [negb]. rewrite (strip_blank text H). reflexivity.
Qed.

Lemma contains_char (c : ascii) (t : str) :
  Py.contains [c] t = false -> ~ In c t.
Proof.
  induction t as [|x t IH]; intros H; [intros []|].
  cbn [Py.contains Py.startswith] in H. apply orb_false_elim in H.
  destruct H as [Hx Ht]. rewrite andb_true_r in Hx.
  intros [-> | Hin]; [rewrite Ascii.eqb_refl in Hx; discriminate|].
  exact (IH Ht Hin).
Qed.

Lemma split_parts_no_separator (c : ascii) (t : str) :
  Forall (fun part => ~ In c part) (Py.split c t).
Proof.
  induction t as [|x t IH]; [repeat constructor; intros []|].
  cbn [Py.split]. destruct (Ascii.eqb x c) eqn:E.
  - constructor; [intros []|exact IH].
  - destruct (Py.split c t) as [|part parts]; [repeat constructor|].
    + intros [-> | []]. rewrite Ascii.eqb_refl in E. discriminate.
    + inversion IH; subst. constructor; [|assumption].
      intros [-> | Hin]; [rewrite Ascii.eqb_refl in E; discriminate|contradiction].
Qed.

Lemma clean_field_nil : clean_field [].
Proof. split; [reflexivity|intros []]. Qed.

Lemma clean_field_parts (t : str) :
  Forall clean_field (map Py.strip (Py.split "/" t)).
Proof.
  apply Forall_map. eapply Forall_impl; [|apply split_parts_no_separator].
  intros part Hno. split; [apply strip_idem|].
  intros Hin. apply Hno. eapply infix_in; [apply strip_infix|exact Hin].
Qed.

Lemma clean_field_nth (parts : list str) (k : nat) :
  Forall clean_field parts -> clean_field (nth k parts []).
Proof.
  intros H. destruct (nth_in_or_default k parts []) as [Hin | ->].
  - rewrite Forall_forall in H. auto.
  - apply clean_field_nil.
Qed.

(** Every field that [parse_hometown_school] returns is trimmed and holds
    no slash. *)
Theorem parse_hometown_school_fields_clean (text : str) :
  clean_field (hometown (parse_hometown_school text)) /\
  clean_field (high_school (parse_hometown_school text)) /\
  clean_field (previous_school (parse_hometown_school text)).
Proof.
  unfold parse_hometown_school. destruct (Py.truthy text); cbn [negb];
    [|repeat split; apply clean_field_nil].
  destruct (Py.contains "/" (hometown_text text)) eqn:Hc.
  - pose proof (clean_field_parts (hometown_text text)) as Hp.
    set (parts := map Py.strip (Py.split "/" (hometown_text text))) in *.
    destruct (1 <? length parts), (2 <? length parts);
      try destruct (looks_like_college (nth 1 parts []));
      cbn [hometown high_school previous_school];
      repeat split; first [apply clean_field_nil | apply clean_field_nth, Hp].
  - cbn [hometown high_school previous_school].
    split; [|split; apply clean_field_nil].
    split; [apply strip_idem|]. apply contains_char. exact Hc.
Qed.

End FieldFacts.

(** ** Positions: fixed points and letter case *)

Module PositionCaseFacts.

Import Re ReFacts FieldExtractors PositionFacts.

Lemma extract_position_in_codes (text : str) :
  In (extract_position text) position_codes.
Proof.
  destruct (search position_re (Py.strip text)) as [[j n]|] eqn:Hs.
  - destruct (extract_position_match text j n Hs) as (w & code & _ & _ & _ & Hc & ->).
    exact Hc.
  - rewrite (extract_position_nomatch text Hs), position_fallback_cases.
    repeat match goal with |- context [if ?b then _ else _] => destruct b end;
      cbn; auto 6.
Qed.

Lemma codes_fixed :
  forallb (fun c => Py.eqb (extract_position c) c) position_codes = true.
Proof. vm_compute. reflexivity. Qed.


(** *** Letter case *)

Lemma class_case_blind_sound (p : ascii -> bool) :
  class_case_blind p = true -> forall c, p (Py.upper_char c) = p c.
Proof.
  unfold class_case_blind. rewrite forallb_forall. intros H c.
  apply eqb_prop. apply H.
  unfold all_ascii. rewrite <- (ascii_nat_embedding c). apply in_map.
  apply in_seq. pose proof (nat_ascii_bounded c). lia.
Qed.

Lemma word_case_blind : class_case_blind Py.is_word = true.
Proof. vm_compute. reflexivity. Qed.

Lemma space_case_blind : class_case_blind Py.is_space = true.
Proof. vm_compute. reflexivity. Qed.

Lemma upper_char_idem :
  forallb (fun c => Ascii.eqb (Py.upper_char (Py.upper_char c)) (Py.upper_char c))
    all_ascii = true.
Proof. vm_compute. reflexivity. Qed.

Lemma upper_idem (s : str) : Py.upper (Py.upper s) = Py.upper s.
Proof.
  unfold Py.upper. rewrite map_map. apply map_ext. intros c.
  pose proof upper_char_idem as H. rewrite forallb_forall in H.
  apply Ascii.eqb_eq. apply H.
  unfold all_ascii. rewrite <- (ascii_nat_embedding c). apply in_map.
  apply in_seq. pose proof (nat_ascii_bounded c). lia.
Qed.

Lemma word_opt_up (p : option ascii) : word_opt (up p) = word_opt p.
Proof. destruct p as [c|]; [|reflexivity]. apply (class_case_blind_sound _ word_case_blind). Qed.

Lemma skipn_upper (n : nat) (s : str) : skipn n (Py.upper s) = Py.upper (skipn n s).
Proof. unfold Py.upper. apply skipn_map. Qed.

Lemma prev_after_upper (p : option ascii) (s : str) (n : nat) :
  prev_after (up p) (Py.upper s) n = up (prev_after p s n).
Proof.
  destruct n as [|n]; [reflexivity|]. cbn [prev_after]. unfold Py.upper, up.
  apply nth_error_map.
Qed.

Lemma hd_error_upper (s : str) : hd_error (Py.upper s) = up (hd_error s).
Proof. destruct s; reflexivity. Qed.

Local Abbreviation upper_ok E := (forall p s, E (up p) (Py.upper s) = E p s).

Lemma star_ends_upper (E : option ascii -> str -> list nat) :
  upper_ok E -> forall f, upper_ok (star_ends E f).
Proof.
  intros HE f. induction f as [|f IH]; intros p s; [reflexivity|].
  cbn [star_ends]. rewrite HE. f_equal. apply flat_map_ext. intros [|n]; [reflexivity|].
  rewrite prev_after_upper, skipn_upper, IH. reflexivity.
Qed.

(** A case-blind pattern matches the upper-cased text as it matches the
    text. *)
Lemma ends_upper (r : re) : case_blind r = true -> upper_ok (ends r).
Proof.
  induction r as [|c|r1 IH1 r2 IH2|r1 IH1 r2 IH2|r IH| | | |r IH];
    cbn [case_blind]; intros Hb; try discriminate; intros p s.
  - reflexivity.
  - destruct s as [|x s]; [reflexivity|]. cbn.
    rewrite (class_case_blind_sound c Hb). reflexivity.
  - apply andb_prop in Hb. destruct Hb as [H1 H2].
    cbn [ends]. rewrite (IH1 H1). apply flat_map_ext. intros n.
    rewrite prev_after_upper, skipn_upper, (IH2 H2). reflexivity.
  - apply andb_prop in Hb. destruct Hb as [H1 H2].
    cbn [ends]. rewrite (IH1 H1), (IH2 H2). reflexivity.
  - cbn [ends]. unfold Py.upper at 1. rewrite length_map.
    apply star_ends_upper. apply IH, Hb.
  - cbn [ends]. rewrite hd_error_upper, !word_opt_up. reflexivity.
Qed.

Lemma scan_upper {X : Type} (try : option ascii -> str -> option X) :
  (forall p s, try (up p) (Py.upper s) = try p s) ->
  forall s p i, scan try (up p) (Py.upper s) i = scan try p s i.
Proof.
  intros H s. induction s as [|c s IH]; intros p i.
  - cbn [Py.upper map scan]. rewrite <- (H p []). reflexivity.
  - cbn [Py.upper map scan]. fold (Py.upper s).
    change (Py.upper_char c :: Py.upper s) with (Py.upper (c :: s)).
    rewrite H. destruct (try p (c :: s)); [reflexivity|].
    apply (IH (Some c)).
Qed.

Lemma lstrip_upper (s : str) :
  Py.lstrip_by Py.is_space (Py.upper s) = Py.upper (Py.lstrip_by Py.is_space s).
Proof.
  induction s as [|c s IH]; [reflexivity|]. cbn [Py.upper map Py.lstrip_by].
  rewrite (class_case_blind_sound _ space_case_blind c).
  destruct (Py.is_space c); [exact IH|reflexivity].
Qed.

Lemma strip_upper (s : str) : Py.strip (Py.upper s) = Py.upper (Py.strip s).
Proof.
  unfold Py.strip, Py.rstrip_by. rewrite lstrip_upper.
  unfold Py.upper at 1. rewrite <- map_rev. fold (Py.upper (rev (Py.lstrip_by Py.is_space s))).
  rewrite lstrip_upper. unfold Py.upper. rewrite map_rev. reflexivity.
Qed.

Lemma position_re_case_blind : case_blind position_re = true.
Proof. vm_compute. reflexivity. Qed.

Lemma search_upper (s : str) :
  search position_re (Py.upper s) = search position_re s.
Proof.
  unfold search. apply (scan_upper _ (fun p t => f_equal (@hd_error nat)
    (ends_upper position_re position_re_case_blind p t)) s None 0).
Qed.

Lemma slice_upper (s : str) (i n : nat) :
  slice (Py.upper s) i n = Py.upper (slice s i n).
Proof. unfold slice. rewrite skipn_upper. unfold Py.upper. apply firstn_map. Qed.

Lemma extract_position_upper (text : str) :
  extract_position (Py.upper text) = extract_position text.
Proof.
  unfold extract_position. destruct text as [|c text]; [reflexivity|].
  cbn [Py.upper map Py.truthy negb]. change (Py.upper_char c :: map Py.upper_char text)
    with (Py.upper (c :: text)).
  rewrite strip_upper. unfold search_text. rewrite search_upper.
  destruct (search position_re (Py.strip (c :: text))) as [[i n]|].
  - rewrite slice_upper, upper_idem. reflexivity.
  - rewrite upper_idem. reflexivity.
Qed.



End PositionCaseFacts.

(** ** What the cleaning of a text keeps *)

Module CleanFacts.

Import Re FieldExtractors.

Lemma infix_length (m s : str) : infix m s -> length m <= length s.
Proof. intros (a & b & ->). rewrite !length_app. lia. Qed.

Lemma sub_go_length (r : re) (repl : str) (s : str) : forall prev skip,
  length repl <= 1 -> length (sub_go r repl prev s skip) <= length s.
Proof.
  induction s as [|c s IH]; intros prev skip Hr; cbn [sub_go length]; [lia|].
  destruct skip as [|k]; [|specialize (IH (Some c) k Hr); lia].
  destruct (ends r prev (c :: s)) as [|[|n] l].
  - cbn [length]. specialize (IH (Some c) 0 Hr). lia.
  - cbn [length]. specialize (IH (Some c) 0 Hr). lia.
  - rewrite length_app. specialize (IH (Some c) n Hr). lia.
Qed.

Lemma sub_go_chars (r : re) (repl : str) (x : ascii) (s : str) : forall prev skip,
  In x (sub_go r repl prev s skip) -> In x repl \/ In x s.
Proof.
  induction s as [|c s IH]; intros prev skip H; cbn [sub_go] in H; [destruct H|].
  destruct skip as [|k].
  - destruct (ends r prev (c :: s)) as [|[|n] l].
    + destruct H as [H | H]; [right; now left|].
      destruct (IH _ _ H); [now left|right; now right].
    + destruct H as [H | H]; [right; now left|].
      destruct (IH _ _ H); [now left|right; now right].
    + apply in_app_or in H. destruct H as [H | H]; [now left|].
      destruct (IH _ _ H); [now left|right; now right].
  - destruct (IH _ _ H); [now left|right; now right].
Qed.

Lemma strip_length (s : str) : length (Py.strip s) <= length s.
Proof. apply infix_length, TrimFacts.strip_infix. Qed.

Lemma strip_chars (x : ascii) (s : str) : In x (Py.strip s) -> In x s.
Proof. apply TrimFacts.infix_in, TrimFacts.strip_infix. Qed.

Lemma strip_patterns (pats : list re) : forall text,
  length (fold_left (fun t p => Py.strip (sub p [] t)) pats text) <= length text /\
  (forall x, In x (fold_left (fun t p => Py.strip (sub p [] t)) pats text) -> In x text).
Proof.
  induction pats as [|p pats IH]; intros text; cbn [fold_left]; [split; auto|].
  destruct (IH (Py.strip (sub p [] text))) as [Hl Hc]. split.
  - pose proof (strip_length (sub p [] text)).
    pose proof (sub_go_length p [] text None 0 ltac:(cbn; lia)). unfold sub in *. lia.
  - intros x Hx. apply Hc, strip_chars in Hx. unfold sub in Hx.
    apply sub_go_chars in Hx. destruct Hx as [[] | Hx]. exact Hx.
Qed.

(** Removing the labels of a field adds nothing: the result is not longer
    than the text and has no character that the text has not. *)
Lemma clean_field_labels_keeps (text : str) :
  length (clean_field_labels text) <= length text /\
  (forall x, In x (clean_field_labels text) -> In x text).
Proof.
  unfold clean_field_labels. destruct (negb (Py.truthy text)); [split; auto|].
  apply strip_patterns.
Qed.

(** The cleaned text is not longer than the text, and each of its
    characters is a character of the text or a blank. *)
Theorem clean_text_adds_nothing (text : str) :
  length (clean_text text) <= length text /\
  (forall x, In x (clean_text text) -> In x text \/ x = " "%char).
Proof.
  unfold clean_text. destruct (negb (Py.truthy text)); [split; [cbn; lia|intros x []]|].
  cbv zeta.
  destruct (clean_field_labels_keeps (sub bio_noise [] (sub (Plus space) " " (Py.strip text))))
    as [Hl Hc].
  split.
  - pose proof (sub_go_length bio_noise [] (sub (Plus space) " " (Py.strip text)) None 0
                  ltac:(cbn; lia)).
    pose proof (sub_go_length (Plus space) " " (Py.strip text) None 0 ltac:(cbn; lia)).
    pose proof (strip_length text). unfold sub in *. lia.
  - intros x Hx. apply Hc in Hx. unfold sub in Hx at 1.
    apply sub_go_chars in Hx. destruct Hx as [[] | Hx].
    unfold sub in Hx. apply sub_go_chars in Hx. destruct Hx as [Hx | Hx].
    + right. cbn in Hx. destruct Hx as [Hx | []]. symmetry. exact Hx.
    + left. apply strip_chars. exact Hx.
Qed.

End CleanFacts.

(** ** More on the URL builder and the team configuration *)

Module URLFormatFacts.

Import URLBuilder TeamConfig StandardScraper FieldFacts.

Lemma contains_char_in (c : ascii) (t : str) : ~ In c t -> Py.contains [c] t = false.
Proof.
  induction t as [|x t IH]; intros H; [reflexivity|].
  cbn [Py.contains Py.startswith]. rewrite andb_true_r.
  destruct (Ascii.eqb_spec c x) as [->|Hne]; [exfalso; apply H; now left|].
  cbn [orb]. apply IH. intros Hin. apply H. now right.
Qed.

Lemma contains_char_found (c : ascii) (a b : str) : Py.contains [c] (a ++ c :: b) = true.
Proof.
  induction a as [|x a IH]; cbn [app Py.contains Py.startswith].
  - rewrite Ascii.eqb_refl. reflexivity.
  - rewrite IH. apply orb_true_r.
Qed.

Lemma split_at_first (c : ascii) (a b : str) :
  ~ In c a -> Py.split c (a ++ c :: b) = a :: Py.split c b.
Proof.
  induction a as [|x a IH]; intros H.
  - cbn [app Py.split]. rewrite Ascii.eqb_refl. reflexivity.
  - cbn [app Py.split].
    destruct (Ascii.eqb_spec x c) as [->|Hne]; [exfalso; apply H; now left|].
    rewrite IH by (intros Hin; apply H; now right). reflexivity.
Qed.

Lemma split_none (c : ascii) (b : str) : ~ In c b -> Py.split c b = [b].
Proof.
  intros H. apply HometownFacts.split_no_separator. apply contains_char_in. exact H.
Qed.

(** The year of the season for the two formats that want the end year: a
    season without dash is taken as it is; of a season [a-b] the part [b]
    is taken, with [20] before it when it has two characters. *)
Lemma end_year_cases :
  (forall season : str, ~ In "-"%char season -> end_year season = season) /\
  (forall a b : str,
     ~ In "-"%char a -> ~ In "-"%char b ->
     end_year (a ++ "-" ++ b) = if length b =? 2 then "20" ++ b else b).
Proof.
  split.
  - intros season H. unfold end_year.
    change (list_ascii_of_string "-") with ["-"%char].
    rewrite contains_char_in by assumption. reflexivity.
  - intros a b Ha Hb. unfold end_year.
    change (list_ascii_of_string "-") with ["-"%char]. cbn [app].
    rewrite contains_char_found, split_at_first, split_none by assumption.
    reflexivity.
Qed.



(** A format that is none of the known ones gives the default URL. *)
Theorem unknown_format_is_default (base season fmt : str) :
  ~ In fmt known_formats ->
  build_roster_url base season fmt = build_roster_url base season "default".
Proof.
  intros H. unfold build_roster_url. cbv zeta.
  destruct (Py.contains "/roster/" (Py.rstrip_char "/" base)); [reflexivity|].
  change (Py.eqb "default" "default") with true. cbv iota.
  repeat match goal with
         | |- context [Py.eqb fmt ?k] =>
             let E := fresh "E" in
             destruct (Py.eqb fmt k) eqn:E;
             [apply PyFacts.eqb_eq in E; exfalso; apply H; rewrite E; cbn; tauto|]
         end.
  reflexivity.
Qed.

Lemma unknown_format_is_default_witness :
  build_roster_url "https://example.edu/sports/wsoc" "2025" "sidearm"
  = build_roster_url "https://example.edu/sports/wsoc" "2025" "default".
Proof.
  apply unknown_format_is_default. intros H. cbn in H.
  repeat (destruct H as [H | H]; [discriminate|]). exact H.
Defined.

Lemma find_config_in (team_id : Z) (table : list (Z * config)) (c : config) :
  find_config team_id table = Some c -> In c (map snd table).
Proof.
  induction table as [|[k c'] table IH]; [discriminate|]. cbn [find_config map snd].
  destruct (k =? team_id)%Z.
  - intros H. inversion H. now left.
  - intros H. right. auto.
Qed.

Lemma configured_formats_known :
  forallb (fun c => existsb (Py.eqb (url_format c)) known_formats)
    (map snd TEAM_CONFIGS) = true.
Proof. vm_compute. reflexivity. Qed.

(** Whatever the team and its URL, [get_url_format] names a format that
    [build_roster_url] knows. *)
Theorem get_url_format_known (team_id : Z) (team_url : str) :
  In (get_url_format team_id team_url) known_formats.
Proof.
  unfold get_url_format. destruct (find_config team_id TEAM_CONFIGS) as [c|] eqn:E.
  - apply find_config_in in E. pose proof configured_formats_known as H.
    rewrite forallb_forall in H. specialize (H c E).
    apply existsb_exists in H. destruct H as (k & Hk & He).
    apply PyFacts.eqb_eq in He. rewrite He. exact Hk.
  - repeat match goal with |- context [if ?b then _ else _] => destruct b end;
      cbn; tauto.
Qed.

(** *** The alternate of a season-range team *)

Lemma startswith_split (p s : str) :
  Py.startswith p s = true -> exists z, s = p ++ z.
Proof.
  revert s. induction p as [|x p IH]; intros s H; [exists s; reflexivity|].
  destruct s as [|y s]; [discriminate|]. cbn in H. apply andb_prop in H.
  destruct H as [Hxy Hs]. apply Ascii.eqb_eq in Hxy. subst y.
  destruct (IH s Hs) as (z & ->). exists z. reflexivity.
Qed.

Lemma contains_app (p a z : str) : Py.contains p (a ++ p ++ z) = true.
Proof.
  induction a as [|x a IH].
  - cbn [app]. destruct (p ++ z) eqn:E; cbn [Py.contains]; rewrite <- E;
      rewrite PyFacts.startswith_app; reflexivity.
  - cbn [app Py.contains]. rewrite IH. apply orb_true_r.
Qed.

Lemma endswith_contains (p s : str) :
  Py.endswith p s = true -> Py.contains p s = true.
Proof.
  unfold Py.endswith. intros H. apply startswith_split in H. destruct H as (z & H).
  apply (f_equal (@rev ascii)) in H. rewrite rev_involutive, rev_app_distr, rev_involutive in H.
  subst s. rewrite <- (app_nil_r p) at 2. apply contains_app.
Qed.

Lemma replace_go_absent (old new s : str) :
  Py.contains old s = false -> Py.replace_go old new s 0 = s.
Proof.
  induction s as [|c s IH]; intros H; [reflexivity|].
  cbn [Py.contains] in H. apply orb_false_elim in H. destruct H as [Hh Ht].
  cbn [Py.replace_go]. rewrite Hh, (IH Ht). reflexivity.
Qed.

Lemma replace_absent (old new s : str) :
  Py.contains old s = false -> Py.replace old new s = s.
Proof.
  intros H. unfold Py.replace. destruct old; [reflexivity|]. apply replace_go_absent, H.
Qed.

Lemma alternate_is_range_primary (base season : str) :
  Py.contains "/index" (Py.rstrip_char "/" base) = false ->
  Py.contains "/roster/" (Py.rstrip_char "/" base) = false ->
  _build_season_range_url base season
  = build_roster_url base season "wsoc_season_range".
Proof.
  intros Hi Hr. unfold _build_season_range_url. URLFacts.pick_format.
  rewrite (replace_absent _ _ _ Hi).
  destruct (Py.endswith "/index" (Py.rstrip_char "/" base)) eqn:E.
  - apply endswith_contains in E. congruence.
  - reflexivity.
Qed.


End URLFormatFacts.

(** ** The validator on large and on small rosters *)

Module ValidatorSizeFacts.

Import Validator Rosters.

(** A roster of fifteen records or more is accepted exactly when at least
    80% of the records have a name and at least 50% a jersey number: the
    positions and the years play no part. *)
Theorem validate_large_roster (players : list Player) :
  15 <= length players ->
  (_validate_players players = true <->
   80 * length players <= count_with name players * 100 /\
   50 * length players <= count_with jersey players * 100).
Proof.
  intros Hlen. destruct players as [|p ps]; [cbn in Hlen; lia|].
  unfold _validate_players.
  revert Hlen.
  generalize (count_with name (p :: ps)) (count_with jersey (p :: ps))
             (count_with position (p :: ps)) (count_with year (p :: ps)).
  generalize (length (p :: ps)).
  intros total cn cj cp cy Hlen.
  ValidatorFacts.decide_thresholds; split; intros Hacc;
    try discriminate; try reflexivity; try (exfalso; lia); try (split; lia).
Qed.

Lemma validate_large_roster_witness :
  _validate_players (repeat (record_with "Jane Doe" "7" [] []) 15) = true <->
  80 * length (repeat (record_with "Jane Doe" "7" [] []) 15)
  <= count_with name (repeat (record_with "Jane Doe" "7" [] []) 15) * 100 /\
  50 * length (repeat (record_with "Jane Doe" "7" [] []) 15)
  <= count_with jersey (repeat (record_with "Jane Doe" "7" [] []) 15) * 100.
Proof. apply validate_large_roster. cbn. lia. Defined.

(** A roster of fewer than fifteen records is accepted exactly when at
    least 80% of the records have a name, 80% a jersey number, 70% a
    position and 70% a year. *)
Theorem validate_small_roster (players : list Player) :
  players <> [] -> length players < 15 ->
  (_validate_players players = true <->
   80 * length players <= count_with name players * 100 /\
   80 * length players <= count_with jersey players * 100 /\
   70 * length players <= count_with position players * 100 /\
   70 * length players <= count_with year players * 100).
Proof.
  intros Hne Hlen. destruct players as [|p ps]; [congruence|].
  unfold _validate_players.
  revert Hlen.
  generalize (count_with name (p :: ps)) (count_with jersey (p :: ps))
             (count_with position (p :: ps)) (count_with year (p :: ps)).
  generalize (length (p :: ps)).
  intros total cn cj cp cy Hlen.
  ValidatorFacts.decide_thresholds; split; intros Hacc;
    try discriminate; try reflexivity; try (exfalso; lia); try (repeat split; lia).
Qed.

Lemma validate_small_roster_witness :
  _validate_players [record_with "Jane Doe" "7" "GK" "Senior"] = true <->
  80 * length [record_with "Jane Doe" "7" "GK" "Senior"]
  <= count_with name [record_with "Jane Doe" "7" "GK" "Senior"] * 100 /\
  80 * length [record_with "Jane Doe" "7" "GK" "Senior"]
  <= count_with jersey [record_with "Jane Doe" "7" "GK" "Senior"] * 100 /\
  70 * length [record_with "Jane Doe" "7" "GK" "Senior"]
  <= count_with position [record_with "Jane Doe" "7" "GK" "Senior"] * 100 /\
  70 * length [record_with "Jane Doe" "7" "GK" "Senior"]
  <= count_with year [record_with "Jane Doe" "7" "GK" "Senior"] * 100.
Proof. apply validate_small_roster; [discriminate | cbn; lia]. Defined.

(** The validator looks at four fields only, and only at whether each is
    empty: two rosters whose records agree on that give the same verdict. *)
Theorem validate_reads_four_fields (a b : list Player) :
  Forall2 (fun p q =>
             Py.truthy (name p) = Py.truthy (name q) /\
             Py.truthy (jersey p) = Py.truthy (jersey q) /\
             Py.truthy (position p) = Py.truthy (position q) /\
             Py.truthy (year p) = Py.truthy (year q)) a b ->
  _validate_players a = _validate_players b.
Proof.
  intros H.
  assert (Hl : length a = length b) by (eapply Forall2_length; eassumption).
  assert (Hc : count_with name a = count_with name b /\
               count_with jersey a = count_with jersey b /\
               count_with position a = count_with position b /\
               count_with year a = count_with year b).
  { unfold count_with. induction H as [|p q a b (Hn & Hj & Hp & Hy) _ IH].
    - repeat split.
    - destruct (IH ltac:(cbn in Hl; lia)) as (In & Ij & Ip & Iy).
      cbn [filter]. rewrite Hn, Hj, Hp, Hy.
      repeat split;
        match goal with |- context [if ?c then _ else _] => destruct c end;
        cbn [length]; congruence. }
  destruct Hc as (Hn & Hj & Hp & Hy).
  destruct H as [|p q a b _ _]; [reflexivity|].
  unfold _validate_players. rewrite Hn, Hj, Hp, Hy, Hl. reflexivity.
Qed.

Lemma validate_reads_four_fields_witness :
  _validate_players [record_with "Jane Doe" "7" "GK" "Senior"]
  = _validate_players [record_with "X" "0" "zz" "?"].
Proof.
  apply validate_reads_four_fields. constructor; [|constructor].
  cbn. repeat split.
Defined.

(** A witness of the agreement of the float and the rational validator. *)
Lemma validate_float_exact_witness :
  _validate_players_float (repeat (record_with "Jane Doe" "7" [] []) 15)
  = _validate_players (repeat (record_with "Jane Doe" "7" [] []) 15).
Proof. apply ValidatorFacts.validate_float_exact. cbn. lia. Defined.

End ValidatorSizeFacts.

(** ** More on [scrape_team] and on the enrichment from bio pages *)

Module ScrapeFacts.

Import Soup FieldExtractors StandardScraper Transports Rosters.

Ltac norm :=
  cbv beta iota zeta; cbn [snd fst app negb andb orb Z.eqb Pos.eqb].

Ltac split_one :=
  match goal with
  | |- context [match ?g ?l ?u with Some _ => _ | None => _ end] => destruct (g l u) eqn:?
  | |- context [(status_code ?r =? ?k)%Z] =>
      let E := fresh "E" in destruct (Z.eqb_spec (status_code r) k) as [E|E]
  | |- context [Py.eqb ?a ?b] =>
      let E := fresh "E" in
      destruct (Py.eqb a b) eqn:E;
      [apply PyFacts.eqb_eq in E | apply PyFacts.eqb_neq in E]
  | |- context [Py.endswith ?x ?y] => destruct (Py.endswith x y)
  | |- context [length ?l =? 0] => destruct (length l =? 0)
  end; norm.

Section WithTransport.

Variable http_get : list str -> str -> option response.

(** The ladder gives no roster when no request is answered with status 200. *)
Lemma ladder_without_200 (P A N : str) (extract : node -> list Player) (log : list str) :
  (forall l u r, http_get l u = Some r -> status_code r <> 200%Z) ->
  fst (ladder http_get P A N extract log) = None \/
  fst (ladder http_get P A N extract log) = Some None.
Proof.
  intros H. unfold ladder, bind, get, ret. norm.
  repeat split_one;
    first [ now left | now right
          | exfalso;
            match goal with
            | Hg : http_get ?l ?u = Some ?r, E : status_code ?r = 200%Z |- _ =>
                exact (H l u r Hg E)
            end ].
Qed.

(** With the alternate equal to the primary URL the ladder requests the
    primary URL and then, at most, the URL without season. *)
Lemma ladder_alternate_is_primary (P N : str) (extract : node -> list Player) :
  snd (ladder http_get P P N extract []) = [P] \/
  snd (ladder http_get P P N extract []) = [P; N].
Proof.
  unfold ladder, bind, get, ret. norm. rewrite PyFacts.eqb_refl. norm.
  repeat split_one; first [now left | now right].
Qed.

(** *** The requests of the enrichment *)

Lemma enhance_player_log (p : Player) (log : list str) :
  snd (enhance_player http_get p log)
  = log ++ (if wants_bio p then [url p] else []).
Proof.
  unfold enhance_player, get, wants_bio.
  destruct (Py.truthy (position p)); cbn [orb negb andb snd].
  - rewrite app_nil_r. reflexivity.
  - destruct (Py.truthy (url p)); cbn [negb snd].
    + destruct (http_get log (url p)) as [r|]; [|reflexivity].
      destruct (negb _); reflexivity.
    + rewrite app_nil_r. reflexivity.
Qed.

Lemma enhance_loop_log (players : list Player) : forall log,
  snd (enhance_loop http_get players log) = log ++ map url (filter wants_bio players).
Proof.
  induction players as [|p players IH]; intros log.
  - cbn. rewrite app_nil_r. reflexivity.
  - cbn [enhance_loop filter]. pose proof (enhance_player_log p log) as Hp.
    destruct (enhance_player http_get p log) as [p' log']. cbn [snd] in Hp.
    specialize (IH log'). destruct (enhance_loop http_get players log') as [o g].
    cbn [snd] in *. rewrite IH, Hp. destruct (wants_bio p); cbn [map app].
    + rewrite <- app_assoc. reflexivity.
    + rewrite app_nil_r. reflexivity.
Qed.

Lemma no_missing_no_bio (players : list Player) :
  filter (fun p => negb (Py.truthy (position p))) players = [] ->
  filter wants_bio players = [].
Proof.
  induction players as [|p players IH]; [reflexivity|]. cbn [filter]. unfold wants_bio at 1.
  destruct (Py.truthy (position p)); cbn [negb andb]; [exact IH | discriminate].
Qed.

(** *** The positions that the enrichment writes *)

Lemma truthy_code (t : str) :
  Py.truthy (extract_position t) = true -> In (extract_position t) field_codes.
Proof.
  intros H. pose proof (PositionCaseFacts.extract_position_in_codes t) as Hc.
  unfold position_codes in Hc. unfold field_codes. cbn [In] in *.
  destruct Hc as [Hc | [Hc | [Hc | [Hc | [Hc | []]]]]]; auto.
  rewrite <- Hc in H. discriminate.
Qed.

Lemma position_from_labels_cases (labels : list (node * option node)) : forall pos,
  position_from_labels labels pos = pos \/
  position_from_labels labels pos = [] \/
  In (position_from_labels labels pos) field_codes.
Proof.
  induction labels as [|[label parent] labels IH]; intros pos; [now left|].
  cbn [position_from_labels]. cbv zeta.
  destruct (Py.contains _ _); [|apply IH].
  destruct parent as [div|].
  - destruct (value_span div) as [span|].
    + destruct (Py.truthy (extract_position _)) eqn:Ht.
      * right. right. apply truthy_code. exact Ht.
      * destruct (IH (extract_position (Py.strip (get_text span)))) as [H | [H | H]];
          [|now right; left|now right; right].
        rewrite H. destruct (extract_position _); [now right; left|discriminate].
    + destruct (Py.truthy pos) eqn:Ht; [now left|apply IH].
  - destruct (Py.truthy pos) eqn:Ht; [now left|apply IH].
Qed.

Lemma enhance_player_position (p : Player) (log : list str) :
  fst (enhance_player http_get p log) = p \/
  exists code, In code field_codes /\ position p = [] /\
               fst (enhance_player http_get p log) = set_position p code.
Proof.
  unfold enhance_player, get.
  destruct (Py.truthy (position p)) eqn:Hp; cbn [orb fst]; [now left|].
  destruct (Py.truthy (url p)); cbn [negb fst]; [|now left].
  destruct (http_get log (url p)) as [r|]; cbn [fst]; [|now left].
  destruct (negb _); cbn [fst]; [now left|].
  assert (He : position p = []) by (destruct (position p); [reflexivity|discriminate]).
  destruct (position_from_labels_cases (bio_labels (page r)) (position p)) as [H | [H | H]].
  - left. rewrite H. apply ScraperFacts.set_position_same.
  - left. rewrite H, <- He. apply ScraperFacts.set_position_same.
  - right. eexists. split; [exact H|]. split; [exact He|reflexivity].
Qed.

End WithTransport.

(** When no request is answered with status 200, [scrape_team] returns no
    record. *)
Theorem scrape_team_without_200
    (http_get : list str -> str -> option response)
    (extract : node -> Z -> str -> str -> str -> str -> list Player)
    (kentucky : list Player -> list str -> list Player * list str)
    (team_id : Z) (team_name base_url season division : str) (log : list str) :
  (forall l u r, http_get l u = Some r -> status_code r <> 200%Z) ->
  fst (scrape_team http_get extract kentucky team_id team_name base_url season
         division log) = [].
Proof.
  intros H. unfold scrape_team, fetch_roster.
  match goal with
  | |- context [ladder ?g ?p ?a ?n ?e ?l] =>
      destruct (ladder_without_200 g p a n e l H) as [Hl | Hl];
      destruct (ladder g p a n e l) as [[[ps|]|] log']; cbn [fst] in Hl;
      try discriminate; reflexivity
  end.
Qed.

Lemma scrape_team_without_200_witness :
  fst (scrape_team (always 404) no_players no_enrichment 457 "North Carolina"
         "https://goheels.com/sports/womens-soccer" "2025" "I" []) = [].
Proof.
  apply scrape_team_without_200. intros l u r Hr. inversion Hr. cbn. discriminate.
Defined.

(** The enrichment requests the profile URL of each record that has no
    position and has a URL, once each, in the order of the roster, and
    nothing else. *)
Theorem bio_requests_in_roster_order
    (http_get : list str -> str -> option response) (players : list Player)
    (log : list str) :
  snd (_enhance_sidearm_positions_from_bios http_get players log)
  = log ++ map url (filter wants_bio players).
Proof.
  unfold _enhance_sidearm_positions_from_bios.
  destruct players as [|p players]; [cbn; rewrite app_nil_r; reflexivity|].
  destruct (_ =? 0) eqn:E; [|apply enhance_loop_log].
  apply Nat.eqb_eq, length_zero_iff_nil, no_missing_no_bio in E.
  rewrite E. cbn. rewrite app_nil_r. reflexivity.
Qed.


(** For a team of the season-range family whose base URL holds neither
    [/index] nor [/roster/], the season-range alternate is the primary URL
    itself: after the primary URL only the URL without season may be
    requested. *)
Theorem season_range_team_requests
    (http_get : list str -> str -> option response)
    (extract : node -> Z -> str -> str -> str -> str -> list Player)
    (team_id : Z) (team_name base_url season division : str) :
  TeamConfig.get_url_format team_id base_url = "wsoc_season_range" ->
  Py.contains "/index" (Py.rstrip_char "/" base_url) = false ->
  Py.contains "/roster/" (Py.rstrip_char "/" base_url) = false ->
  _build_season_range_url base_url season = primary_url team_id base_url season /\
  (snd (fetch_roster http_get extract team_id team_name base_url season division [])
   = [primary_url team_id base_url season] \/
   snd (fetch_roster http_get extract team_id team_name base_url season division [])
   = [primary_url team_id base_url season; no_season_url base_url]).
Proof.
  intros Hf Hi Hr.
  assert (He : _build_season_range_url base_url season
               = primary_url team_id base_url season).
  { unfold primary_url. rewrite Hf.
    apply URLFormatFacts.alternate_is_range_primary; assumption. }
  split; [exact He|]. unfold fetch_roster. rewrite He.
  apply ladder_alternate_is_primary.
Qed.

Lemma season_range_team_requests_witness :
  _build_season_range_url "https://ubknights.com/sports/wsoc" "2025"
  = primary_url 74 "https://ubknights.com/sports/wsoc" "2025" /\
  (snd (fetch_roster (always 404) no_players 74 "Bridgeport"
          "https://ubknights.com/sports/wsoc" "2025" "II" [])
   = [primary_url 74 "https://ubknights.com/sports/wsoc" "2025"] \/
   snd (fetch_roster (always 404) no_players 74 "Bridgeport"
          "https://ubknights.com/sports/wsoc" "2025" "II" [])
   = [primary_url 74 "https://ubknights.com/sports/wsoc" "2025";
      no_season_url "https://ubknights.com/sports/wsoc"]).
Proof.
  apply (season_range_team_requests (always 404) no_players 74 "Bridgeport"
           "https://ubknights.com/sports/wsoc" "2025" "II"); reflexivity.
Defined.

End ScrapeFacts.

(** ** The scraper for rendered pages *)

Module JSFacts.

Import Soup StandardScraper JSScraper Renderers Pages.

Section WithRenderer.

Variable render : list request -> str -> option node.
Variable http_get : list request -> str -> option response.
Variable extract : node -> Z -> str -> str -> str -> str -> list Player.

Lemma primary_page_log (u : str) (log : list request) :
  snd (primary_page render http_get u log) = log ++ [Rendered u] \/
  snd (primary_page render http_get u log) = log ++ [Rendered u; Fetched u].
Proof.
  unfold primary_page. cbv zeta. destruct (render log u); [now left|].
  right. rewrite <- app_assoc.
  destruct (http_get _ u) as [r|]; [destruct (_ =? _)%Z|]; reflexivity.
Qed.

End WithRenderer.

(** A roster that the JS scraper returns is the non-empty extraction of
    the primary page, whatever the validator would say of it, or an
    extraction of the alternate page that the validator accepts; in every
    other case the result is empty. *)
Theorem js_scrape_team_cases
    (render : list request -> str -> option node)
    (http_get : list request -> str -> option response)
    (extract : node -> Z -> str -> str -> str -> str -> list Player)
    (team_id : Z) (team_name base_url season division : str) (log : list request) :
  let players :=
    fst (scrape_team render http_get extract team_id team_name base_url season
           division log) in
  players = [] \/
  (exists html,
     fst (primary_page render http_get (primary_url team_id base_url season) log)
     = Some (Some html) /\
     players = extract html team_id team_name season division base_url /\
     players <> []) \/
  (exists html l,
     render l (_build_season_range_url base_url season) = Some html /\
     _build_season_range_url base_url season <> primary_url team_id base_url season /\
     players = extract html team_id team_name season division base_url /\
     Validator._validate_players players = true).
Proof.
  cbv zeta. unfold scrape_team, primary_url.
  destruct (primary_page render http_get _ log) as [[[html|]|] log'];
    cbn [fst]; [|now left|now left].
  destruct (length (extract html _ _ _ _ _)) eqn:El; cbn [Nat.eqb negb fst].
  - apply length_zero_iff_nil in El. rewrite El. cbn [Validator._validate_players negb].
    destruct (Py.eqb _ _) eqn:E; cbn [negb fst]; [now left|].
    apply PyFacts.eqb_neq in E.
    destruct (render log' _) as [html_alt|] eqn:Er; cbn [fst]; [|now left].
    destruct (Validator._validate_players _) eqn:Ev; cbn [fst]; [|now left].
    right. right. exists html_alt, log'. auto.
  - right. left. exists html. split; [reflexivity|]. split; [reflexivity|].
    intros H. rewrite H in El. discriminate.
Qed.

(** When the renderer prints a page in which the extractor finds a
    record, that extraction is the result and the one request made: the
    validator is not asked and no other URL is tried. *)
Theorem js_primary_page_not_validated
    (render : list request -> str -> option node)
    (http_get : list request -> str -> option response)
    (extract : node -> Z -> str -> str -> str -> str -> list Player)
    (team_id : Z) (team_name base_url season division : str) (log : list request)
    (html : node) :
  render log (primary_url team_id base_url season) = Some html ->
  extract html team_id team_name season division base_url <> [] ->
  scrape_team render http_get extract team_id team_name base_url season division log
  = (extract html team_id team_name season division base_url,
     log ++ [Rendered (primary_url team_id base_url season)]).
Proof.
  intros Hr Hne. unfold scrape_team, primary_page, primary_url in *. cbv zeta.
  rewrite Hr. destruct (extract html _ _ _ _ _); [congruence|]. reflexivity.
Qed.

Lemma js_primary_page_not_validated_witness :
  scrape_team (prints (Elem "ul" [] [item_with_blank_name])) unreachable sidearm_only
    457 "North Carolina" "https://goheels.com/sports/womens-soccer" "2025" "I" []
  = (sidearm_only (Elem "ul" [] [item_with_blank_name]) 457 "North Carolina" "2025" "I"
       "https://goheels.com/sports/womens-soccer",
     [] ++ [Rendered (primary_url 457 "https://goheels.com/sports/womens-soccer" "2025")])
  /\ Validator._validate_players
       (sidearm_only (Elem "ul" [] [item_with_blank_name]) 457 "North Carolina" "2025"
          "I" "https://goheels.com/sports/womens-soccer") = false.
Proof.
  split.
  - apply js_primary_page_not_validated; [reflexivity|]. vm_compute. discriminate.
  - vm_compute. reflexivity.
Defined.

(** The JS scraper makes at most three requests: the primary URL is
    rendered first; the session fetches it only after a failed
    rendering; the alternate, if it comes, is rendered last and never
    fetched by the session. *)
Theorem js_requests
    (render : list request -> str -> option node)
    (http_get : list request -> str -> option response)
    (extract : node -> Z -> str -> str -> str -> str -> list Player)
    (team_id : Z) (team_name base_url season division : str) (log : list request) :
  let P := primary_url team_id base_url season in
  let A := _build_season_range_url base_url season in
  let requests :=
    snd (scrape_team render http_get extract team_id team_name base_url season
           division log) in
  (requests = log ++ [Rendered P] \/
   requests = log ++ [Rendered P; Rendered A] /\ A <> P \/
   (requests = log ++ [Rendered P; Fetched P] \/
    requests = log ++ [Rendered P; Fetched P; Rendered A] /\ A <> P)
   /\ render log P = None).
Proof.
  cbv zeta. unfold scrape_team, primary_url, primary_page.
  set (P := URLBuilder.build_roster_url _ _ _).
  set (A := _build_season_range_url _ _).
  destruct (render log P) as [html|] eqn:Er.
  - destruct (negb (length _ =? 0)); cbn [snd]; [now left|].
    destruct (negb (Validator._validate_players _)); cbn [snd]; [|now left].
    destruct (Py.eqb A P) eqn:E; cbn [negb snd]; [now left|].
    apply PyFacts.eqb_neq in E. right. left. split; [|exact E].
    rewrite <- app_assoc.
    destruct (render _ A); [destruct (Validator._validate_players _)|]; reflexivity.
  - right. right. split; [|reflexivity]. rewrite <- app_assoc. cbn [app].
    destruct (http_get _ P) as [r|]; cbn [snd]; [|now left].
    destruct (status_code r =? 200)%Z; cbn [snd]; [|now left].
    destruct (negb (length _ =? 0)); cbn [snd]; [now left|].
    destruct (negb (Validator._validate_players _)); cbn [snd]; [|now left].
    destruct (Py.eqb A P) eqn:E; cbn [negb snd]; [now left|].
    apply PyFacts.eqb_neq in E. right. split; [|exact E].
    rewrite <- app_assoc. cbn [app].
    destruct (render _ A); [destruct (Validator._validate_players _)|]; reflexivity.
Qed.

End JSFacts.

(** ** The records of the extractors *)

Module RecordFacts.

Import Soup FieldExtractors Extractors Pages.

Lemma text_via_position (e : option node) :
  In (text_via extract_position e) position_codes.
Proof.
  destruct e; cbn [text_via]; [apply PositionCaseFacts.extract_position_in_codes|].
  unfold position_codes. cbn. tauto.
Qed.

Lemma empty_is_code : In ([] : str) position_codes.
Proof. unfold position_codes. cbn. tauto. Qed.

Lemma first_position_codes (elems : list node) :
  In (first_position elems) position_codes.
Proof.
  induction elems as [|e elems IH]; cbn [first_position]; [apply empty_is_code|].
  destruct (position_like_class e); [|exact IH]. cbv zeta.
  destruct (Py.truthy _); [apply PositionCaseFacts.extract_position_in_codes|exact IH].
Qed.

Lemma bio_stats_position (stats : list node) : forall acc : str * str * str,
  In (fst (fst acc)) position_codes ->
  In (fst (fst (fold_left bio_stat stats acc))) position_codes.
Proof.
  induction stats as [|s stats IH]; intros acc H; [exact H|].
  cbn [fold_left]. apply IH. destruct acc as [[position year] height].
  unfold bio_stat. cbv zeta.
  repeat match goal with |- context [if ?b then _ else _] => destruct b end;
    cbn [fst]; try exact H.
  apply PositionCaseFacts.extract_position_in_codes.
Qed.

Section WithDomain.

Variable domain_of : str -> str.

Lemma profile_url_absolute (base_url href : str) :
  Py.startswith "http" (profile_url_of domain_of base_url href) = true.
Proof.
  unfold profile_url_of. destruct (Py.startswith "http" href) eqn:E; [exact E|].
  destruct (Py.startswith "/" href); reflexivity.
Qed.

Lemma sidearm_player_record (team_id : Z) (team_name season division base_url : str)
    (item : node) (p : Player) :
  sidearm_player domain_of team_id team_name season division base_url item = Some p ->
  In (position p) position_codes /\ absolute_or_empty (url p).
Proof.
  unfold sidearm_player. cbv zeta.
  destruct (or_else _ _) as [name_elem|]; [|discriminate].
  destruct (find_with_attr "a" "href" name_elem) as [name_link|];
    intros H; inversion H; subst p; cbn [position url]; split.
  - repeat match goal with
           | |- context [match ?o with Some _ => _ | None => _ end] => destruct o
           | |- context [if ?b then _ else _] => destruct b
           end;
      first [apply PositionCaseFacts.extract_position_in_codes | apply first_position_codes].
  - right. apply profile_url_absolute.
  - repeat match goal with
           | |- context [match ?o with Some _ => _ | None => _ end] => destruct o
           | |- context [if ?b then _ else _] => destruct b
           end;
      first [apply PositionCaseFacts.extract_position_in_codes | apply first_position_codes].
  - now left.
Qed.

Lemma kentucky_row_record (header_map : list (string * nat)) (team_id : Z)
    (team_name season division base_url : str) (row : node) (p : Player) :
  kentucky_row domain_of header_map team_id team_name season division base_url row
  = Some p ->
  In (position p) position_codes /\ absolute_or_empty (url p).
Proof.
  unfold kentucky_row. cbv zeta.
  destruct (_ <? 2); [discriminate|].
  destruct (cell_of "name" header_map _) as [name_cell|].
  - destruct (find_with_attr "a" "href" name_cell) as [link|];
      (destruct (negb _); [discriminate|]);
      intros H; inversion H; subst p; cbn [position url]; split;
      first [apply text_via_position | right; apply profile_url_absolute | now left].
  - cbn [Py.truthy negb]. discriminate.
Qed.

Lemma person_card_record (team_id : Z) (team_name season division base_url : str)
    (card : node) (p : Player) :
  person_card domain_of team_id team_name season division base_url card = Some p ->
  In (position p) position_codes /\ absolute_or_empty (url p).
Proof.
  unfold person_card. cbv zeta.
  pose proof (bio_stats_position
                (find_all "span" "s-person-details__bio-stats-item" card)
                ([], [], []) empty_is_code) as Hpos.
  destruct (fold_left bio_stat _ _) as [[pos yr] ht]. cbn [fst] in Hpos.
  destruct (fold_left location_item _ _) as [town school].
  destruct (negb _ || negb _); [discriminate|].
  destruct (find_with_attr "a" "href" card);
    intros H; inversion H; subst p; cbn [position url];
    (split; [exact Hpos|]); [right; apply profile_url_absolute|now left].
Qed.

(** *** The header map *)

Lemma get_set_key (key k : string) (i : nat) (m : list (string * nat)) :
  get_key key (set_key k i m) = if String.eqb k key then Some i else get_key key m.
Proof.
  induction m as [|[k' v] m IH]; cbn [set_key get_key].
  - reflexivity.
  - destruct (String.eqb_spec k' k) as [->|Hne]; cbn [get_key].
    + destruct (String.eqb k key); reflexivity.
    + rewrite IH. destruct (String.eqb_spec k' key) as [->|Hne'].
      * destruct (String.eqb_spec k key) as [->|_]; [congruence|reflexivity].
      * reflexivity.
Qed.

End WithDomain.


(** When several header cells name the same field, the last of them gives
    the column of the field; a field that no cell names keeps the column it
    had. *)
Theorem header_map_last_wins (key : string) (headers : list node) :
  forall (i : nat) (m : list (string * nat)),
    get_key key (header_map_from headers i m)
    = match last_header key headers i with
      | Some j => Some j
      | None => get_key key m
      end.
Proof.
  induction headers as [|th headers IH]; intros i m; [reflexivity|].
  cbn [header_map_from last_header]. cbv zeta.
  destruct (header_field _) as [k|]; rewrite IH;
    destruct (last_header key headers (S i)); try reflexivity.
  rewrite get_set_key. destruct (String.eqb k key); reflexivity.
Qed.

End RecordFacts.

(** ** The batch of teams *)

Module ManagerFacts.

Import RosterManager.

Section WithScrapers.

Variable season : str.
Variable standard_scrape : Z -> str -> str -> str -> str -> option (list Player).
Variable js_scrape : Z -> str -> str -> str -> str -> option (list Player).

Local Abbreviation row_step := (scrape_row season standard_scrape js_scrape).
Local Abbreviation loop := (scrape_loop season standard_scrape js_scrape).

Lemma scrape_row_counts (st st' : tallies) (row : team_row) :
  row_step st row = Some st' ->
  teams_reported st' = S (teams_reported st) /\
  (players_reported st = length (all_players st) ->
   players_reported st' = length (all_players st')) /\
  (Forall (fun e => 0 < snd e) (successful_teams st) ->
   Forall (fun e => 0 < snd e) (successful_teams st')).
Proof.
  unfold scrape_row, teams_reported, players_reported.
  destruct (team_id_of row) as [team_id|]; [|discriminate].
  destruct (scrape_one _ _ _ _ _) as [players|].
  - destruct (length players =? 0) eqn:E; intros H; inversion H; subst st';
      cbn [all_players zero_player_teams successful_teams failed_teams].
    + rewrite length_app. cbn [length]. repeat split; auto; lia.
    + apply Nat.eqb_neq in E.
      rewrite !length_app, map_app, list_sum_app. cbn [length map snd list_sum].
      split; [lia|]. split; [intros Hs; cbn; lia|].
      intros Hs. apply Forall_app. split; [exact Hs|]. constructor; [cbn; lia|constructor].
  - intros H; inversion H; subst st';
      cbn [all_players zero_player_teams successful_teams failed_teams].
    rewrite length_app. cbn [length]. repeat split; auto; lia.
Qed.

Lemma scrape_row_none (st : tallies) (row : team_row) :
  row_step st row = None <-> team_id_of row = None.
Proof.
  unfold scrape_row. destruct (team_id_of row) as [team_id|]; [|tauto].
  destruct (scrape_one _ _ _ _ _) as [players|];
    [destruct (length players =? 0)|]; split; discriminate.
Qed.

Lemma scrape_loop_none (teams : list team_row) : forall st,
  loop teams st = None <-> Exists (fun row => team_id_of row = None) teams.
Proof.
  induction teams as [|row teams IH]; intros st; cbn [scrape_loop].
  - split; [discriminate|]. intros H. inversion H.
  - destruct (row_step st row) as [st'|] eqn:E.
    + rewrite IH. split; [intros H; now right|].
      intros H. inversion H as [? ? Hr|]; [|assumption].
      apply (scrape_row_none st) in Hr. congruence.
    + split; [|reflexivity]. intros _. left. apply (scrape_row_none st). exact E.
Qed.

Lemma scrape_loop_counts (teams : list team_row) : forall st st',
  loop teams st = Some st' ->
  teams_reported st' = teams_reported st + length teams /\
  (players_reported st = length (all_players st) ->
   players_reported st' = length (all_players st')) /\
  (Forall (fun e => 0 < snd e) (successful_teams st) ->
   Forall (fun e => 0 < snd e) (successful_teams st')).
Proof.
  induction teams as [|row teams IH]; intros st st'; cbn [scrape_loop].
  - intros H. inversion H; subst st'. cbn [length]. repeat split; auto; lia.
  - destruct (row_step st row) as [st1|] eqn:E; [|discriminate].
    intros H. destruct (scrape_row_counts _ _ _ E) as (H1 & H2 & H3).
    destruct (IH _ _ H) as (I1 & I2 & I3). cbn [length].
    repeat split; auto; lia.
Qed.

End WithScrapers.


(** When the batch returns, each team scraped is in exactly one of the
    three reports, every team reported as successful has at least one
    player, and the player counts of the successful teams add up to the
    number of players returned. *)
Theorem scrape_teams_tallies
    (season : str)
    (standard_scrape js_scrape : Z -> str -> str -> str -> str -> option (list Player))
    (teams : list team_row) (max_teams : option Z) (st : tallies) :
  scrape_teams season standard_scrape js_scrape teams max_teams = Some st ->
  teams_reported st = length (teams_to_scrape teams max_teams) /\
  players_reported st = length (all_players st) /\
  Forall (fun e => 0 < snd e) (successful_teams st).
Proof.
  unfold scrape_teams. intros H.
  destruct (scrape_loop_counts _ _ _ _ _ _ H) as (H1 & H2 & H3).
  split; [exact H1|]. split; [apply H2; reflexivity|apply H3; constructor].
Qed.

Lemma scrape_teams_tallies_witness :
  teams_reported (mkTallies [] [("Albany" : str, 14%Z); ("Yale" : str, 813%Z)] [] [])
  = length (teams_to_scrape [row_of "14" "Albany"; row_of "813" "Yale"] None) /\
  players_reported (mkTallies [] [("Albany" : str, 14%Z); ("Yale" : str, 813%Z)] [] [])
  = length (all_players
              (mkTallies [] [("Albany" : str, 14%Z); ("Yale" : str, 813%Z)] [] [])) /\
  Forall (fun e => 0 < snd e)
    (successful_teams
       (mkTallies [] [("Albany" : str, 14%Z); ("Yale" : str, 813%Z)] [] [])).
Proof.
  apply (scrape_teams_tallies "2025" finds_nothing finds_nothing
           [row_of "14" "Albany"; row_of "813" "Yale"] None).
  vm_compute. reflexivity.
Defined.

(** With no limit, or a limit that is not negative, the number of teams
    that [main] prints as attempted is the number of teams that
    [scrape_teams] goes through. *)
Theorem teams_attempted_is_scraped (teams : list team_row) (limit : option Z) :
  (forall k, limit = Some k -> (0 <= k)%Z) ->
  teams_attempted teams limit = Z.of_nat (length (teams_to_scrape teams limit)).
Proof.
  intros H. unfold teams_attempted, teams_to_scrape.
  destruct limit as [k|]; [|reflexivity]. specialize (H k eq_refl).
  destruct (Z.eqb_spec k 0); [reflexivity|].
  unfold slice_to. rewrite (proj2 (Z.leb_le 0 k) H). rewrite length_firstn. lia.
Qed.

Lemma teams_attempted_is_scraped_witness :
  teams_attempted [row_of "14" "Albany"; row_of "813" "Yale"] (Some 1%Z)
  = Z.of_nat (length (teams_to_scrape [row_of "14" "Albany"; row_of "813" "Yale"]
                        (Some 1%Z))).
Proof.
  apply teams_attempted_is_scraped. intros k H. inversion H. lia.
Defined.

End ManagerFacts.
